(** * build-your-own-radar: the radar factory (src/util/factory.js)

    A shallow embedding of the ingestion pipeline of the radar factory:
    the title rule, ring and quadrant assembly ([plotRadar]), the three
    source variants (public sheet, protected sheet, CSV document), the
    file-name rule ([FileName]), the two error pages
    ([plotErrorMessage], [plotUnauthorizedErrorMessage]), the loading
    page, and the input page with its domain-name rule ([DomainName],
    [GoogleSheetInput().build]).

    JavaScript strings are embedded as [string]: the UTF-8 encoding of
    the text, one [ascii] per octet.  Case conversion and white space are
    those of the ASCII range; every other octet is left alone. *)

From Stdlib Require Import ZArith NArith Ascii String List Lia Bool Permutation Sorted.
From stdpp Require Import base option list strings gmap sets.

Set Default Proof Using "Type".

(** ** JavaScript strings *)

Module Js.

Definition chars (s : string) : list ascii := list_ascii_of_string s.
Definition str (l : list ascii) : string := string_of_list_ascii l.

Definition code (c : ascii) : N := N_of_ascii c.

Definition isUpper (c : ascii) : bool := (65 <=? code c)%N && (code c <=? 90)%N.
Definition isLower (c : ascii) : bool := (97 <=? code c)%N && (code c <=? 122)%N.

Definition lowerChar (c : ascii) : ascii :=
  if isUpper c then ascii_of_N (code c + 32) else c.
Definition upperChar (c : ascii) : ascii :=
  if isLower c then ascii_of_N (code c - 32) else c.

(** [String.prototype.toLowerCase] and [toUpperCase] on ASCII text.  A
    letter outside the ASCII range, which the engine would convert as
    well, is left as it is: what is proved of a converted text is stated
    for ASCII text, or does not depend on the letters outside it. *)
Fixpoint toLowerCase (s : string) : string :=
  match s with
  | EmptyString => EmptyString
  | String c t => String (lowerChar c) (toLowerCase t)
  end.

Fixpoint toUpperCase (s : string) : string :=
  match s with
  | EmptyString => EmptyString
  | String c t => String (upperChar c) (toUpperCase t)
  end.

(** [s.substring(from, to)] for [0 <= from <= to]; indices past the end
    are clamped to the length, as in JavaScript. *)
Definition substring (s : string) (from to : nat) : string :=
  str (take (to - from) (drop from (chars s))).

(** [s.endsWith(suffix)]: the last [suffix.length] characters of [s] are
    compared with [suffix]; false when [s] is shorter. *)
Definition endsWith (s suffix : string) : bool :=
  let n := String.length s in
  let k := String.length suffix in
  if n <? k then false
  else bool_decide (substring s (n - k) n = suffix).

(** [s.charAt(0)] and [s.slice(1)]. *)
Definition charAt0 (s : string) : string :=
  match s with EmptyString => EmptyString | String c _ => String c EmptyString end.
Definition slice1 (s : string) : string :=
  match s with EmptyString => EmptyString | String _ t => t end.

(** Two strings are equal up to the case of their ASCII letters. *)
Definition sameLetter (c d : ascii) : bool :=
  bool_decide (c = d)
  || (isUpper c && (code d =? code c + 32)%N)
  || (isUpper d && (code c =? code d + 32)%N).

Fixpoint equalsIgnoreCase (s t : string) : bool :=
  match s, t with
  | EmptyString, EmptyString => true
  | String c s', String d t' => sameLetter c d && equalsIgnoreCase s' t'
  | _, _ => false
  end.

(** [s.trim()], over the ASCII white space. *)
Fixpoint trimStart (l : list ascii) : list ascii :=
  match l with
  | c :: t => if Ascii.is_space c then trimStart t else l
  | [] => []
  end.

Definition trim (s : string) : string :=
  str (reverse (trimStart (reverse (trimStart (chars s))))).

(** [s.replace(/\+/g, ' ')]. *)
Definition plusToSpace (c : ascii) : ascii :=
  if bool_decide (c = "+"%char) then " "%char else c.

Definition replacePlus (s : string) : string := str (plusToSpace <$> chars s).

(** *** decodeURIComponent

    ECMAScript's Decode with an empty reserved set: every [%XX] escape is
    read as one octet; an octet below 0x80 stands for itself, an octet
    from 0x80 starts a UTF-8 sequence whose continuation octets must be
    escapes too and which must encode a code point (no overlong form, no
    surrogate, nothing above U+10FFFF).  [None] is the thrown URIError. *)

Definition hexVal (c : ascii) : option N :=
  let n := code c in
  if (48 <=? n)%N && (n <=? 57)%N then Some (n - 48)%N
  else if (65 <=? n)%N && (n <=? 70)%N then Some (n - 55)%N
  else if (97 <=? n)%N && (n <=? 102)%N then Some (n - 87)%N
  else None.

Inductive Token :=
  | Lit (c : ascii)
  | Esc (octet : N).

Fixpoint unescape (s : list ascii) : option (list Token) :=
  match s with
  | [] => Some []
  | c :: t =>
      if bool_decide (c = "%"%char) then
        match t with
        | h1 :: h2 :: t' =>
            match hexVal h1, hexVal h2 with
            | Some a, Some b => cons (Esc (16 * a + b)) <$> unescape t'
            | _, _ => None
            end
        | _ => None
        end
      else cons (Lit c) <$> unescape t
  end.

Definition within (lo hi b : N) : bool := (lo <=? b)%N && (b <=? hi)%N.
Definition isCont (b : N) : bool := within 128 191 b.

(** The second octet of a three- and of a four-octet sequence. *)
Definition second3 (b b1 : N) : bool :=
  if (b =? 224)%N then within 160 191 b1
  else if (b =? 237)%N then within 128 159 b1
  else isCont b1.
Definition second4 (b b1 : N) : bool :=
  if (b =? 240)%N then within 144 191 b1
  else if (b =? 244)%N then within 128 143 b1
  else isCont b1.

Fixpoint decodeOctets (l : list Token) : option (list ascii) :=
  match l with
  | [] => Some []
  | Lit c :: t => cons c <$> decodeOctets t
  | Esc b :: t =>
      if (b <? 128)%N then cons (ascii_of_N b) <$> decodeOctets t
      else if within 194 223 b then
        match t with
        | Esc b1 :: t1 =>
            if isCont b1
            then app (ascii_of_N <$> [b; b1]) <$> decodeOctets t1
            else None
        | _ => None
        end
      else if within 224 239 b then
        match t with
        | Esc b1 :: Esc b2 :: t2 =>
            if second3 b b1 && isCont b2
            then app (ascii_of_N <$> [b; b1; b2]) <$> decodeOctets t2
            else None
        | _ => None
        end
      else if within 240 244 b then
        match t with
        | Esc b1 :: Esc b2 :: Esc b3 :: t3 =>
            if second4 b b1 && isCont b2 && isCont b3
            then app (ascii_of_N <$> [b; b1; b2; b3]) <$> decodeOctets t3
            else None
        | _ => None
        end
      else None
  end.

Definition decodeURIComponent (s : string) : option string :=
  str <$> (unescape (chars s) ≫= decodeOctets).

(** *** The regular expression [/([^\\/]+)$/]

    The class excludes the backslash and the slash.  [exec] looks for the
    leftmost position from which one or more characters of the class
    reach the end of the input, and captures them. *)

Definition isSeparator (c : ascii) : bool :=
  bool_decide (c = "\"%char) || bool_decide (c = "/"%char).

Definition segmentChar (c : ascii) : bool := negb (isSeparator c).

Fixpoint execLastSegment (s : list ascii) : option (list ascii) :=
  match s with
  | [] => None
  | _ :: t => if forallb segmentChar s then Some s else execLastSegment t
  end.

End Js.

(** ** Exceptions

    The values the pipeline throws or is handed by a source: the repository's
    two error classes, the engine's TypeError and URIError, and the
    rejection of a sheet request, which carries the HTTP [status]. *)

Inductive Exception :=
  | MalformedDataError (message : string)
  | SheetNotFoundError (message : string)
  | TypeError
  | URIError
  | ResponseError (status : option Z).

(** [error.status]: undefined on every error but a response's. *)
Definition status (e : Exception) : option Z :=
  match e with
  | ResponseError s => s
  | _ => None
  end.

Definition Result (A : Type) : Type := Exception + A.

(** ** lodash *)

Module Lodash.

(** [_.map(array, iteratee)]. *)
Definition map {A B} (array : list A) (iteratee : A → B) : list B :=
  iteratee <$> array.

(** [_.uniqBy(array, iteratee)] (baseUniq): an element is kept when its
    computed value is not among the values [seen] so far. *)
Fixpoint uniqByFrom {A K} `{EqDecision K}
    (iteratee : A → K) (seen : list K) (array : list A) : list A :=
  match array with
  | [] => []
  | value :: rest =>
      let computed := iteratee value in
      if bool_decide (computed ∈ seen) then uniqByFrom iteratee seen rest
      else value :: uniqByFrom iteratee (seen ++ [computed]) rest
  end.

Definition uniqBy {A K} `{EqDecision K} (array : list A) (iteratee : A → K) : list A :=
  uniqByFrom iteratee [] array.

(** [_.upperFirst] and [_.capitalize]: the latter lower-cases the whole
    string before it upper-cases the first character.  Both are those of
    lodash on ASCII text, as the case conversion above is. *)
Definition upperFirst (s : string) : string :=
  Js.toUpperCase (Js.charAt0 s) +:+ Js.slice1 s.

Definition capitalize (s : string) : string :=
  upperFirst (Js.toLowerCase s).

(** [_.each(array, iteratee)]: the iteratee gets the element and its
    index; [St] is what the callback's closure mutates; an exception ends
    the loop. *)
Fixpoint eachFrom {A St} (iteratee : A → nat → St → Result St)
    (index : nat) (array : list A) (s : St) : Result St :=
  match array with
  | [] => inr s
  | value :: rest =>
      match iteratee value index s with
      | inl e => inl e
      | inr s' => eachFrom iteratee (S index) rest s'
      end
  end.

Definition each {A St} (array : list A) (iteratee : A → nat → St → Result St)
    (s : St) : Result St :=
  eachFrom iteratee 0 array s.

End Lodash.

(** ** Plain objects used as maps

    [var o = {}], [o[k] = v] and [o[k]].  The assignments are kept in
    order, each key once.  A key never assigned is looked up on
    [Object.prototype]: for the dozen names found there the read yields
    the inherited member, a truthy value that is none of the program's
    own.  [o['__proto__'] = v] stores [v] in the prototype slot rather
    than in a property; a later read of that key yields [v] all the same,
    and the slot is not enumerated. *)

Module JsObject.

Abbreviation t V := (list (string * V)).

Definition empty {V} : t V := [].

Definition objectPrototypeNames : list string :=
  [ "constructor"; "__defineGetter__"; "__defineSetter__"; "hasOwnProperty";
    "__lookupGetter__"; "__lookupSetter__"; "isPrototypeOf";
    "propertyIsEnumerable"; "toString"; "valueOf"; "__proto__";
    "toLocaleString" ].

Definition inherited (k : string) : bool := bool_decide (k ∈ objectPrototypeNames).

Inductive Lookup (V : Type) :=
  | Found (v : V)
  | Inherited
  | Undefined.
Arguments Found {V} v.
Arguments Inherited {V}.
Arguments Undefined {V}.

Definition truthy {V} (x : Lookup V) : bool :=
  match x with
  | Undefined => false
  | _ => true
  end.

Fixpoint assigned {V} (o : t V) (k : string) : option V :=
  match o with
  | [] => None
  | (k', v) :: rest => if bool_decide (k' = k) then Some v else assigned rest k
  end.

(** [o[k]] *)
Definition get {V} (o : t V) (k : string) : Lookup V :=
  match assigned o k with
  | Some v => Found v
  | None => if inherited k then Inherited else Undefined
  end.

(** [o[k] = v] *)
Fixpoint set {V} (o : t V) (k : string) (v : V) : t V :=
  match o with
  | [] => [(k, v)]
  | (k', v') :: rest =>
      if bool_decide (k' = k) then (k, v) :: rest else (k', v') :: set rest k v
  end.

(** An array index: the canonical decimal numeral of an integer below
    2^32 - 1. *)
Definition digit (c : ascii) : option N :=
  if Js.within 48 57 (Js.code c) then Some (Js.code c - 48)%N else None.

Fixpoint digitsValue (acc : N) (l : list ascii) : option N :=
  match l with
  | [] => Some acc
  | c :: rest =>
      match digit c with
      | Some d => digitsValue (10 * acc + d) rest
      | None => None
      end
  end.

Definition arrayIndex (k : string) : option N :=
  match Js.chars k with
  | [] => None
  | c :: rest =>
      if bool_decide (c = "0"%char) && negb (bool_decide (rest = [])) then None
      else
        match digitsValue 0 (c :: rest) with
        | Some n => if (n <? 4294967295)%N then Some n else None
        | None => None
        end
  end.

Fixpoint insertByIndex {V} (n : N) (p : string * V)
    (l : list (N * (string * V))) : list (N * (string * V)) :=
  match l with
  | [] => [(n, p)]
  | (m, q) :: rest =>
      if (n <=? m)%N then (n, p) :: (m, q) :: rest
      else (m, q) :: insertByIndex n p rest
  end.

Fixpoint indexed {V} (o : t V) : list (N * (string * V)) :=
  match o with
  | [] => []
  | (k, v) :: rest =>
      match arrayIndex k with
      | Some n => insertByIndex n (k, v) (indexed rest)
      | None => indexed rest
      end
  end.

Definition named {V} (o : t V) : list (string * V) :=
  filter (λ p, arrayIndex p.1 = None ∧ p.1 ≠ "__proto__") o.

(** The own enumerable properties in the order [Object.keys] lists them:
    array indices in ascending order, then the other keys in the order
    of their creation. *)
Definition entries {V} (o : t V) : list (string * V) :=
  (snd <$> indexed o) ++ named o.

Definition keys {V} (o : t V) : list string := fst <$> entries o.
Definition values {V} (o : t V) : list V := snd <$> entries o.

End JsObject.

Abbreviation Found := JsObject.Found.
Abbreviation Inherited := JsObject.Inherited.
Abbreviation Undefined := JsObject.Undefined.

(** ** The domain model (models/)

    The model classes are not among the sources; they are taken from the
    data model of the spec. *)

Module Ring.
(** Modelled from the spec: models/ring.js, [Ring {name, order}], made by
    [new Ring(name, order)]. *)
Record t := new { name : string; order : nat }.
End Ring.

Module Blip.
(** Modelled from the spec: models/blip.js, the Entry
    [{name, ring, isNew, topic, description}] of the spec, made by
    [new Blip(name, ring, isNew, topic, description)].  The ring is
    whatever the read [ringMap[blip.ring]] yields. *)
Record t := new {
  name : string;
  ring : JsObject.Lookup Ring.t;
  isNew : bool;
  topic : string;
  description : string }.
End Blip.

Module Quadrant.
(** Modelled from the spec: models/quadrant.js, [Quadrant {name, entries}]:
    a name and an ordered sequence of entries. *)
Record t := make { name : string; blips : list Blip.t }.
(** Modelled from the spec: [new Quadrant(name)], a quadrant without
    entries. *)
Definition new (name : string) : t := make name [].
(** Modelled from the spec: [quadrant.add(blip)] appends the entry to the
    quadrant's entry sequence. *)
Definition add (q : t) (blip : Blip.t) : t := make (name q) (blips q ++ [blip]).
End Quadrant.

Module Radar.
(** Modelled from the spec: models/radar.js,
    [Radar {quadrants, currentSheetName, alternativeSheetNames}]. *)
Record t := make {
  quadrants : list Quadrant.t;
  currentSheetName : option string;
  alternatives : list string }.
(** Modelled from the spec: [new Radar()], [radar.addQuadrant(quadrant)],
    [radar.addAlternative(sheetName)] and [radar.setCurrentSheet(name)]:
    the quadrants and the alternative sheet names are kept in the order
    in which they are added. *)
Definition new : t := make [] None [].
Definition addQuadrant (r : t) (q : Quadrant.t) : t :=
  make (quadrants r ++ [q]) (currentSheetName r) (alternatives r).
Definition addAlternative (r : t) (sheetName : string) : t :=
  make (quadrants r) (currentSheetName r) (alternatives r ++ [sheetName]).
Definition setCurrentSheet (r : t) (sheetName : option string) : t :=
  make (quadrants r) sheetName (alternatives r).
End Radar.

(** ** Rows *)

Module Sanitized.
(** A sanitized row, the record [plotRadar] reads ([blip.name],
    [blip.ring], ...): every field is a string. *)
Record t := make {
  name : string;
  ring : string;
  quadrant : string;
  isNew : string;
  topic : string;
  description : string }.
End Sanitized.

Module InputSanitizer.

(** Modelled from the spec: util/inputSanitizer.js is not among the
    sources.  A cell of a keyed row, trimmed; an absent cell reads as
    the empty string. *)
Definition cell (rawBlip : gmap string string) (column : string) : string :=
  Js.trim (default "" (rawBlip !! column)).

(** Modelled from the spec: [sanitize(rawBlip)] for a keyed row (column
    name to cell) yields the record of its six trimmed fields. *)
Definition sanitize (rawBlip : gmap string string) : Sanitized.t :=
  Sanitized.make (cell rawBlip "name") (cell rawBlip "ring")
    (cell rawBlip "quadrant") (cell rawBlip "isNew") (cell rawBlip "topic")
    (cell rawBlip "description").

(** Modelled from the spec: [sanitizeForProtectedSheet(rawBlip, header)]
    for the header+array shape zips the header by position with the
    row's values to rebuild the keyed row, and sanitizes it as above.
    ([list_to_map] lets the first of two equal header cells win.) *)
Definition sanitizeForProtectedSheet (rawBlip header : list string) : Sanitized.t :=
  sanitize (list_to_map (zip header rawBlip)).

End InputSanitizer.

(** ** The page

    What the factory reads from and writes to [document] and [window],
    the renderer and the console. *)

(** The three fixed banner texts of the pages modelled here. *)
Inductive Banner := LoadingBanner | ReadFirstBanner | TitleBanner.

Inductive Part :=
  | Logo
  | BannerPart (banner : Banner)
  | Footer
  | ErrorMessage (html : string)
  | FaqMessage
  | HomePageLink (html : string)
  | ErrorTitle (html : string)
  | SwitchAccountButton (content : nat)
  | ErrorSubtitle (html : string).

(** A [div] appended to the body; [loading] is the class of that name.
    [SwitchAccountButton content] is the button whose click handler is
    [switchAccount content] below. *)
Record Element := { handle : nat; loading : bool; parts : list Part }.

Record Location := { protocol : string; hostname : string; port : string }.

(** The request parameters, as the query-string parser hands them over. *)
Record Query := { sheetId : string; sheetName : option string }.

Record Browser := {
  documentTitle : string;
  body : list Element;
  nextId : nat;
  innerHeight : Z;
  location : Location;
  query : Query;
  currentUser : string;
  loginPrompts : list bool;
  plotted : list (Z * Radar.t);
  consoleErrors : list Exception }.

Definition withTitle (title : string) (b : Browser) : Browser :=
  {| documentTitle := title; body := body b; nextId := nextId b;
     innerHeight := innerHeight b; location := location b; query := query b;
     currentUser := currentUser b; loginPrompts := loginPrompts b;
     plotted := plotted b; consoleErrors := consoleErrors b |}.

Definition withBody (f : list Element → list Element) (b : Browser) : Browser :=
  {| documentTitle := documentTitle b; body := f (body b);
     nextId := nextId b; innerHeight := innerHeight b;
     location := location b; query := query b; currentUser := currentUser b;
     loginPrompts := loginPrompts b; plotted := plotted b;
     consoleErrors := consoleErrors b |}.

Definition withNextId (n : nat) (b : Browser) : Browser :=
  {| documentTitle := documentTitle b; body := body b; nextId := n;
     innerHeight := innerHeight b; location := location b; query := query b;
     currentUser := currentUser b; loginPrompts := loginPrompts b;
     plotted := plotted b; consoleErrors := consoleErrors b |}.

Definition withLoginPrompt (force : bool) (b : Browser) : Browser :=
  {| documentTitle := documentTitle b; body := body b; nextId := nextId b;
     innerHeight := innerHeight b; location := location b; query := query b;
     currentUser := currentUser b;
     loginPrompts := loginPrompts b ++ [force]; plotted := plotted b;
     consoleErrors := consoleErrors b |}.

Definition withPlot (size : Z) (radar : Radar.t) (b : Browser) : Browser :=
  {| documentTitle := documentTitle b; body := body b; nextId := nextId b;
     innerHeight := innerHeight b; location := location b; query := query b;
     currentUser := currentUser b; loginPrompts := loginPrompts b;
     plotted := plotted b ++ [(size, radar)];
     consoleErrors := consoleErrors b |}.

Definition withConsoleError (e : Exception) (b : Browser) : Browser :=
  {| documentTitle := documentTitle b; body := body b; nextId := nextId b;
     innerHeight := innerHeight b; location := location b; query := query b;
     currentUser := currentUser b; loginPrompts := loginPrompts b;
     plotted := plotted b; consoleErrors := consoleErrors b ++ [e] |}.

(** *** Computations over the page that may throw *)

Definition M (A : Type) : Type := Browser → Result A * Browser.

Definition ret {A} (x : A) : M A := λ b, (inr x, b).

Definition bind {A B} (m : M A) (k : A → M B) : M B :=
  λ b, match m b with
       | (inl e, b') => (inl e, b')
       | (inr x, b') => k x b'
       end.

Definition throw {A} (e : Exception) : M A := λ b, (inl e, b).

Definition lift {A} (r : Result A) : M A := λ b, (r, b).

Definition gets {A} (f : Browser → A) : M A := λ b, (inr (f b), b).

Definition modify (f : Browser → Browser) : M unit := λ b, (inr tt, f b).

(** [try { body } catch (exception) { handler(exception) }] *)
Definition tryCatch {A} (body : M A) (handler : Exception → M A) : M A :=
  λ b, match body b with
       | (inl e, b') => handler e b'
       | (inr x, b') => (inr x, b')
       end.

Declare Scope js_scope.
Delimit Scope js_scope with js.
Notation "x <- c ;; k" := (bind c (λ x, k))
  (at level 100, c at next level, right associativity) : js_scope.
Notation "c ;; k" := (bind c (λ _, k))
  (at level 100, right associativity) : js_scope.
Bind Scope js_scope with M.
Local Open Scope js_scope.

(** [d3.select('body').append('div')]: a new, empty element at the end
    of the body; the result is its handle. *)
Definition appendElement (isLoading : bool) : M nat :=
  λ b, (inr (nextId b),
        withNextId (S (nextId b))
          (withBody (λ l, l ++ [Build_Element (nextId b) isLoading []]) b)).

(** [content.append(...)]: one more part inside the element. *)
Definition appendPart (content : nat) (part : Part) : M unit :=
  modify (withBody (fmap (λ e,
    if bool_decide (handle e = content)
    then Build_Element (handle e) (loading e) (parts e ++ [part]) else e))).

(** [content.remove()] *)
Definition removeElement (content : nat) : M unit :=
  modify (withBody (filter (λ e, handle e ≠ content))).

(** [d3.selectAll('.loading').remove()] *)
Definition removeLoading : M unit :=
  modify (withBody (filter (λ e, loading e = false))).

(** [undefined] and the empty string are falsy; [undefined] prints as
    its name when it is concatenated to a string. *)
Definition falsy (v : option string) : bool :=
  match v with
  | None => true
  | Some s => bool_decide (s = "")
  end.

Definition toString (v : option string) : string := default "undefined" v.

(** ** The sources' answers *)

(** What Tabletop hands to its callback. *)
Record TabletopSheet := {
  columnNames : list string;
  all : list (gmap string string) }.

Record Tabletop := {
  googleSheetName : string;
  foundSheetNames : list string;
  sheets : option string → option TabletopSheet }.

(** What [d3.csv] hands to its callback: the rows and their [columns]. *)
Record CsvData := {
  columns : list string;
  rows : list (gmap string string) }.

(** What the protected sheet answers: the document, or a rejection. *)
Inductive SheetResponse :=
  | Fetched (documentTitle : string) (values : list (list string))
      (sheetNames : list string)
  | Failed (error : Exception).

(** ** src/util/factory.js *)

Section Factory.

(** [ExceptionMessages.TOO_MANY_RINGS]; util/exceptionMessages.js is not
    among the sources, so the text is a parameter. *)
Variable TOO_MANY_RINGS : string.

(** [ContentValidator]; util/contentValidator.js is not among the
    sources, so what [verifyContent] and [verifyHeaders] answer for a
    validator built on these column names is a parameter. *)
Variables verifyContent verifyHeaders : list string → Result unit.

Definition maxRings : nat := 4.

(** The callback of [_.each(rings, ...)]; its closure holds [ringMap]. *)
Definition addRing (ringName : string) (i : nat) (ringMap : JsObject.t Ring.t)
    : Result (JsObject.t Ring.t) :=
  if bool_decide (i = maxRings) then inl (MalformedDataError TOO_MANY_RINGS)
  else inr (JsObject.set ringMap ringName (Ring.new ringName i)).

(** [new Blip(blip.name, ringMap[blip.ring],
    blip.isNew.toLowerCase() === 'true', blip.topic, blip.description)] *)
Definition newBlip (ringMap : JsObject.t Ring.t) (blip : Sanitized.t) : Blip.t :=
  Blip.new (Sanitized.name blip)
    (JsObject.get ringMap (Sanitized.ring blip))
    (bool_decide (Js.toLowerCase (Sanitized.isNew blip) = "true"))
    (Sanitized.topic blip)
    (Sanitized.description blip).

(** The callback of [_.each(blips, ...)]; its closure holds [quadrants].
    A quadrant is made when the read [quadrants[blip.quadrant]] is falsy;
    [add] is then called on what the same read yields, which throws a
    TypeError unless that is a quadrant. *)
Definition addBlip (ringMap : JsObject.t Ring.t) (blip : Sanitized.t) (i : nat)
    (quadrants : JsObject.t Quadrant.t) : Result (JsObject.t Quadrant.t) :=
  let key := Sanitized.quadrant blip in
  let quadrants :=
    if negb (JsObject.truthy (JsObject.get quadrants key))
    then JsObject.set quadrants key (Quadrant.new (Lodash.capitalize key))
    else quadrants in
  match JsObject.get quadrants key with
  | Found quadrant =>
      inr (JsObject.set quadrants key (Quadrant.add quadrant (newBlip ringMap blip)))
  | _ => inl TypeError
  end.

Definition plotRadar (title : string) (blips : list Sanitized.t)
    (currentRadarName : option string) (alternativeRadars : list string) : M unit :=
  let title :=
    if Js.endsWith title ".csv"
    then Js.substring title 0 (String.length title - 4)
    else title in
  modify (withTitle title) ;;
  removeLoading ;;
  let rings := Lodash.map (Lodash.uniqBy blips Sanitized.ring) Sanitized.ring in
  ringMap <- lift (Lodash.each rings addRing JsObject.empty) ;;
  quadrants <- lift (Lodash.each blips (addBlip ringMap) JsObject.empty) ;;
  let radar := foldl Radar.addQuadrant Radar.new (JsObject.values quadrants) in
  let radar := foldl Radar.addAlternative radar alternativeRadars in
  let radar := Radar.setCurrentSheet radar currentRadarName in
  size <- gets (λ b, if (innerHeight b - 133 <? 620)%Z then 620%Z
                     else (innerHeight b - 133)%Z) ;;
  modify (withPlot size radar).

Definition setDocumentTitle : M unit :=
  modify (withTitle "Gestalte unsere Zukunft").

Definition plotLogo (content : nat) : M unit := appendPart content Logo.
Definition plotFooter (content : nat) : M unit := appendPart content Footer.
Definition plotBanner (content : nat) (banner : Banner) : M unit :=
  appendPart content (BannerPart banner).

Definition plotLoading : M unit :=
  content <- appendElement true ;;
  setDocumentTitle ;;
  plotLogo content ;;
  plotBanner content LoadingBanner ;;
  plotFooter content.

Definition homePageURL (l : Location) : string :=
  (protocol l +:+ "//" +:+ hostname l)
  +:+ (if bool_decide (port l = "") then "" else ":" +:+ port l).

Definition notFoundMessage : string :=
  "Mist. Leider konnten wir Deine Google Tabellen Daten nicht finden. ".

(** The error classifier: the message shown depends on the class of the
    exception; one of neither class goes to the console. *)
Definition plotErrorMessage (exception : Exception) : M unit :=
  content <- appendElement false ;;
  setDocumentTitle ;;
  plotLogo content ;;
  plotBanner content ReadFirstBanner ;;
  removeLoading ;;
  message <-
    match exception with
    | MalformedDataError m => ret (notFoundMessage +:+ m)
    | SheetNotFoundError m => ret m
    | _ => modify (withConsoleError exception) ;; ret notFoundMessage
    end ;;
  appendPart content (ErrorMessage message) ;;
  appendPart content FaqMessage ;;
  l <- gets location ;;
  appendPart content (HomePageLink ("<a href=" +:+ homePageURL l +:+ ">GO BACK</a>")) ;;
  plotFooter content.

Definition unauthorizedMessage (user : string) : string :=
  "<strong>Mist!</strong> Sieht so aus als ob Du auf diese Tabelle als Benutzer <b>"
  +:+ user
  +:+ "</b>, zugreifst, der keine Zugriffsrechte hat. Versuche bitte einen anderen Benutzerzugang.".

Definition plotUnauthorizedErrorMessage : M unit :=
  content <- appendElement false ;;
  setDocumentTitle ;;
  plotLogo content ;;
  plotBanner content TitleBanner ;;
  removeLoading ;;
  user <- gets currentUser ;;
  l <- gets location ;;
  let goBack := "<a href=" +:+ homePageURL l +:+ ">Geh zurück...</a>" in
  appendPart content (ErrorTitle (unauthorizedMessage user)) ;;
  appendPart content (SwitchAccountButton content) ;;
  appendPart content
    (ErrorSubtitle ("or " +:+ goBack +:+ " to try a different sheet.")).

(** [GoogleSheet(sheetReference, sheetName).build]'s [createBlips], the
    callback of the public sheet: its [try] block, then the whole. *)
Definition GoogleSheet_createBlips_try (sheetName : option string)
    (tabletop : Tabletop) : M unit :=
  let sheetName :=
    if falsy sheetName then foundSheetNames tabletop !! 0 else sheetName in
  sheet <- match sheets tabletop sheetName with
           | Some sheet => ret sheet
           | None => throw TypeError
           end ;;
  let columnNames := columnNames sheet in
  lift (verifyContent columnNames) ;;
  lift (verifyHeaders columnNames) ;;
  let blips := Lodash.map (all sheet) InputSanitizer.sanitize in
  plotRadar (googleSheetName tabletop +:+ " - " +:+ toString sheetName)
    blips sheetName (foundSheetNames tabletop).

Definition GoogleSheet_createBlips (sheetName : option string)
    (tabletop : Tabletop) : M unit :=
  tryCatch (GoogleSheet_createBlips_try sheetName tabletop) plotErrorMessage.

(** [createBlipsForProtectedSheet]: the validator is built on the header
    row once for every row of [values]; [all.shift()] then takes the
    header off. *)
Definition createBlipsForProtectedSheet (sheetName : option string)
    (documentTitle : string) (values : list (list string))
    (sheetNames : list string) : M unit :=
  let sheetName := if falsy sheetName then sheetNames !! 0 else sheetName in
  lift (Lodash.each values
          (λ value i u,
             match values with
             | columnNames :: _ =>
                 match verifyContent columnNames with
                 | inl e => inl e
                 | inr _ => verifyHeaders columnNames
                 end
             | [] => inr u
             end) tt) ;;
  let blips :=
    match values with
    | header :: all =>
        Lodash.map all (λ blip, InputSanitizer.sanitizeForProtectedSheet blip header)
    | [] => []
    end in
  plotRadar (documentTitle +:+ " - " +:+ toString sheetName) blips sheetName sheetNames.

(** Modelled from the spec: [Sheet.processSheetResponse] (util/sheet.js
    is not among the sources).  The fetched document is handed to
    [createBlips]; a failure of the source, and a failure raised while
    [createBlips] runs, reach [handleError] as they are. *)
Definition processSheetResponse (response : SheetResponse)
    (createBlips : string → list (list string) → list string → M unit)
    (handleError : Exception → M unit) : M unit :=
  match response with
  | Fetched documentTitle values sheetNames =>
      tryCatch (createBlips documentTitle values sheetNames) handleError
  | Failed error => handleError error
  end.

(** Modelled from the spec: [GoogleAuth.login(callback, force)]
    (util/googleAuth.js is not among the sources): the sign-in, with the
    account chooser when [force] is set, after which the callback runs. *)
Definition login (force : bool) : M unit := modify (withLoginPrompt force).

(** The error handler [authenticate] gives to the sheet request. *)
Definition handleSheetError (error : Exception) : M unit :=
  if bool_decide (status error = Some 403%Z)
  then plotUnauthorizedErrorMessage
  else plotErrorMessage error.

(** [self.authenticate(force, callback)].  The sheet request is answered
    in a later turn, so [callback], called right after the request is
    issued, runs before the answer is handled. *)
Definition authenticate (sheetName : option string) (force : bool)
    (callback : option (M unit)) (response : SheetResponse) : M unit :=
  login force ;;
  match callback with
  | Some run => run
  | None => ret tt
  end ;;
  processSheetResponse response (createBlipsForProtectedSheet sheetName)
    handleSheetError.

(** The click handler of the switch-account button. *)
Definition switchAccount (content : nat) (response : SheetResponse) : M unit :=
  queryParams <- gets query ;;
  authenticate (sheetName queryParams) true (Some (removeElement content)) response.

Definition FileName (url : string) : Result string :=
  match Js.decodeURIComponent (Js.replacePlus url) with
  | None => inl URIError
  | Some decoded =>
      match Js.execLastSegment (Js.chars decoded) with
      | Some segment => inr (Js.str segment)
      | None => inr url
      end
  end.

(** [CSVDocument(url).build]'s [createBlips], the callback of [d3.csv]:
    its [try] block, then the whole. *)
Definition CSVDocument_createBlips_try (url : string) (data : CsvData) : M unit :=
  let columnNames := columns data in
  lift (verifyContent columnNames) ;;
  lift (verifyHeaders columnNames) ;;
  let blips := Lodash.map (rows data) InputSanitizer.sanitize in
  title <- lift (FileName url) ;;
  plotRadar title blips (Some "CSV File") [].

Definition CSVDocument_createBlips (url : string) (data : CsvData) : M unit :=
  tryCatch (CSVDocument_createBlips_try url data) plotErrorMessage.

End Factory.

Arguments plotRadar : simpl never.
Arguments plotErrorMessage : simpl never.
Arguments plotUnauthorizedErrorMessage : simpl never.
Arguments InputSanitizer.sanitize : simpl never.

(** ** What the claims speak of *)

(** The number of distinct ring names of a row set. *)
Definition ringCount (blips : list Sanitized.t) : nat :=
  size (list_to_set (Sanitized.ring <$> blips) : gset string).

(** The 0-based index of the first row whose ring cell carries [r]. *)
Definition firstRow (blips : list Sanitized.t) (r : string) : option nat :=
  fst <$> list_find (λ row, Sanitized.ring row = r) blips.

(** The number of distinct ring names on the rows before row [j]. *)
Definition ringsBefore (blips : list Sanitized.t) (j : nat) : nat :=
  ringCount (take j blips).

(** A text of ASCII characters only: every octet is below 128. *)
Definition isAscii (s : string) : bool :=
  forallb (λ c, (Js.code c <? 128)%N) (Js.chars s).

(** No quadrant cell names a member of [Object.prototype]. *)
Definition ownQuadrants (blips : list Sanitized.t) : bool :=
  forallb (λ row, negb (JsObject.inherited (Sanitized.quadrant row))) blips.

(** The rows of a quadrant cell, in input order. *)
Definition rowsOf (blips : list Sanitized.t) (key : string) : list Sanitized.t :=
  filter (λ row, Sanitized.quadrant row = key) blips.

(** The entries the renderer was handed, quadrant by quadrant. *)
Definition entries (radar : Radar.t) : list Blip.t :=
  Radar.quadrants radar ≫= Quadrant.blips.

(** The error messages on the page. *)
Definition messagesOf (e : Element) : list string :=
  parts e ≫= λ part, match part with ErrorMessage html => [html] | _ => [] end.

Definition shownMessages (b : Browser) : list string := body b ≫= messagesOf.

(** The title as the spec derives it for a CSV source: the final path
    segment after the last slash, percent- and plus-decoded, without a
    trailing [.csv]. *)
Fixpoint afterLastSlash (l : list ascii) : list ascii :=
  match l with
  | [] => []
  | c :: rest =>
      if bool_decide ("/"%char ∈ rest) then afterLastSlash rest
      else if bool_decide (c = "/"%char) then rest else l
  end.

Definition titleBySpec (url : string) : option string :=
  segment ← Js.decodeURIComponent (Js.replacePlus (Js.str (afterLastSlash (Js.chars url))));
  Some (if Js.endsWith segment ".csv"
        then Js.substring segment 0 (String.length segment - 4)
        else segment).


(** The rings of [plotRadar] are the distinct ring names. *)
Definition ringsOf (blips : list Sanitized.t) : list string :=
  Lodash.map (Lodash.uniqBy blips Sanitized.ring) Sanitized.ring.

(** An object that holds [g k] under each key [k] of a list. *)
Definition tabulate {V} (g : string → V) (ks : list string) : JsObject.t V :=
  (λ k, (k, g k)) <$> ks.

(** The ring map after the rings from index [i] on have been added. *)
Fixpoint ringMapFrom (i : nat) (rings : list string) (ringMap : JsObject.t Ring.t)
    : JsObject.t Ring.t :=
  match rings with
  | [] => ringMap
  | r :: rest => ringMapFrom (S i) rest (JsObject.set ringMap r (Ring.new r i))
  end.

(** The distinct quadrant cells, in the order of their first row. *)
Definition quadrantKeys (blips : list Sanitized.t) : list string :=
  Lodash.uniqBy (Sanitized.quadrant <$> blips) id.

(** The quadrant of a cell: its capitalized name, and the entries of its
    rows in input order. *)
Definition quadrantOf (ringMap : JsObject.t Ring.t) (blips : list Sanitized.t)
    (key : string) : Quadrant.t :=
  Quadrant.make (Lodash.capitalize key) (newBlip ringMap <$> rowsOf blips key).

(** The title [plotRadar] shows, the page after its first two
    statements, the size of the canvas and the ring map of a row set. *)
Definition titleShown (title : string) : string :=
  if Js.endsWith title ".csv"
  then Js.substring title 0 (String.length title - 4)
  else title.

Definition titled (title : string) (b : Browser) : Browser :=
  withBody (filter (λ e, loading e = false)) (withTitle (titleShown title) b).

Definition canvasSize (b : Browser) : Z := Z.max 620 (innerHeight b - 133).

Definition ringMapOf (blips : list Sanitized.t) : JsObject.t Ring.t :=
  ringMapFrom 0 (ringsOf blips) JsObject.empty.

(** A keyed row and a value row under a header present the same logical
    row: the cell of every header column is the value at the column's
    position, and the keyed row has no other column. *)
Definition sameLogicalRow (header : list string) (rawBlip : gmap string string)
    (values : list string) : Prop :=
  length header = length values
  ∧ (∀ i column, header !! i = Some column → rawBlip !! column = values !! i)
  ∧ (∀ column, column ∉ header → rawBlip !! column = None).

(** The message the error page shows for an exception, and the page's
    parts. *)
Definition messageFor (exception : Exception) : string :=
  match exception with
  | MalformedDataError m => notFoundMessage +:+ m
  | SheetNotFoundError m => m
  | _ => notFoundMessage
  end.

Definition errorPage (exception : Exception) (b : Browser) : Element :=
  Build_Element (nextId b) false
    [ Logo; BannerPart ReadFirstBanner; ErrorMessage (messageFor exception);
      FaqMessage;
      HomePageLink ("<a href=" +:+ homePageURL (location b) +:+ ">GO BACK</a>");
      Footer ].

Definition unauthorizedPage (b : Browser) : Element :=
  Build_Element (nextId b) false
    [ Logo; BannerPart TitleBanner;
      ErrorTitle (unauthorizedMessage (currentUser b));
      SwitchAccountButton (nextId b);
      ErrorSubtitle ("or " +:+ ("<a href=" +:+ homePageURL (location b) +:+ ">Geh zurück...</a>")
                     +:+ " to try a different sheet.") ].

(** ** The input page: the regular expressions, [DomainName] and [build] *)

Module RegExp.

(** [.] matches every character but a line terminator: LF, CR, U+2028
    and U+2029, the last two being the octets E2 80 A8 and E2 80 A9.
    [lineTerminator l] is the number of octets of the line terminator at
    the head of [l], and 0 when there is none there. *)
Definition lineTerminator (l : list ascii) : nat :=
  match l with
  | c :: rest =>
      if bool_decide (Js.code c = 10%N) || bool_decide (Js.code c = 13%N) then 1
      else
        match rest with
        | c1 :: c2 :: _ =>
            if bool_decide (Js.code c = 226%N) && bool_decide (Js.code c1 = 128%N)
               && (bool_decide (Js.code c2 = 168%N) || bool_decide (Js.code c2 = 169%N))
            then 3 else 0
        | _ => 0
        end
  | [] => 0
  end.

(** A literal at the head of the input: what follows it. *)
Fixpoint stripPrefix (literal l : list ascii) : option (list ascii) :=
  match literal, l with
  | [], _ => Some l
  | c :: literal', d :: l' =>
      if bool_decide (c = d) then stripPrefix literal' l' else None
  | _ :: _, [] => None
  end.

(** [[^\\/]+] is greedy: the longest run of characters of the class. *)
Fixpoint segment (l : list ascii) : list ascii :=
  match l with
  | c :: rest => if Js.segmentChar c then c :: segment rest else []
  | [] => []
  end.

(** [:\/\/([^\\/]+)] at the head of the input: the capture. *)
Definition hostAt (l : list ascii) : option (list ascii) :=
  match stripPrefix (Js.chars "://") l with
  | Some rest =>
      match segment rest with
      | [] => None
      | host => Some host
      end
  | None => None
  end.

(** The rest of [/.+:\/\/([^\\/]+)/] once [.+] has taken at least one
    character and stands at the head of [l].  [.+] is greedy: it first
    takes one more character, if that is no line terminator, and gives
    it back when the rest of the pattern does not match behind it. *)
Fixpoint afterDots (l : list ascii) : option (list ascii) :=
  match l with
  | [] => None
  | _ :: rest =>
      match (match lineTerminator l with 0 => afterDots rest | S _ => None end) with
      | Some host => Some host
      | None => hostAt l
      end
  end.

(** [/.+:\/\/([^\\/]+)/.exec]: the leftmost start that matches wins, and
    [.+] must take the character at the start.  [skip] counts the octets
    left of a line terminator of three octets, which hold no start.  (A
    start on a later octet of another character is tried after the start
    on its first octet and reaches the same [://], so it decides
    nothing.) *)
Fixpoint execDomainFrom (skip : nat) (l : list ascii) : option (list ascii) :=
  match l with
  | [] => None
  | _ :: rest =>
      match skip with
      | S n => execDomainFrom n rest
      | 0 =>
          match lineTerminator l with
          | S n => execDomainFrom n rest
          | 0 =>
              match afterDots rest with
              | Some host => Some host
              | None => execDomainFrom 0 rest
              end
          end
      end
  end.

Definition execDomain (l : list ascii) : option (list ascii) := execDomainFrom 0 l.

(** The group of [.*]: the characters up to the next line terminator. *)
Fixpoint line (l : list ascii) : list ascii :=
  match l with
  | c :: rest =>
      match lineTerminator l with
      | 0 => c :: line rest
      | S _ => []
      end
  | [] => []
  end.

(** The expression of [sheetId] and the group of [.*], as
    [String.prototype.match] uses it: the whole match, at the leftmost
    place where the literal stands. *)
Fixpoint execSheetId (l : list ascii) : option (list ascii) :=
  match stripPrefix (Js.chars "sheetId") l with
  | Some rest => Some (Js.chars "sheetId" ++ line rest)
  | None =>
      match l with
      | [] => None
      | _ :: rest => execSheetId rest
      end
  end.

End RegExp.

(** [DomainName(url)]: [null] when the expression does not match; the
    URIError of [decodeURIComponent] is thrown on. *)
Definition DomainName (url : string) : Result (option string) :=
  match Js.decodeURIComponent (Js.replacePlus url) with
  | None => inl URIError
  | Some decoded => inr (Js.str <$> RegExp.execDomain (Js.chars decoded))
  end.

(** The object of the request parameters as far as [build] reads it:
    [sheetId] and [sheetName], each a string or undefined.  The empty
    object has neither. *)
Module Params.
Record t := make { sheetId : option string; sheetName : option string }.
Definition empty : t := make None None.
End Params.

(** What a [build] has asked for when it returns; the answer comes in a
    later turn: [d3.csv(url, createBlips)], or the validation of the
    sheet that [GoogleSheet(sheetReference, sheetName).build] starts. *)
Inductive Request :=
  | CsvRequest (url : string)
  | SheetRequest (sheetReference : string) (sheetName : option string).

Section FactoryInput.

Variable TOO_MANY_RINGS : string.
Variables verifyContent verifyHeaders : list string → Result unit.

(** [QueryParams]; util/queryParamProcessor.js is not among the sources,
    so what the parser makes of the matched part of the address is a
    parameter. *)
Variable QueryParams : string → Params.t.

(** The last branch of [GoogleSheetInput().build] draws the input form
    ([plotForm] and a banner of its own); that markup is not among the
    parts of the page modelled here, so what the drawing does to the page
    is a parameter. *)
Variable plotInputForm : M unit.

(** [self.init] of both sources: the loading page. *)
Definition GoogleSheet_init : M unit := plotLoading.
Definition CSVDocument_init : M unit := plotLoading.

(** [GoogleSheet(sheetReference, sheetName).build]: the callback given to
    [sheet.validate], for the [error] the validation hands over (none
    when the sheet is public), and for what Tabletop and the protected
    sheet answer afterwards. *)
Definition GoogleSheet_build (sheetName : option string) (error : option Exception)
    (tabletop : Tabletop) (response : SheetResponse) : M unit :=
  match error with
  | None => GoogleSheet_createBlips TOO_MANY_RINGS verifyContent verifyHeaders sheetName tabletop
  | Some (SheetNotFoundError message) => plotErrorMessage (SheetNotFoundError message)
  | Some _ =>
      authenticate TOO_MANY_RINGS verifyContent verifyHeaders sheetName false None response
  end.

(** [GoogleSheetInput().build], for [window.location.search] and
    [window.location.href].  When no domain name is found both tests
    fail without a look at the parameters; with a domain name, the call
    [queryParams.sheetId.endsWith] throws a TypeError when [sheetId] is
    undefined, as it is on the empty object.
    ([console.log(queryParams.sheetName)] writes to the log of the
    console, which is no part of the page.) *)
Definition GoogleSheetInput_build (search href : string) : M (option Request) :=
  domainName <- lift (DomainName (Js.substring search 1 (String.length search))) ;;
  let queryString := RegExp.execSheetId (Js.chars href) in
  let queryParams :=
    match queryString with
    | Some matched => QueryParams (Js.str matched)
    | None => Params.empty
    end in
  if falsy domainName then plotInputForm ;; ret None
  else
    match Params.sheetId queryParams with
    | None => throw TypeError
    | Some sheetId =>
        if Js.endsWith sheetId "csv" then
          CSVDocument_init ;; ret (Some (CsvRequest sheetId))
        else if Js.endsWith (default "" domainName) "google.com"
                && negb (bool_decide (sheetId = "")) then
          GoogleSheet_init ;;
          ret (Some (SheetRequest sheetId (Params.sheetName queryParams)))
        else plotInputForm ;; ret None
    end.

End FactoryInput.

Arguments GoogleSheetInput_build : simpl never.

(** ** What the further properties speak of *)

(** No line terminator anywhere in a text. *)
Fixpoint singleLine (l : list ascii) : bool :=
  match l with
  | [] => true
  | _ :: rest => bool_decide (RegExp.lineTerminator l = 0) && singleLine rest
  end.

(** [s.includes(part)]: [part] stands somewhere in [s]. *)
Fixpoint occursIn (part l : list ascii) : bool :=
  match RegExp.stripPrefix part l with
  | Some _ => true
  | None =>
      match l with
      | [] => false
      | _ :: rest => occursIn part rest
      end
  end.

Definition includes (s part : string) : bool := occursIn (Js.chars part) (Js.chars s).

(** A place where [://] is followed by a character other than a slash
    and a backslash. *)
Definition hostStart (l : list ascii) : Prop :=
  ∃ c rest, l = Js.chars "://" ++ c :: rest ∧ Js.segmentChar c = true.

(** The handles of the elements on the page are below the next handle. *)
Definition wellFormed (b : Browser) : Prop :=
  Forall (λ e, handle e < nextId b) (body b).

(** The element [plotLoading] appends. *)
Definition loadingPage (b : Browser) : Element :=
  Build_Element (nextId b) true [ Logo; BannerPart LoadingBanner; Footer ].



(** The page after [plotLoading], after [plotErrorMessage] and after
    [plotUnauthorizedErrorMessage], when the handles on it are below the
    next handle. *)
Definition afterLoading (b : Browser) : Browser :=
  {| documentTitle := "Gestalte unsere Zukunft";
     body := body b ++ [loadingPage b];
     nextId := S (nextId b); innerHeight := innerHeight b;
     location := location b; query := query b; currentUser := currentUser b;
     loginPrompts := loginPrompts b; plotted := plotted b;
     consoleErrors := consoleErrors b |}.

Definition afterError (exception : Exception) (b : Browser) : Browser :=
  {| documentTitle := "Gestalte unsere Zukunft";
     body := filter (λ e, loading e = false) (body b) ++ [errorPage exception b];
     nextId := S (nextId b); innerHeight := innerHeight b;
     location := location b; query := query b; currentUser := currentUser b;
     loginPrompts := loginPrompts b; plotted := plotted b;
     consoleErrors :=
       consoleErrors b
       ++ match exception with
          | MalformedDataError _ | SheetNotFoundError _ => []
          | _ => [exception]
          end |}.

Definition afterUnauthorized (b : Browser) : Browser :=
  {| documentTitle := "Gestalte unsere Zukunft";
     body := filter (λ e, loading e = false) (body b) ++ [unauthorizedPage b];
     nextId := S (nextId b); innerHeight := innerHeight b;
     location := location b; query := query b; currentUser := currentUser b;
     loginPrompts := loginPrompts b; plotted := plotted b;
     consoleErrors := consoleErrors b |}.

(** A computation that ends like [plotRadar]: when it throws, the page is
    as it was, or titled and without its loading elements; when it
    returns, one radar has been handed to the renderer on top of that. *)
Definition Assembly (try : M unit) : Prop :=
  ∀ b, match try b with
       | (inl e, b') => b' = b ∨ ∃ title, b' = titled title b
       | (inr _, b') =>
           ∃ title radar, b' = withPlot (canvasSize b) radar (titled title b)
       end.

(** A page [b'] that differs from [b] at most in its title and in that
    its loading elements are gone. *)
Definition Kept (b b' : Browser) : Prop :=
  filter (λ e, loading e = false) (body b') = filter (λ e, loading e = false) (body b)
  ∧ nextId b' = nextId b ∧ innerHeight b' = innerHeight b
  ∧ location b' = location b ∧ currentUser b' = currentUser b
  ∧ plotted b' = plotted b ∧ loginPrompts b' = loginPrompts b
  ∧ consoleErrors b' = consoleErrors b.

(** The two ways a load that was answered on the page [b] leaves the
    page: one radar was handed to the renderer, the loading elements are
    gone and nothing else has happened to the page or to the console; or
    no radar was handed over, the loading elements are gone, one [page]
    was appended and the title is the fixed one. *)
Definition Plotted (b b' : Browser) : Prop :=
  ∃ radar,
    body b' = filter (λ e, loading e = false) (body b)
    ∧ plotted b' = plotted b ++ [(canvasSize b, radar)]
    ∧ consoleErrors b' = consoleErrors b.

Definition Reported (page : Element) (b b' : Browser) : Prop :=
  body b' = filter (λ e, loading e = false) (body b) ++ [page]
  ∧ plotted b' = plotted b
  ∧ documentTitle b' = "Gestalte unsere Zukunft".


(** * Facts *)

(** *** Facts about strings *)

Lemma str_chars (s : string) : Js.str (Js.chars s) = s.
Proof. apply string_of_list_ascii_of_string. Qed.

Lemma chars_str (l : list ascii) : Js.chars (Js.str l) = l.
Proof. apply list_ascii_of_string_of_list_ascii. Qed.

Lemma chars_app (s t : string) : Js.chars (s +:+ t) = Js.chars s ++ Js.chars t.
Proof. induction s as [|c s IH]; simpl; [done|]. unfold Js.chars in *. simpl. by rewrite IH. Qed.

Lemma chars_length (s : string) : length (Js.chars s) = String.length s.
Proof. induction s as [|c s IH]; simpl; [done|]. unfold Js.chars in *. simpl. by rewrite IH. Qed.

Lemma chars_inj (s t : string) : Js.chars s = Js.chars t → s = t.
Proof. intros H. rewrite <- (str_chars s), <- (str_chars t). by rewrite H. Qed.

Lemma str_app (l k : list ascii) : Js.str (l ++ k) = Js.str l +:+ Js.str k.
Proof. apply chars_inj. by rewrite chars_app, !chars_str. Qed.

Lemma string_app_assoc (s t u : string) : (s +:+ t) +:+ u = s +:+ (t +:+ u).
Proof. apply chars_inj. by rewrite !chars_app, app_assoc. Qed.

Lemma endsWith_spec (s suffix : string) :
  Js.endsWith s suffix = true ↔ ∃ p, s = p +:+ suffix.
Proof.
  unfold Js.endsWith, Js.substring. rewrite <- !chars_length.
  split.
  - destruct (Nat.ltb_spec (length (Js.chars s)) (length (Js.chars suffix))) as [|Hle]; [done|].
    intros Heq%bool_decide_eq_true.
    set (n := length (Js.chars s)) in *. set (k := length (Js.chars suffix)) in *.
    exists (Js.str (take (n - k) (Js.chars s))).
    rewrite <- Heq. rewrite <- str_app.
    rewrite (take_ge (drop _ _)) by (rewrite length_drop; lia).
    by rewrite take_drop, str_chars.
  - intros [p ->]. rewrite chars_app, length_app.
    destruct (Nat.ltb_spec (length (Js.chars p) + length (Js.chars suffix))
                (length (Js.chars suffix))) as [|Hle]; [lia|].
    apply bool_decide_eq_true.
    replace (length (Js.chars p) + length (Js.chars suffix) - length (Js.chars suffix))
      with (length (Js.chars p)) by lia.
    rewrite drop_app_length.
    rewrite take_ge by lia. apply str_chars.
Qed.

Lemma substring_prefix (p t : string) :
  Js.substring (p +:+ t) 0 (String.length (p +:+ t) - String.length t) = p.
Proof.
  unfold Js.substring. rewrite <- !chars_length, chars_app, length_app.
  rewrite drop_0, Nat.sub_0_r.
  replace (length (Js.chars p) + length (Js.chars t) - length (Js.chars t))
    with (length (Js.chars p)) by lia.
  by rewrite take_app_length, str_chars.
Qed.

(** *** Letter case *)

Lemma code_bounded (c : ascii) : (Js.code c < 256)%N.
Proof. apply N_ascii_bounded. Qed.

Lemma code_of_N (n : N) : (n < 256)%N → Js.code (ascii_of_N n) = n.
Proof. apply N_ascii_embedding. Qed.

Lemma of_N_code (c : ascii) : ascii_of_N (Js.code c) = c.
Proof. apply ascii_N_embedding. Qed.

Lemma code_inj (c d : ascii) : Js.code c = Js.code d → c = d.
Proof. intros H. by rewrite <- (of_N_code c), <- (of_N_code d), H. Qed.

Ltac case_codes :=
  repeat match goal with
    | |- context [(?a <=? ?b)%N] => destruct (N.leb_spec a b)
    | |- context [(?a <? ?b)%N] => destruct (N.ltb_spec a b)
    | |- context [(?a =? ?b)%N] => destruct (N.eqb_spec a b)
    | H : context [(?a <=? ?b)%N] |- _ => destruct (N.leb_spec a b)
    | H : context [(?a <? ?b)%N] |- _ => destruct (N.ltb_spec a b)
    | H : context [(?a =? ?b)%N] |- _ => destruct (N.eqb_spec a b)
    end; simpl in *.

Lemma code_lowerChar (c : ascii) :
  Js.code (Js.lowerChar c) = if Js.isUpper c then (Js.code c + 32)%N else Js.code c.
Proof.
  unfold Js.lowerChar. destruct (Js.isUpper c) eqn:Hu; [|done].
  apply code_of_N. unfold Js.isUpper in Hu. case_codes; try done; lia.
Qed.

Lemma code_upperChar (c : ascii) :
  Js.code (Js.upperChar c) = if Js.isLower c then (Js.code c - 32)%N else Js.code c.
Proof.
  unfold Js.upperChar. destruct (Js.isLower c) eqn:Hl; [|done].
  apply code_of_N. pose proof (code_bounded c). lia.
Qed.

Lemma upper_lowerChar (c : ascii) : Js.upperChar (Js.lowerChar c) = Js.upperChar c.
Proof.
  apply code_inj. rewrite !code_upperChar.
  unfold Js.isLower. rewrite code_lowerChar. unfold Js.isUpper.
  case_codes; lia.
Qed.

Lemma lowerChar_eq_iff (c d : ascii) :
  Js.lowerChar c = Js.lowerChar d ↔ Js.sameLetter c d = true.
Proof.
  unfold Js.sameLetter. split.
  - intros H%(f_equal Js.code). rewrite !code_lowerChar in H.
    destruct (bool_decide_reflect (c = d)) as [|Hne]; [done|]. simpl.
    assert (Js.code c ≠ Js.code d) by (intros ?%code_inj; done).
    unfold Js.isUpper in *. case_codes; try done; lia.
  - intros H. apply code_inj. rewrite !code_lowerChar.
    destruct (bool_decide_reflect (c = d)) as [->|Hne]; [done|]. simpl in H.
    unfold Js.isUpper in *. case_codes; try done; lia.
Qed.

Lemma toLowerCase_eq_iff (s t : string) :
  Js.toLowerCase s = Js.toLowerCase t ↔ Js.equalsIgnoreCase s t = true.
Proof.
  revert t. induction s as [|c s IH]; intros [|d t]; simpl; try done.
  rewrite andb_true_iff, <- IH, <- lowerChar_eq_iff.
  split; [by intros [= -> ->]|by intros [-> ->]].
Qed.

Lemma capitalize_cons (c : ascii) (s : string) :
  Lodash.capitalize (String c s) = String (Js.upperChar c) (Js.toLowerCase s).
Proof.
  unfold Lodash.capitalize, Lodash.upperFirst. simpl. by rewrite upper_lowerChar.
Qed.


(** *** uniqBy keeps the first of each computed value *)

Lemma uniqByFrom_fmap {A K} `{EqDecision K} (f : A → K) (seen : list K) (l : list A) :
  f <$> Lodash.uniqByFrom f seen l = Lodash.uniqByFrom id seen (f <$> l).
Proof.
  revert seen. induction l as [|x l IH]; intros seen; simpl; [done|].
  case_bool_decide; simpl; by rewrite IH.
Qed.

Lemma elem_of_uniqByFrom {K} `{EqDecision K} (seen l : list K) (x : K) :
  x ∈ Lodash.uniqByFrom id seen l ↔ x ∈ l ∧ x ∉ seen.
Proof.
  revert seen. induction l as [|y l IH]; intros seen; simpl.
  - set_solver.
  - case_bool_decide as Hy.
    + rewrite IH. set_solver.
    + rewrite elem_of_cons, IH. rewrite elem_of_app, list_elem_of_singleton.
      destruct (decide (x = y)) as [->|]; set_solver.
Qed.

Lemma NoDup_uniqByFrom {K} `{EqDecision K} (seen l : list K) :
  NoDup (Lodash.uniqByFrom id seen l).
Proof.
  revert seen. induction l as [|y l IH]; intros seen; simpl.
  - constructor.
  - case_bool_decide as Hy; [apply IH|].
    constructor; [|apply IH].
    rewrite elem_of_uniqByFrom. set_solver.
Qed.

Lemma uniqByFrom_app {K} `{EqDecision K} (seen l1 l2 : list K) :
  Lodash.uniqByFrom id seen (l1 ++ l2)
  = Lodash.uniqByFrom id seen l1
    ++ Lodash.uniqByFrom id (seen ++ Lodash.uniqByFrom id seen l1) l2.
Proof.
  revert seen. induction l1 as [|y l1 IH]; intros seen; simpl.
  - by rewrite app_nil_r.
  - case_bool_decide as Hy; [apply IH|].
    rewrite IH. simpl. by rewrite <- app_assoc.
Qed.

Lemma uniqBy_snoc {K} `{EqDecision K} (l : list K) (x : K) :
  Lodash.uniqBy (l ++ [x]) id
  = Lodash.uniqBy l id ++ (if bool_decide (x ∈ l) then [] else [x]).
Proof.
  unfold Lodash.uniqBy. rewrite uniqByFrom_app. simpl. f_equal.
  assert (x ∈ Lodash.uniqByFrom id [] l ↔ x ∈ l) as Hiff
    by (rewrite elem_of_uniqByFrom; set_solver).
  repeat case_bool_decide; naive_solver.
Qed.

Lemma elem_of_uniqBy {K} `{EqDecision K} (l : list K) (x : K) :
  x ∈ Lodash.uniqBy l id ↔ x ∈ l.
Proof. unfold Lodash.uniqBy. rewrite elem_of_uniqByFrom. set_solver. Qed.

Lemma NoDup_uniqBy {K} `{EqDecision K} (l : list K) : NoDup (Lodash.uniqBy l id).
Proof. apply NoDup_uniqByFrom. Qed.


Lemma ringsOf_uniq (blips : list Sanitized.t) :
  ringsOf blips = Lodash.uniqBy (Sanitized.ring <$> blips) id.
Proof. apply uniqByFrom_fmap. Qed.

Lemma length_ringsOf (blips : list Sanitized.t) :
  length (ringsOf blips) = ringCount blips.
Proof.
  unfold ringCount. rewrite ringsOf_uniq.
  rewrite <- (size_list_to_set (C := gset string)) by apply NoDup_uniqBy.
  f_equal. apply set_eq. intros x.
  by rewrite !elem_of_list_to_set, elem_of_uniqBy.
Qed.

(** The index of a ring among the rings is the number of distinct names
    met before its first row. *)
Lemma ringsOf_lookup (blips : list Sanitized.t) (r : string) (j : nat) :
  firstRow blips r = Some j →
  ringsOf blips !! ringsBefore blips j = Some r.
Proof.
  unfold firstRow, ringsBefore. intros Hfind.
  destruct (list_find _ blips) as [[j' row]|] eqn:Hf; simplify_eq/=.
  apply list_find_Some in Hf as (Hrow & Hr & Hbefore).
  rewrite <- length_ringsOf, !ringsOf_uniq.
  assert (Sanitized.ring <$> blips
          = (Sanitized.ring <$> take j blips)
            ++ r :: (Sanitized.ring <$> drop (S j) blips)) as ->.
  { rewrite <- (take_drop_middle blips j row Hrow) at 1.
    by rewrite fmap_app, fmap_cons, Hr. }
  unfold Lodash.uniqBy. rewrite uniqByFrom_app. simpl.
  rewrite bool_decide_eq_false_2.
  - by rewrite list_lookup_middle.
  - rewrite elem_of_uniqByFrom. intros [Hin _].
    apply list_elem_of_fmap in Hin as (row' & Hrr & Hin).
    apply list_elem_of_lookup in Hin as [i Hi].
    pose proof (lookup_lt_Some _ _ _ Hi) as Hlt. rewrite length_take in Hlt.
    rewrite lookup_take_lt in Hi by lia.
    apply (Hbefore i row' Hi); [lia|]. by rewrite Hrr.
Qed.


(** *** Plain objects *)

Lemma assigned_set {V} (o : JsObject.t V) (k k' : string) (v : V) :
  JsObject.assigned (JsObject.set o k v) k'
  = if bool_decide (k = k') then Some v else JsObject.assigned o k'.
Proof.
  induction o as [|[k0 v0] o IH]; simpl.
  - done.
  - destruct (bool_decide_reflect (k0 = k)) as [->|Hne]; simpl.
    + by destruct (bool_decide_reflect (k = k')).
    + rewrite IH. destruct (bool_decide_reflect (k0 = k')) as [->|]; [|done].
      by rewrite bool_decide_eq_false_2.
Qed.

Lemma set_fresh {V} (o : JsObject.t V) (k : string) (v : V) :
  JsObject.assigned o k = None → JsObject.set o k v = o ++ [(k, v)].
Proof.
  induction o as [|[k0 v0] o IH]; simpl; [done|].
  case_bool_decide; [done|]. intros Hnone. by rewrite IH.
Qed.


Lemma assigned_tabulate {V} (g : string → V) (ks : list string) (k : string) :
  JsObject.assigned (tabulate g ks) k = if bool_decide (k ∈ ks) then Some (g k) else None.
Proof.
  induction ks as [|k0 ks IH]; simpl; [done|].
  destruct (bool_decide_reflect (k0 = k)) as [->|Hne].
  - by rewrite bool_decide_eq_true_2 by set_solver.
  - rewrite IH. apply option_eq. intros v. repeat case_bool_decide; set_solver.
Qed.

Lemma set_tabulate {V} (g : string → V) (ks : list string) (k : string) (v : V) :
  k ∈ ks → NoDup ks →
  JsObject.set (tabulate g ks) k v
  = tabulate (λ k', if bool_decide (k' = k) then v else g k') ks.
Proof.
  induction ks as [|k0 ks IH]; simpl; [set_solver|].
  intros Hin [Hk0 Hnd]%NoDup_cons.
  destruct (bool_decide_reflect (k0 = k)) as [->|Hne].
  - f_equal. unfold tabulate. apply list_fmap_ext. intros i k' Hk'.
    rewrite bool_decide_eq_false_2; [done|].
    intros ->. apply Hk0. by eapply list_elem_of_lookup_2.
  - f_equal. apply IH; [set_solver|done].
Qed.

Lemma tabulate_ext {V} (g h : string → V) (ks : list string) :
  (∀ k, k ∈ ks → g k = h k) → tabulate g ks = tabulate h ks.
Proof.
  intros H. unfold tabulate. apply list_fmap_ext. intros i k Hk.
  f_equal. apply H. by eapply list_elem_of_lookup_2.
Qed.

Lemma tabulate_snoc {V} (g : string → V) (ks : list string) (k : string) :
  tabulate g (ks ++ [k]) = tabulate g ks ++ [(k, g k)].
Proof. unfold tabulate. by rewrite fmap_app. Qed.

(** *** The ring map *)


Lemma assigned_ringMapFrom (rings : list string) (i : nat)
    (ringMap : JsObject.t Ring.t) (r : string) :
  NoDup rings →
  JsObject.assigned (ringMapFrom i rings ringMap) r
  = match list_find (λ x, x = r) rings with
    | Some (j, _) => Some (Ring.new r (i + j))
    | None => JsObject.assigned ringMap r
    end.
Proof.
  revert i ringMap. induction rings as [|r0 rings IH]; intros i ringMap Hnd; simpl.
  - done.
  - apply NoDup_cons in Hnd as [Hr0 Hnd]. rewrite IH by done.
    case_decide as Heq.
    + subst r0. simpl.
      destruct (list_find _ rings) as [[j x]|] eqn:Hf.
      * apply list_find_Some in Hf as (Hx & -> & _).
        exfalso. apply Hr0. by eapply list_elem_of_lookup_2.
      * rewrite assigned_set, bool_decide_eq_true_2 by done.
        by rewrite Nat.add_0_r.
    + destruct (list_find _ rings) as [[j x]|] eqn:Hf; simpl.
      * do 2 f_equal. lia.
      * rewrite assigned_set, bool_decide_eq_false_2 by done. done.
Qed.

Lemma set_set {V} (o : JsObject.t V) (k : string) (v v' : V) :
  JsObject.set (JsObject.set o k v) k v' = JsObject.set o k v'.
Proof.
  induction o as [|[k0 v0] o IH]; simpl.
  - by rewrite bool_decide_eq_true_2.
  - destruct (bool_decide_reflect (k0 = k)) as [->|Hne]; simpl.
    + by rewrite bool_decide_eq_true_2.
    + by rewrite bool_decide_eq_false_2, IH.
Qed.

Lemma insertByIndex_perm {V} (n : N) (p : string * V) (l : list (N * (string * V))) :
  snd <$> JsObject.insertByIndex n p l ≡ₚ p :: (snd <$> l).
Proof.
  induction l as [|[m q] l IH]; simpl; [done|].
  destruct (n <=? m)%N; simpl; [done|].
  rewrite IH. apply perm_swap.
Qed.

Lemma entries_perm {V} (o : JsObject.t V) :
  Forall (λ p, p.1 ≠ "__proto__") o → JsObject.entries o ≡ₚ o.
Proof.
  unfold JsObject.entries, JsObject.named.
  induction o as [|[k v] o IH]; intros Hall; [done|].
  apply Forall_cons in Hall as [Hk Ho]. specialize (IH Ho).
  rewrite filter_cons. cbn [JsObject.indexed fst].
  destruct (JsObject.arrayIndex k) as [n|] eqn:Hn.
  - rewrite insertByIndex_perm. rewrite decide_False by naive_solver.
    simpl. by rewrite IH.
  - rewrite decide_True by done.
    rewrite <- Permutation_middle. by rewrite IH.
Qed.

Lemma entries_tabulate {V} (g : string → V) (ks : list string) :
  "__proto__" ∉ ks →
  JsObject.keys (tabulate g ks) ≡ₚ ks
  ∧ JsObject.values (tabulate g ks) = g <$> JsObject.keys (tabulate g ks).
Proof.
  intros Hproto.
  assert (JsObject.entries (tabulate g ks) ≡ₚ tabulate g ks) as Hperm.
  { apply entries_perm. unfold tabulate. apply Forall_fmap, Forall_forall.
    intros k Hk. simpl. by intros ->. }
  split.
  - unfold JsObject.keys. rewrite Hperm. unfold tabulate.
    rewrite <- list_fmap_compose. simpl. change (fst ∘ _) with (@id string).
    by rewrite list_fmap_id.
  - unfold JsObject.keys, JsObject.values. rewrite <- list_fmap_compose.
    apply list_fmap_ext. intros i [k v] Hi. simpl.
    assert ((k, v) ∈ tabulate g ks) as Hin.
    { rewrite <- Hperm. by eapply list_elem_of_lookup_2. }
    unfold tabulate in Hin. apply list_elem_of_fmap in Hin as (k' & [= -> ->] & _).
    done.
Qed.

(** *** The quadrants *)

Lemma rowsOf_snoc (blips : list Sanitized.t) (row : Sanitized.t) (key : string) :
  rowsOf (blips ++ [row]) key
  = rowsOf blips key ++ (if bool_decide (Sanitized.quadrant row = key) then [row] else []).
Proof.
  unfold rowsOf. rewrite filter_app. f_equal.
  case_bool_decide; [by rewrite filter_cons_True|by rewrite filter_cons_False].
Qed.

Lemma rowsOf_nil (blips : list Sanitized.t) (key : string) :
  key ∉ Sanitized.quadrant <$> blips → rowsOf blips key = [].
Proof.
  unfold rowsOf. induction blips as [|row blips IH]; simpl; [done|].
  intros Hnot. rewrite filter_cons_False by set_solver. apply IH. set_solver.
Qed.

Lemma quadrantOf_snoc (ringMap : JsObject.t Ring.t) (blips : list Sanitized.t)
    (row : Sanitized.t) (key : string) :
  quadrantOf ringMap (blips ++ [row]) key
  = if bool_decide (key = Sanitized.quadrant row)
    then Quadrant.add (quadrantOf ringMap blips key) (newBlip ringMap row)
    else quadrantOf ringMap blips key.
Proof.
  unfold quadrantOf, Quadrant.add. rewrite rowsOf_snoc, fmap_app. simpl.
  repeat case_bool_decide; simplify_eq; simpl; by rewrite ?app_nil_r.
Qed.

Lemma elem_of_quadrantKeys (blips : list Sanitized.t) (key : string) :
  key ∈ quadrantKeys blips ↔ key ∈ Sanitized.quadrant <$> blips.
Proof. apply elem_of_uniqBy. Qed.

Lemma quadrantKeys_snoc (blips : list Sanitized.t) (row : Sanitized.t) :
  quadrantKeys (blips ++ [row])
  = quadrantKeys blips
    ++ (if bool_decide (Sanitized.quadrant row ∈ quadrantKeys blips) then []
        else [Sanitized.quadrant row]).
Proof.
  unfold quadrantKeys at 1 2. rewrite fmap_app. simpl. rewrite uniqBy_snoc.
  f_equal. pose proof (elem_of_quadrantKeys blips (Sanitized.quadrant row)).
  repeat case_bool_decide; naive_solver.
Qed.

(** One turn of the loop over the rows. *)
Lemma addBlip_step (ringMap : JsObject.t Ring.t) (p : list Sanitized.t)
    (row : Sanitized.t) (i : nat) :
  JsObject.inherited (Sanitized.quadrant row) = false →
  addBlip ringMap row i (tabulate (quadrantOf ringMap p) (quadrantKeys p))
  = inr (tabulate (quadrantOf ringMap (p ++ [row])) (quadrantKeys (p ++ [row]))).
Proof.
  intros Hown. unfold addBlip. set (key := Sanitized.quadrant row) in *.
  assert (JsObject.get (tabulate (quadrantOf ringMap p) (quadrantKeys p)) key
          = if bool_decide (key ∈ quadrantKeys p)
            then Found (quadrantOf ringMap p key) else Undefined) as ->.
  { unfold JsObject.get. rewrite assigned_tabulate, Hown. by case_bool_decide. }
  rewrite quadrantKeys_snoc. fold key.
  destruct (bool_decide_reflect (key ∈ quadrantKeys p)) as [Hin|Hnot]; simpl.
  - unfold JsObject.get. rewrite assigned_tabulate, bool_decide_eq_true_2 by done.
    rewrite set_tabulate by (done || apply NoDup_uniqBy).
    rewrite app_nil_r. f_equal. apply tabulate_ext. intros k _.
    rewrite quadrantOf_snoc. fold key. by case_bool_decide; subst.
  - unfold JsObject.get. rewrite assigned_set, bool_decide_eq_true_2 by done.
    rewrite set_set, set_fresh
      by (rewrite assigned_tabulate; by rewrite bool_decide_eq_false_2).
    rewrite tabulate_snoc. f_equal. f_equal.
    + apply tabulate_ext. intros k Hk. rewrite quadrantOf_snoc. fold key.
      rewrite bool_decide_eq_false_2; [done|]. by intros ->.
    + rewrite quadrantOf_snoc. fold key. rewrite bool_decide_eq_true_2 by done.
      unfold quadrantOf. rewrite rowsOf_nil; [done|].
      by rewrite <- elem_of_quadrantKeys.
Qed.

Lemma eachFrom_addBlip (ringMap : JsObject.t Ring.t) (rest p : list Sanitized.t) (i : nat) :
  ownQuadrants rest = true →
  Lodash.eachFrom (addBlip ringMap) i rest (tabulate (quadrantOf ringMap p) (quadrantKeys p))
  = inr (tabulate (quadrantOf ringMap (p ++ rest)) (quadrantKeys (p ++ rest))).
Proof.
  revert p i. induction rest as [|row rest IH]; intros p i Hown; simpl in *.
  - by rewrite app_nil_r.
  - apply andb_true_iff in Hown as [Hrow Hown]. apply negb_true_iff in Hrow.
    rewrite addBlip_step by done.
    rewrite IH by done. by rewrite <- app_assoc.
Qed.

(** The loop can only fail with a TypeError. *)
Lemma eachFrom_addBlip_error (ringMap : JsObject.t Ring.t) (rest : list Sanitized.t)
    (i : nat) (quadrants : JsObject.t Quadrant.t) (e : Exception) :
  Lodash.eachFrom (addBlip ringMap) i rest quadrants = inl e → e = TypeError.
Proof.
  revert i quadrants. induction rest as [|row rest IH]; intros i quadrants; simpl; [done|].
  destruct (addBlip ringMap row i quadrants) as [e'|quadrants'] eqn:Hstep.
  - intros [= <-]. unfold addBlip in Hstep.
    by destruct (JsObject.get _ _); simplify_eq.
  - apply IH.
Qed.

Lemma ownQuadrants_proto (blips : list Sanitized.t) :
  ownQuadrants blips = true → "__proto__" ∉ quadrantKeys blips.
Proof.
  intros Hown Hin. apply elem_of_quadrantKeys, list_elem_of_fmap in Hin as (row & Hrow & Hin).
  unfold ownQuadrants in Hown. rewrite forallb_forall in Hown.
  apply list_elem_of_In, Hown in Hin. rewrite <- Hrow in Hin. done.
Qed.

(** *** Rows and quadrants *)

Lemma rowsOf_permutation (keys : list string) (blips : list Sanitized.t) :
  NoDup keys →
  (∀ row, row ∈ blips → Sanitized.quadrant row ∈ keys) →
  keys ≫= rowsOf blips ≡ₚ blips.
Proof.
  revert blips. induction keys as [|key keys IH]; intros blips Hnd Hcover.
  - destruct blips as [|row blips]; [done|]. specialize (Hcover row). set_solver.
  - apply NoDup_cons in Hnd as [Hkey Hnd]. rewrite bind_cons.
    rewrite <- (filter_app_complement (λ row, Sanitized.quadrant row = key) blips) at 3.
    fold (rowsOf blips key). f_equiv.
    rewrite <- (IH (filter (λ row, ¬ Sanitized.quadrant row = key) blips)); [|done|].
    + clear IH Hcover Hnd. induction keys as [|key' keys IH]; [done|].
      rewrite !bind_cons, IH by set_solver. f_equiv.
      unfold rowsOf. rewrite list_filter_filter. apply reflexive_eq.
      apply list_filter_iff. intros row. set_solver.
    + intros row [Hne Hin]%list_elem_of_filter. specialize (Hcover row Hin). set_solver.
Qed.

Lemma firstRow_is_Some (blips : list Sanitized.t) (row : Sanitized.t) :
  row ∈ blips → is_Some (firstRow blips (Sanitized.ring row)).
Proof.
  intros Hin. unfold firstRow.
  destruct (list_find_elem_of (λ row', Sanitized.ring row' = Sanitized.ring row)
              blips row Hin eq_refl) as [[j x] ->].
  by eexists.
Qed.

Lemma NoDup_ringsOf (blips : list Sanitized.t) : NoDup (ringsOf blips).
Proof. rewrite ringsOf_uniq. apply NoDup_uniqBy. Qed.

(** A row's ring is found in the ring map, with the number of distinct
    names before its first row as its order. *)
Lemma get_ringMapOf (blips : list Sanitized.t) (r : string) (j : nat) :
  firstRow blips r = Some j →
  JsObject.get (ringMapOf blips) r = Found (Ring.new r (ringsBefore blips j)).
Proof.
  intros Hj. apply ringsOf_lookup in Hj.
  unfold JsObject.get, ringMapOf. rewrite assigned_ringMapFrom by apply NoDup_ringsOf.
  assert (list_find (λ x, x = r) (ringsOf blips) = Some (ringsBefore blips j, r)) as ->.
  { apply list_find_Some. split_and!; [done..|].
    intros i x Hx Hlt ->.
    pose proof (NoDup_lookup _ _ _ _ (NoDup_ringsOf blips) Hx Hj). lia. }
  done.
Qed.

(** *** The two row shapes *)

Lemma lookup_zipped (header values : list string) (rawBlip : gmap string string) :
  sameLogicalRow header rawBlip values →
  (list_to_map (zip header values) : gmap string string) = rawBlip.
Proof.
  intros (Hlen & Hcells & Hrest). apply map_eq. intros column.
  destruct (decide (column ∈ header)) as [Hin|Hnot].
  - clear Hrest. revert values Hlen Hcells.
    induction header as [|h header IH]; intros [|v values] Hlen Hcells;
      simplify_eq/=; [set_solver|].
    destruct (decide (h = column)) as [->|Hne].
    + rewrite lookup_insert_eq. symmetry. apply (Hcells 0). done.
    + rewrite lookup_insert_ne by done. apply IH; [set_solver|done|].
      intros i c Hc. apply (Hcells (S i)). done.
  - rewrite Hrest by done. apply not_elem_of_list_to_map_1.
    intros Hin. apply Hnot.
    apply list_elem_of_fmap in Hin as ([c v] & -> & Hin).
    apply elem_of_zip_l in Hin. done.
Qed.

(** *** The error pages *)

Lemma plotErrorMessage_page (exception : Exception) (b : Browser) :
  ∃ rest,
    (plotErrorMessage exception b).1 = inr tt
    ∧ body (plotErrorMessage exception b).2 = rest ++ [errorPage exception b]
    ∧ loginPrompts (plotErrorMessage exception b).2 = loginPrompts b
    ∧ plotted (plotErrorMessage exception b).2 = plotted b
    ∧ documentTitle (plotErrorMessage exception b).2 = "Gestalte unsere Zukunft"
    ∧ consoleErrors (plotErrorMessage exception b).2
      = consoleErrors b
        ++ match exception with
           | MalformedDataError _ | SheetNotFoundError _ => []
           | _ => [exception]
           end.
Proof.
  unfold plotErrorMessage, bind, appendElement, setDocumentTitle, plotLogo,
    plotBanner, plotFooter, appendPart, removeLoading, modify, gets, ret.
  destruct exception; simpl.
  all: repeat first
    [ rewrite fmap_app | rewrite filter_app
    | rewrite (bool_decide_eq_true_2 (nextId b = nextId b)) by done
    | rewrite filter_cons_True by done
    | rewrite filter_nil
    | progress simpl ].
  all: eexists; split_and!; rewrite ?app_nil_r; done.
Qed.

Lemma plotUnauthorizedErrorMessage_page (b : Browser) :
  ∃ rest,
    (plotUnauthorizedErrorMessage b).1 = inr tt
    ∧ body (plotUnauthorizedErrorMessage b).2 = rest ++ [unauthorizedPage b]
    ∧ loginPrompts (plotUnauthorizedErrorMessage b).2 = loginPrompts b
    ∧ plotted (plotUnauthorizedErrorMessage b).2 = plotted b.
Proof.
  unfold plotUnauthorizedErrorMessage, bind, appendElement, setDocumentTitle, plotLogo,
    plotBanner, plotFooter, appendPart, removeLoading, modify, gets, ret.
  simpl.
  repeat first
    [ rewrite fmap_app | rewrite filter_app
    | rewrite (bool_decide_eq_true_2 (nextId b = nextId b)) by done
    | rewrite filter_cons_True by done
    | rewrite filter_nil
    | progress simpl ].
  eexists; split_and!; done.
Qed.

(** *** The file name of a URL *)

Lemma execLastSegment_segment (seg : list ascii) :
  seg ≠ [] → forallb Js.segmentChar seg = true → Js.execLastSegment seg = Some seg.
Proof.
  destruct seg as [|c seg]; [done|]. intros _ Hall.
  cbn [Js.execLastSegment]. by rewrite Hall.
Qed.

Lemma execLastSegment_after (pre seg : list ascii) (c : ascii) :
  Js.isSeparator c = true → seg ≠ [] → forallb Js.segmentChar seg = true →
  Js.execLastSegment ((pre ++ [c]) ++ seg) = Some seg.
Proof.
  intros Hc Hseg Hall.
  assert (∀ l, forallb Js.segmentChar ((l ++ [c]) ++ seg) = false) as Hsep.
  { intros l. rewrite !forallb_app. simpl. unfold Js.segmentChar at 2.
    rewrite Hc. simpl. by rewrite andb_false_r. }
  induction pre as [|d pre IH].
  - specialize (Hsep []). simpl in *. rewrite Hsep. by apply execLastSegment_segment.
  - cbn [app Js.execLastSegment]. specialize (Hsep (d :: pre)).
    cbn [app] in Hsep. by rewrite Hsep.
Qed.

Lemma unescape_app (a t : list ascii) (ta tt : list Js.Token) :
  Js.unescape a = Some ta → Js.unescape t = Some tt →
  Js.unescape (a ++ t) = Some (ta ++ tt).
Proof.
  remember (length a) as n eqn:Hn. revert a ta Hn.
  induction n as [n IH] using lt_wf_ind. intros a ta -> Ha Ht.
  destruct a as [|c a]; simpl in *.
  - by simplify_eq.
  - case_bool_decide.
    + destruct a as [|h1 [|h2 a]]; try done. simpl in *.
      destruct (Js.hexVal h1), (Js.hexVal h2); try done.
      destruct (Js.unescape a) as [ta'|] eqn:Ha'; simplify_eq/=.
      by rewrite (IH (length a) ltac:(lia) a ta' eq_refl Ha' Ht).
    + destruct (Js.unescape a) as [ta'|] eqn:Ha'; simplify_eq/=.
      by rewrite (IH (length a) ltac:(lia) a ta' eq_refl Ha' Ht).
Qed.

Lemma decodeOctets_app (ta tt : list Js.Token) (da dt : list ascii) :
  Js.decodeOctets ta = Some da → Js.decodeOctets tt = Some dt →
  Js.decodeOctets (ta ++ tt) = Some (da ++ dt).
Proof.
  remember (length ta) as n eqn:Hn. revert ta da Hn.
  induction n as [n IH] using lt_wf_ind. intros ta da -> Ha Ht.
  destruct ta as [|[c|o] ta]; cbn [Js.decodeOctets app] in *.
  - by simplify_eq.
  - destruct (Js.decodeOctets ta) as [da'|] eqn:Ha'; simplify_eq/=.
    by rewrite (IH (length ta) ltac:(simpl; lia) ta da' eq_refl Ha' Ht).
  - destruct (o <? 128)%N.
    { destruct (Js.decodeOctets ta) as [da'|] eqn:Ha'; simplify_eq/=.
      by rewrite (IH (length ta) ltac:(simpl; lia) ta da' eq_refl Ha' Ht). }
    destruct (Js.within 194 223 o).
    { destruct ta as [|[?|o1] ta]; try done. cbn [app].
      destruct (Js.isCont o1); [|done].
      destruct (Js.decodeOctets ta) as [da'|] eqn:Ha'; simplify_eq/=.
      by rewrite (IH (length ta) ltac:(simpl; lia) ta da' eq_refl Ha' Ht). }
    destruct (Js.within 224 239 o).
    { destruct ta as [|[?|o1] [|[?|o2] ta]]; try done. cbn [app].
      destruct (Js.second3 o o1 && Js.isCont o2); [|done].
      destruct (Js.decodeOctets ta) as [da'|] eqn:Ha'; simplify_eq/=.
      by rewrite (IH (length ta) ltac:(simpl; lia) ta da' eq_refl Ha' Ht). }
    destruct (Js.within 240 244 o); [|done].
    destruct ta as [|[?|o1] [|[?|o2] [|[?|o3] ta]]]; try done. cbn [app].
    destruct (Js.second4 o o1 && Js.isCont o2 && Js.isCont o3); [|done].
    destruct (Js.decodeOctets ta) as [da'|] eqn:Ha'; simplify_eq/=.
    by rewrite (IH (length ta) ltac:(simpl; lia) ta da' eq_refl Ha' Ht).
Qed.

Lemma decodeURIComponent_app (a t da dt : string) :
  Js.decodeURIComponent a = Some da → Js.decodeURIComponent t = Some dt →
  Js.decodeURIComponent (a +:+ t) = Some (da +:+ dt).
Proof.
  unfold Js.decodeURIComponent. rewrite chars_app.
  destruct (Js.unescape (Js.chars a)) as [ta|] eqn:Ha; [|done].
  destruct (Js.unescape (Js.chars t)) as [tt|] eqn:Ht; [|done].
  rewrite (unescape_app _ _ _ _ Ha Ht). simpl.
  destruct (Js.decodeOctets ta) as [la|] eqn:Hla; [|done].
  destruct (Js.decodeOctets tt) as [lt|] eqn:Hlt; [|done].
  rewrite (decodeOctets_app _ _ _ _ Hla Hlt). simpl.
  intros [= <-] [= <-]. by rewrite str_app.
Qed.

Lemma replacePlus_app (a t : string) :
  Js.replacePlus (a +:+ t) = Js.replacePlus a +:+ Js.replacePlus t.
Proof. unfold Js.replacePlus. by rewrite chars_app, fmap_app, str_app. Qed.

Lemma FileName_segment (url pre seg : string) :
  Js.decodeURIComponent (Js.replacePlus url) = Some (pre +:+ seg) →
  seg ≠ "" → forallb Js.segmentChar (Js.chars seg) = true →
  (pre = "" ∨ ∃ pre' c, pre = pre' +:+ String c "" ∧ Js.isSeparator c = true) →
  FileName url = inr seg.
Proof.
  intros Hdec Hseg Hall Hpre. unfold FileName. rewrite Hdec, chars_app.
  assert (Js.chars seg ≠ []) as Hne.
  { intros Hnil. apply Hseg. apply chars_inj. by rewrite Hnil. }
  destruct Hpre as [->|(pre' & c & -> & Hc)].
  - simpl. rewrite execLastSegment_segment by done. by rewrite str_chars.
  - rewrite chars_app. change (Js.chars (String c "")) with [c].
    rewrite execLastSegment_after by done. by rewrite str_chars.
Qed.

Lemma entry_of_row (ringMap : JsObject.t Ring.t) (blips : list Sanitized.t)
    (keys : list string) (cur : option string) (alts : list string) (row : Sanitized.t) :
  keys ≡ₚ quadrantKeys blips → row ∈ blips →
  newBlip ringMap row
  ∈ entries (Radar.make (quadrantOf ringMap blips <$> keys) cur alts).
Proof.
  intros Hkeys Hrow. unfold entries. simpl. apply list_elem_of_bind.
  exists (quadrantOf ringMap blips (Sanitized.quadrant row)). split.
  - simpl. apply list_elem_of_fmap_2. by apply list_elem_of_filter.
  - apply list_elem_of_fmap_2. rewrite Hkeys. apply elem_of_quadrantKeys.
    by apply list_elem_of_fmap_2.
Qed.

Lemma sameLogicalRow_zip (header values : list string) :
  NoDup header → length header = length values →
  sameLogicalRow header (list_to_map (zip header values)) values.
Proof.
  intros Hnd Hlen. split_and!; [done|..].
  - intros i column Hi.
    destruct (lookup_lt_is_Some_2 values i) as [v Hv].
    { rewrite <- Hlen. by eapply lookup_lt_Some. }
    rewrite Hv. apply elem_of_list_to_map_1.
    + rewrite fst_zip by lia. done.
    + apply list_elem_of_lookup. exists i. apply lookup_zip_with_Some. eauto.
  - intros column Hnot. apply not_elem_of_list_to_map_1.
    by rewrite fst_zip by lia.
Qed.

(** *** A quadrant cell that names an inherited member *)

Lemma eachFrom_app {A St} (f : A → nat → St → Result St) (l1 l2 : list A)
    (i : nat) (s : St) :
  Lodash.eachFrom f i (l1 ++ l2) s
  = match Lodash.eachFrom f i l1 s with
    | inl e => inl e
    | inr s' => Lodash.eachFrom f (i + length l1) l2 s'
    end.
Proof.
  revert i s. induction l1 as [|x l1 IH]; intros i s; simpl.
  - by rewrite Nat.add_0_r.
  - destruct (f x i s) as [e|s']; [done|].
    rewrite IH. by rewrite Nat.add_succ_comm.
Qed.

Lemma ownQuadrants_false (blips : list Sanitized.t) :
  ownQuadrants blips = false →
  ∃ p row rest,
    blips = p ++ row :: rest ∧ ownQuadrants p = true
    ∧ JsObject.inherited (Sanitized.quadrant row) = true.
Proof.
  induction blips as [|row blips IH]; simpl; [done|].
  destruct (JsObject.inherited (Sanitized.quadrant row)) eqn:Hrow; simpl.
  - intros _. by exists [], row, blips.
  - intros (p & row' & rest & -> & Hp & Hrow')%IH.
    exists (row :: p), row', rest. simpl. by rewrite Hrow, Hp.
Qed.

Lemma ownQuadrants_keys (blips : list Sanitized.t) (key : string) :
  ownQuadrants blips = true → key ∈ quadrantKeys blips →
  JsObject.inherited key = false.
Proof.
  intros Hown (row & -> & Hin)%elem_of_quadrantKeys%list_elem_of_fmap.
  unfold ownQuadrants in Hown. rewrite forallb_forall in Hown.
  apply list_elem_of_In, Hown in Hin. by apply negb_true_iff.
Qed.

Lemma addBlip_inherited (ringMap : JsObject.t Ring.t) (p : list Sanitized.t)
    (row : Sanitized.t) (i : nat) :
  ownQuadrants p = true → JsObject.inherited (Sanitized.quadrant row) = true →
  addBlip ringMap row i (tabulate (quadrantOf ringMap p) (quadrantKeys p)) = inl TypeError.
Proof.
  intros Hp Hrow. unfold addBlip.
  assert (JsObject.get (tabulate (quadrantOf ringMap p) (quadrantKeys p))
            (Sanitized.quadrant row) = Inherited) as Hget.
  { unfold JsObject.get. rewrite assigned_tabulate, Hrow.
    rewrite bool_decide_eq_false_2; [done|].
    intros Hin. pose proof (ownQuadrants_keys p _ Hp Hin). congruence. }
  rewrite Hget. simpl. by rewrite Hget.
Qed.

Lemma eachFrom_addBlip_inherited (ringMap : JsObject.t Ring.t) (blips : list Sanitized.t) :
  ownQuadrants blips = false →
  Lodash.eachFrom (addBlip ringMap) 0 blips JsObject.empty = inl TypeError.
Proof.
  intros (p & row & rest & -> & Hp & Hrow)%ownQuadrants_false.
  rewrite eachFrom_app.
  change (@JsObject.empty Quadrant.t)
    with (tabulate (quadrantOf ringMap []) (quadrantKeys [])).
  rewrite eachFrom_addBlip by done. simpl.
  by rewrite addBlip_inherited.
Qed.

(** *** The order of the rings *)

Lemma ringsBefore_lt (blips : list Sanitized.t) (r1 r2 : string) (j1 j2 : nat) :
  firstRow blips r1 = Some j1 → firstRow blips r2 = Some j2 → j1 < j2 →
  ringsBefore blips j1 < ringsBefore blips j2.
Proof.
  unfold firstRow, ringsBefore, ringCount. intros H1 H2 Hlt.
  destruct (list_find _ blips) as [[j1' row1]|] eqn:Hf1; simplify_eq/=.
  destruct (list_find (λ row, Sanitized.ring row = r2) blips) as [[j2' row2]|] eqn:Hf2;
    simplify_eq/=.
  apply list_find_Some in Hf1 as (Hrow1 & Hr1 & Hfirst1).
  apply list_find_Some in Hf2 as (Hrow2 & _ & _).
  apply subset_size. split.
  - intros x. rewrite !elem_of_list_to_set, !list_elem_of_fmap.
    intros (row & -> & Hin). exists row. split; [done|].
    apply list_elem_of_lookup in Hin as [i Hi].
    apply lookup_take_Some in Hi as [Hi Hlt'].
    apply list_elem_of_lookup. exists i. apply lookup_take_Some. split; [done|lia].
  - intros Hsub.
    assert (r1 ∈ (list_to_set (Sanitized.ring <$> take j2 blips) : gset string)) as Hin.
    { apply elem_of_list_to_set, list_elem_of_fmap. exists row1. split; [done|].
      apply list_elem_of_lookup. exists j1. by apply lookup_take_Some. }
    apply Hsub, elem_of_list_to_set, list_elem_of_fmap in Hin as (row & Hr & Hin).
    apply list_elem_of_lookup in Hin as [i Hi].
    apply lookup_take_Some in Hi as [Hi Hlt'].
    by apply (Hfirst1 i row Hi Hlt').
Qed.

(** *** The regular expressions *)

Lemma stripPrefix_spec (literal l rest : list ascii) :
  RegExp.stripPrefix literal l = Some rest ↔ l = literal ++ rest.
Proof.
  revert l. induction literal as [|c literal IH]; intros l; simpl.
  - split; [by intros [= ->]|by intros ->].
  - destruct l as [|d l]; [done|]. case_bool_decide as Hcd.
    + subst d. rewrite IH. split; [by intros ->|by intros [= ->]].
    + split; [done|]. intros [= -> _]. done.
Qed.

Lemma stripPrefix_None (literal l : list ascii) :
  RegExp.stripPrefix literal l = None ↔ ∀ rest, l ≠ literal ++ rest.
Proof.
  destruct (RegExp.stripPrefix literal l) as [rest|] eqn:Hstrip.
  - apply stripPrefix_spec in Hstrip. split; [done|]. intros Hno. by destruct (Hno rest).
  - split; [|done]. intros _ rest Hl. apply stripPrefix_spec in Hl. congruence.
Qed.

Lemma segment_maximal (host post : list ascii) :
  forallb Js.segmentChar host = true →
  head (Js.segmentChar <$> post) ≠ Some true →
  RegExp.segment (host ++ post) = host.
Proof.
  intros Hhost Hpost. induction host as [|c host IH]; simpl in *.
  - destruct post as [|d post]; [done|]. simpl in *.
    destruct (Js.segmentChar d); [done|done].
  - apply andb_true_iff in Hhost as [-> Hhost]. by rewrite IH.
Qed.

Lemma segment_split (l : list ascii) :
  ∃ post, l = RegExp.segment l ++ post
          ∧ forallb Js.segmentChar (RegExp.segment l) = true
          ∧ head (Js.segmentChar <$> post) ≠ Some true.
Proof.
  induction l as [|c l (post & Hl & Hall & Hpost)]; simpl.
  - by exists [].
  - destruct (Js.segmentChar c) eqn:Hc.
    + exists post. simpl. rewrite Hc, Hall. split_and!; [by f_equal|done|done].
    + exists (c :: l). simpl. rewrite Hc. done.
Qed.

(** [hostAt] finds a host exactly where [://] stands before a character
    of the class, and the host is the longest run of such characters. *)
Lemma hostAt_Some (l host : list ascii) :
  RegExp.hostAt l = Some host
  ↔ ∃ post, l = Js.chars "://" ++ host ++ post
            ∧ host ≠ []
            ∧ forallb Js.segmentChar host = true
            ∧ head (Js.segmentChar <$> post) ≠ Some true.
Proof.
  unfold RegExp.hostAt. split.
  - destruct (RegExp.stripPrefix _ l) as [rest|] eqn:Hstrip; [|done].
    apply stripPrefix_spec in Hstrip as ->.
    destruct (segment_split rest) as (post & Hrest & Hall & Hpost).
    destruct (RegExp.segment rest) as [|c seg] eqn:Hseg; [done|].
    intros [= <-]. exists post. by rewrite Hrest at 1.
  - intros (post & -> & Hne & Hall & Hpost).
    assert (RegExp.stripPrefix (Js.chars "://") (Js.chars "://" ++ host ++ post)
            = Some (host ++ post)) as -> by by apply stripPrefix_spec.
    rewrite segment_maximal by done. by destruct host.
Qed.

Lemma hostAt_is_Some (l : list ascii) : is_Some (RegExp.hostAt l) ↔ hostStart l.
Proof.
  unfold hostStart. split.
  - intros [host (post & -> & Hne & Hall & _)%hostAt_Some].
    destruct host as [|c host]; [done|]. simpl in Hall.
    apply andb_true_iff in Hall as [Hc _]. exists c, (host ++ post). done.
  - intros (c & rest & -> & Hc). unfold RegExp.hostAt.
    assert (RegExp.stripPrefix (Js.chars "://") (Js.chars "://" ++ c :: rest)
            = Some (c :: rest)) as -> by by apply stripPrefix_spec.
    simpl. rewrite Hc. done.
Qed.

Lemma hostAt_None (l : list ascii) : RegExp.hostAt l = None ↔ ¬ hostStart l.
Proof. rewrite <- hostAt_is_Some, eq_None_not_Some. done. Qed.

Lemma singleLine_head (c : ascii) (l : list ascii) :
  singleLine (c :: l) = true → RegExp.lineTerminator (c :: l) = 0.
Proof. simpl singleLine. intros [Hc _]%andb_true_iff. by apply bool_decide_eq_true_1 in Hc. Qed.

Lemma afterDots_sound (l host : list ascii) :
  RegExp.afterDots l = Some host →
  ∃ pre rest, l = pre ++ rest ∧ RegExp.hostAt rest = Some host.
Proof.
  induction l as [|c l IH]; [done|]. cbn [RegExp.afterDots].
  destruct (match RegExp.lineTerminator (c :: l) with
            | 0 => RegExp.afterDots l
            | S _ => None
            end) as [host'|] eqn:Hmore.
  - intros [= ->]. destruct (RegExp.lineTerminator (c :: l)); [|done].
    destruct (IH Hmore) as (pre & rest & -> & Hhost). by exists (c :: pre), rest.
  - intros Hhost. by exists [], (c :: l).
Qed.

Lemma afterDots_None_2 (l : list ascii) :
  (∀ pre rest, l = pre ++ rest → RegExp.hostAt rest = None) →
  RegExp.afterDots l = None.
Proof.
  induction l as [|c l IH]; intros Hno; [done|]. cbn [RegExp.afterDots].
  assert (RegExp.afterDots l = None) as Hl.
  { apply IH. intros pre rest ->. by apply (Hno (c :: pre)). }
  rewrite (Hno [] (c :: l)) by done.
  by destruct (RegExp.lineTerminator (c :: l)); rewrite ?Hl.
Qed.

Lemma afterDots_None_1 (l : list ascii) :
  singleLine l = true → RegExp.afterDots l = None →
  ∀ pre rest, l = pre ++ rest → RegExp.hostAt rest = None.
Proof.
  induction l as [|c l IH]; intros Hline Hnone pre rest Hl.
  - by destruct pre, rest.
  - cbn [RegExp.afterDots] in Hnone. rewrite (singleLine_head c l Hline) in Hnone.
    destruct (RegExp.afterDots l) as [host|] eqn:Hmore; [done|].
    destruct pre as [|d pre]; simpl in Hl.
    + by subst rest.
    + injection Hl as <- ->. eapply IH; [|done|done].
      simpl in Hline. by apply andb_true_iff in Hline as [_ Hline].
Qed.

(** On a text without line terminators [.+] stops before the last place
    where the rest of the expression matches. *)
Lemma afterDots_last (pre rest host : list ascii) :
  singleLine (pre ++ rest) = true →
  RegExp.hostAt rest = Some host →
  (∀ a z, a ≠ [] → rest = a ++ z → RegExp.hostAt z = None) →
  RegExp.afterDots (pre ++ rest) = Some host.
Proof.
  intros Hline Hhost Hlast. induction pre as [|c pre IH]; simpl app in *.
  - destruct rest as [|c rest]; [done|]. cbn [RegExp.afterDots].
    rewrite (singleLine_head c rest Hline).
    rewrite afterDots_None_2; [done|]. intros pre z ->. by apply (Hlast (c :: pre)).
  - cbn [RegExp.afterDots]. rewrite (singleLine_head c _ Hline).
    rewrite IH; [done|]. simpl in Hline. by apply andb_true_iff in Hline as [_ Hline].
Qed.

Lemma execDomainFrom_sound (skip : nat) (l host : list ascii) :
  RegExp.execDomainFrom skip l = Some host →
  ∃ pre rest, pre ≠ [] ∧ l = pre ++ rest ∧ RegExp.hostAt rest = Some host.
Proof.
  revert skip. induction l as [|c l IH]; intros skip; [done|]. cbn [RegExp.execDomainFrom].
  assert (∀ n, RegExp.execDomainFrom n l = Some host →
               ∃ pre rest, pre ≠ [] ∧ c :: l = pre ++ rest
                           ∧ RegExp.hostAt rest = Some host) as Hlater.
  { intros n (pre & rest & _ & -> & Hhost)%IH. by exists (c :: pre), rest. }
  destruct skip as [|n]; [|apply Hlater].
  destruct (RegExp.lineTerminator (c :: l)) as [|n]; [|apply Hlater].
  destruct (RegExp.afterDots l) as [host'|] eqn:Hdots; [|apply Hlater].
  intros [= ->]. destruct (afterDots_sound l host Hdots) as (pre & rest & -> & Hhost).
  by exists (c :: pre), rest.
Qed.

Lemma execDomainFrom_None (skip : nat) (l : list ascii) :
  (∀ pre rest, pre ≠ [] → l = pre ++ rest → RegExp.hostAt rest = None) →
  RegExp.execDomainFrom skip l = None.
Proof.
  revert skip. induction l as [|c l IH]; intros skip Hno; [done|].
  cbn [RegExp.execDomainFrom].
  assert (∀ n, RegExp.execDomainFrom n l = None) as Hlater.
  { intros n. apply IH. intros pre rest Hpre ->. by apply (Hno (c :: pre)). }
  destruct skip as [|n]; [|apply Hlater].
  destruct (RegExp.lineTerminator (c :: l)) as [|n]; [|apply Hlater].
  rewrite afterDots_None_2; [apply Hlater|].
  intros pre rest ->. by apply (Hno (c :: pre)).
Qed.

Lemma execDomain_singleLine (c : ascii) (l : list ascii) :
  singleLine (c :: l) = true →
  RegExp.execDomain (c :: l) = RegExp.afterDots l.
Proof.
  intros Hline. unfold RegExp.execDomain. cbn [RegExp.execDomainFrom].
  rewrite (singleLine_head c l Hline).
  destruct (RegExp.afterDots l) as [host|] eqn:Hdots; [done|].
  apply execDomainFrom_None. intros pre rest _ Hl.
  eapply afterDots_None_1; [|done|done].
  simpl in Hline. by apply andb_true_iff in Hline as [_ Hline].
Qed.

(** *** The pages, when the handles are below the next handle *)

Lemma appendPart_fresh (n : nat) (part : Part) (l : list Element) :
  Forall (λ e, handle e < n) l →
  (λ e, if bool_decide (handle e = n)
        then Build_Element (handle e) (loading e) (parts e ++ [part]) else e) <$> l
  = l.
Proof.
  induction 1 as [|e l He _ IH]; [done|]. rewrite fmap_cons, IH.
  by rewrite bool_decide_eq_false_2 by lia.
Qed.

Lemma fresh_filter (n : nat) (P : Element → Prop) `{∀ e, Decision (P e)}
    (l : list Element) :
  Forall (λ e, handle e < n) l → Forall (λ e, handle e < n) (filter P l).
Proof.
  intros Hl. apply Forall_forall. intros e [_ He]%list_elem_of_filter.
  by eapply Forall_forall in Hl.
Qed.

Lemma Browser_ext (b1 b2 : Browser) :
  documentTitle b1 = documentTitle b2 → body b1 = body b2 → nextId b1 = nextId b2 →
  innerHeight b1 = innerHeight b2 → location b1 = location b2 → query b1 = query b2 →
  currentUser b1 = currentUser b2 → loginPrompts b1 = loginPrompts b2 →
  plotted b1 = plotted b2 → consoleErrors b1 = consoleErrors b2 →
  b1 = b2.
Proof. destruct b1, b2. simpl. by intros -> -> -> -> -> -> -> -> -> ->. Qed.

Lemma run_ext {A} (r : Result A * Browser) (x : A) (b : Browser) :
  r.1 = inr x → r.2 = b → r = (inr x, b).
Proof. destruct r as [y b']. simpl. by intros -> ->. Qed.

Ltac page_fields b :=
  repeat first
    [ rewrite fmap_app | rewrite filter_app
    | rewrite (appendPart_fresh (nextId b) _ (body b)) by done
    | rewrite (appendPart_fresh (nextId b) _ (filter _ (body b))) by done
    | rewrite (bool_decide_eq_true_2 (nextId b = nextId b)) by done
    | rewrite filter_cons_True by done
    | rewrite filter_nil
    | progress simpl ];
  rewrite ?app_nil_r; try reflexivity.

Lemma plotLoading_run (b : Browser) :
  wellFormed b → plotLoading b = (inr tt, afterLoading b).
Proof.
  intros Hwf. unfold wellFormed in Hwf.
  apply run_ext; [done|]. apply Browser_ext.
  all: unfold plotLoading, bind, appendElement, setDocumentTitle, plotLogo, plotBanner,
    plotFooter, appendPart, modify, afterLoading, loadingPage.
  all: page_fields b.
Qed.

Lemma plotErrorMessage_run (exception : Exception) (b : Browser) :
  wellFormed b → plotErrorMessage exception b = (inr tt, afterError exception b).
Proof.
  intros Hwf. unfold wellFormed in Hwf.
  pose proof (fresh_filter (nextId b) (λ e, loading e = false) (body b) Hwf) as Hkept.
  apply run_ext; [by destruct (plotErrorMessage_page exception b) as (rest & -> & _)|].
  apply Browser_ext.
  all: unfold plotErrorMessage, bind, appendElement, setDocumentTitle, plotLogo,
    plotBanner, plotFooter, appendPart, removeLoading, modify, gets, ret,
    afterError, errorPage, messageFor.
  all: destruct exception; page_fields b.
Qed.

Lemma plotUnauthorizedErrorMessage_run (b : Browser) :
  wellFormed b → plotUnauthorizedErrorMessage b = (inr tt, afterUnauthorized b).
Proof.
  intros Hwf. unfold wellFormed in Hwf.
  pose proof (fresh_filter (nextId b) (λ e, loading e = false) (body b) Hwf) as Hkept.
  apply run_ext; [by destruct (plotUnauthorizedErrorMessage_page b) as (rest & -> & _)|].
  apply Browser_ext.
  all: unfold plotUnauthorizedErrorMessage, bind, appendElement, setDocumentTitle, plotLogo,
    plotBanner, plotFooter, appendPart, removeLoading, modify, gets, ret,
    afterUnauthorized, unauthorizedPage.
  all: page_fields b.
Qed.

Lemma wellFormed_afterLoading (b : Browser) : wellFormed b → wellFormed (afterLoading b).
Proof.
  unfold wellFormed. simpl. intros Hwf. apply Forall_app. split.
  - eapply Forall_impl; [done|]. simpl. lia.
  - apply Forall_singleton. simpl. lia.
Qed.

Lemma wellFormed_titled (title : string) (b : Browser) :
  wellFormed b → wellFormed (titled title b).
Proof. unfold wellFormed. simpl. by apply fresh_filter. Qed.

Lemma filter_loading_idemp (l : list Element) :
  filter (λ e, loading e = false) (filter (λ e, loading e = false) l)
  = filter (λ e, loading e = false) l.
Proof.
  induction l as [|e l IH]; [done|]. rewrite filter_cons. case_decide as He.
  - by rewrite filter_cons_True, IH.
  - done.
Qed.

Lemma occursIn_spec (part l : list ascii) :
  occursIn part l = true ↔ ∃ pre post, l = pre ++ part ++ post.
Proof.
  induction l as [|c l IH]; cbn [occursIn].
  - destruct (RegExp.stripPrefix part []) as [rest|] eqn:Hstrip.
    + apply stripPrefix_spec in Hstrip. split; [|done]. intros _. by exists [], rest.
    + split; [done|]. intros (pre & post & Hsplit).
      destruct pre; [|done]. simpl in Hsplit.
      by destruct (proj1 (stripPrefix_None _ _) Hstrip post).
  - destruct (RegExp.stripPrefix part (c :: l)) as [rest|] eqn:Hstrip.
    + apply stripPrefix_spec in Hstrip. split; [|done]. intros _. by exists [], rest.
    + rewrite IH. split.
      * intros (pre & post & ->). by exists (c :: pre), post.
      * intros (pre & post & Hsplit). destruct pre as [|d pre]; simpl in Hsplit.
        -- by destruct (proj1 (stripPrefix_None _ _) Hstrip post).
        -- injection Hsplit as _ ->. by exists pre, post.
Qed.

Lemma includes_spec (s part : string) :
  includes s part = true ↔ ∃ pre post, s = pre +:+ part +:+ post.
Proof.
  unfold includes. rewrite occursIn_spec. split.
  - intros (pre & post & Hsplit). exists (Js.str pre), (Js.str post).
    apply chars_inj. by rewrite Hsplit, !chars_app, !chars_str.
  - intros (pre & post & ->). exists (Js.chars pre), (Js.chars post).
    by rewrite !chars_app.
Qed.

Lemma includes_false (s part : string) :
  includes s part = false → ∀ pre post, s ≠ pre +:+ part +:+ post.
Proof.
  intros Hno pre post Hsplit.
  assert (includes s part = true) as Hyes by (apply includes_spec; eauto).
  congruence.
Qed.

Lemma DomainName_nonempty (url domain : string) :
  DomainName url = inr (Some domain) → domain ≠ "".
Proof.
  unfold DomainName.
  destruct (Js.decodeURIComponent (Js.replacePlus url)) as [decoded|]; [|done].
  destruct (RegExp.execDomain (Js.chars decoded)) as [host|] eqn:Hexec; [|done].
  intros [= <-].
  apply execDomainFrom_sound in Hexec as (pre & rest & _ & _ & Hhost).
  apply hostAt_Some in Hhost as (post & _ & Hne & _).
  intros Hempty. apply Hne. by rewrite <- (chars_str host), Hempty.
Qed.

Lemma DomainName_no_scheme (url decoded : string) :
  Js.decodeURIComponent (Js.replacePlus url) = Some decoded →
  (∀ pre post, decoded ≠ pre +:+ "://" +:+ post) →
  DomainName url = inr None.
Proof.
  intros Hdecoded Hno. unfold DomainName. rewrite Hdecoded.
  unfold RegExp.execDomain. rewrite execDomainFrom_None; [done|].
  intros pre rest _ Hsplit. apply hostAt_None. intros (c & post & -> & _).
  apply (Hno (Js.str pre) (Js.str (c :: post))).
  apply chars_inj. by rewrite Hsplit, !chars_app, !chars_str.
Qed.

Lemma execSheetId_None (l : list ascii) :
  (∀ pre post, l ≠ pre ++ Js.chars "sheetId" ++ post) →
  RegExp.execSheetId l = None.
Proof.
  induction l as [|c l IH]; intros Hno.
  - cbn [RegExp.execSheetId]. by rewrite (proj2 (stripPrefix_None _ _) (Hno [])).
  - cbn [RegExp.execSheetId]. rewrite (proj2 (stripPrefix_None _ _) (Hno [])).
    apply IH. intros pre post ->. by apply (Hno (c :: pre) post).
Qed.

Lemma execLastSegment_None (pre : list ascii) (c : ascii) :
  Js.isSeparator c = true → Js.execLastSegment (pre ++ [c]) = None.
Proof.
  intros Hc. induction pre as [|d pre IH]; cbn [app Js.execLastSegment].
  - cbn [forallb]. unfold Js.segmentChar. by rewrite Hc.
  - assert (forallb Js.segmentChar (d :: pre ++ [c]) = false) as ->; [|done].
    change (d :: pre ++ [c]) with ((d :: pre) ++ [c]). rewrite forallb_app. simpl.
    unfold Js.segmentChar at 3. rewrite Hc. simpl. by rewrite !andb_false_r.
Qed.

Lemma execLastSegment_Some (l seg : list ascii) :
  Js.execLastSegment l = Some seg →
  seg ≠ [] ∧ forallb Js.segmentChar seg = true ∧ ∃ pre, l = pre ++ seg.
Proof.
  induction l as [|c l IH]; [done|]. cbn [Js.execLastSegment].
  destruct (forallb Js.segmentChar (c :: l)) eqn:Hall.
  - intros [= <-]. split_and!; [done|done|by exists []].
  - intros (Hne & Hseg & pre & ->)%IH. split_and!; [done|done|by exists (c :: pre)].
Qed.

(** *** The order in which the keys of an object are listed *)










(** ** The factory *)

Section FactoryFacts.

Variable TOO_MANY_RINGS : string.
Variables verifyContent verifyHeaders : list string → Result unit.

Lemma eachFrom_addRing_ok (rings : list string) (i : nat) (ringMap : JsObject.t Ring.t) :
  i + length rings ≤ maxRings →
  Lodash.eachFrom (addRing TOO_MANY_RINGS) i rings ringMap = inr (ringMapFrom i rings ringMap).
Proof.
  revert i ringMap. induction rings as [|r rings IH]; intros i ringMap Hlen; simpl in *.
  - done.
  - unfold addRing at 1. rewrite bool_decide_eq_false_2 by (unfold maxRings in *; lia).
    apply IH. lia.
Qed.

Lemma eachFrom_addRing_fail (rings : list string) (i : nat) (ringMap : JsObject.t Ring.t) :
  i ≤ maxRings → maxRings < i + length rings →
  Lodash.eachFrom (addRing TOO_MANY_RINGS) i rings ringMap = inl (MalformedDataError TOO_MANY_RINGS).
Proof.
  revert i ringMap. induction rings as [|r rings IH]; intros i ringMap Hi Hlen; simpl in *.
  - lia.
  - unfold addRing at 1. case_bool_decide; [done|].
    apply IH; lia.
Qed.


Lemma foldl_addQuadrant (qs : list Quadrant.t) (r : Radar.t) :
  foldl Radar.addQuadrant r qs
  = Radar.make (Radar.quadrants r ++ qs) (Radar.currentSheetName r) (Radar.alternatives r).
Proof.
  revert r. induction qs as [|q qs IH]; intros [x c a]; simpl.
  - by rewrite app_nil_r.
  - rewrite IH. simpl. by rewrite <- app_assoc.
Qed.

Lemma foldl_addAlternative (names : list string) (r : Radar.t) :
  foldl Radar.addAlternative r names
  = Radar.make (Radar.quadrants r) (Radar.currentSheetName r) (Radar.alternatives r ++ names).
Proof.
  revert r. induction names as [|n names IH]; intros [x c a]; simpl.
  - by rewrite app_nil_r.
  - rewrite IH. simpl. by rewrite <- app_assoc.
Qed.

Lemma canvasSize_eq (b : Browser) :
  (if (innerHeight b - 133 <? 620)%Z then 620%Z else (innerHeight b - 133)%Z)
  = canvasSize b.
Proof. unfold canvasSize. destruct (Z.ltb_spec (innerHeight b - 133) 620); lia. Qed.

(** The run of [plotRadar], case by case. *)
Lemma plotRadar_unfold (title : string) (blips : list Sanitized.t)
    (cur : option string) (alts : list string) (b : Browser) :
  plotRadar TOO_MANY_RINGS title blips cur alts b
  = match Lodash.eachFrom (addRing TOO_MANY_RINGS) 0 (ringsOf blips) JsObject.empty with
    | inl e => (inl e, titled title b)
    | inr ringMap =>
        match Lodash.eachFrom (addBlip ringMap) 0 blips JsObject.empty with
        | inl e => (inl e, titled title b)
        | inr quadrants =>
            (inr tt,
             withPlot (canvasSize b)
               (Radar.make (JsObject.values quadrants) cur alts) (titled title b))
        end
    end.
Proof.
  unfold plotRadar, bind, modify, removeLoading, lift, gets, Lodash.each. simpl.
  fold (ringsOf blips). fold (titleShown title). fold (titled title b).
  destruct (Lodash.eachFrom _ 0 (ringsOf blips) _) as [e|ringMap]; [done|].
  destruct (Lodash.eachFrom _ 0 blips _) as [e|quadrants]; [done|].
  rewrite foldl_addQuadrant, foldl_addAlternative. simpl.
  by rewrite canvasSize_eq.
Qed.

Lemma plotRadar_too_many (title : string) (blips : list Sanitized.t)
    (cur : option string) (alts : list string) (b : Browser) :
  maxRings < ringCount blips →
  plotRadar TOO_MANY_RINGS title blips cur alts b
  = (inl (MalformedDataError TOO_MANY_RINGS), titled title b).
Proof.
  intros Hn. rewrite plotRadar_unfold, eachFrom_addRing_fail; [done|lia|].
  rewrite length_ringsOf. lia.
Qed.

Lemma plotRadar_ok (title : string) (blips : list Sanitized.t)
    (cur : option string) (alts : list string) (b : Browser) :
  ringCount blips ≤ maxRings → ownQuadrants blips = true →
  ∃ keys, keys ≡ₚ quadrantKeys blips ∧
    plotRadar TOO_MANY_RINGS title blips cur alts b
    = (inr tt,
       withPlot (canvasSize b)
         (Radar.make (quadrantOf (ringMapOf blips) blips <$> keys) cur alts)
         (titled title b)).
Proof.
  intros Hn Hown. rewrite plotRadar_unfold.
  rewrite eachFrom_addRing_ok by (rewrite length_ringsOf; lia).
  fold (ringMapOf blips).
  change (@JsObject.empty Quadrant.t)
    with (tabulate (quadrantOf (ringMapOf blips) []) (quadrantKeys [])).
  rewrite eachFrom_addBlip by done. simpl.
  destruct (entries_tabulate (quadrantOf (ringMapOf blips) blips) (quadrantKeys blips))
    as [Hperm ->]; [by apply ownQuadrants_proto|].
  eexists. split; [exact Hperm|done].
Qed.

Lemma plotRadar_few (title : string) (blips : list Sanitized.t)
    (cur : option string) (alts : list string) (b : Browser) :
  ringCount blips ≤ maxRings →
  (plotRadar TOO_MANY_RINGS title blips cur alts b).1 = inr tt
  ∨ (plotRadar TOO_MANY_RINGS title blips cur alts b).1 = inl TypeError.
Proof.
  intros Hn. rewrite plotRadar_unfold.
  rewrite eachFrom_addRing_ok by (rewrite length_ringsOf; lia).
  destruct (Lodash.eachFrom _ 0 blips _) as [e|quadrants] eqn:Hloop; simpl; [|by left].
  right. f_equal. by eapply eachFrom_addBlip_error.
Qed.


Lemma plotted_titled (title : string) (b : Browser) : plotted (titled title b) = plotted b.
Proof. done. Qed.

Lemma documentTitle_plotRadar (title : string) (blips : list Sanitized.t)
    (cur : option string) (alts : list string) (b : Browser) :
  documentTitle (plotRadar TOO_MANY_RINGS title blips cur alts b).2 = titleShown title.
Proof.
  rewrite plotRadar_unfold.
  destruct (Lodash.eachFrom _ 0 (ringsOf blips) _) as [e|ringMap]; [done|].
  by destruct (Lodash.eachFrom _ 0 blips _) as [e|quadrants].
Qed.

Lemma titleShown_csv (p : string) : titleShown (p +:+ ".csv") = p.
Proof.
  unfold titleShown.
  assert (Js.endsWith (p +:+ ".csv") ".csv" = true) as -> by (apply endsWith_spec; eauto).
  apply (substring_prefix p ".csv").
Qed.

Lemma GoogleSheet_try_run (sn : option string) (tabletop : Tabletop)
    (sheet : TabletopSheet) (b : Browser) :
  let resolved := if falsy sn then foundSheetNames tabletop !! 0 else sn in
  sheets tabletop resolved = Some sheet →
  verifyContent (columnNames sheet) = inr tt →
  verifyHeaders (columnNames sheet) = inr tt →
  GoogleSheet_createBlips_try TOO_MANY_RINGS verifyContent verifyHeaders sn tabletop b
  = plotRadar TOO_MANY_RINGS (googleSheetName tabletop +:+ " - " +:+ toString resolved)
      (InputSanitizer.sanitize <$> all sheet) resolved (foundSheetNames tabletop) b.
Proof.
  intros resolved Hsheet Hvc Hvh.
  unfold GoogleSheet_createBlips_try, bind, lift, ret. fold resolved.
  by rewrite Hsheet, Hvc, Hvh.
Qed.

Lemma validation_loop (header : list string) (all : list (list string)) :
  verifyContent header = inr tt → verifyHeaders header = inr tt →
  Lodash.each (header :: all)
    (λ (value : list string) (i : nat) (u : unit),
       match header :: all with
       | columnNames :: _ =>
           match verifyContent columnNames with
           | inl e => inl e
           | inr _ => verifyHeaders columnNames
           end
       | [] => inr u
       end) tt
  = inr tt.
Proof.
  intros Hvc Hvh. unfold Lodash.each. rewrite Hvc, Hvh.
  generalize (header :: all) 0. intros l. induction l as [|x l IH]; intros i; simpl; [done|].
  apply IH.
Qed.

Lemma protected_run (sn : option string) (document : string) (header : list string)
    (all : list (list string)) (names : list string) (b : Browser) :
  let resolved := if falsy sn then names !! 0 else sn in
  verifyContent header = inr tt → verifyHeaders header = inr tt →
  createBlipsForProtectedSheet TOO_MANY_RINGS verifyContent verifyHeaders
    sn document (header :: all) names b
  = plotRadar TOO_MANY_RINGS (document +:+ " - " +:+ toString resolved)
      ((λ blip, InputSanitizer.sanitizeForProtectedSheet blip header) <$> all)
      resolved names b.
Proof.
  intros resolved Hvc Hvh.
  unfold createBlipsForProtectedSheet, bind, lift. fold resolved.
  by rewrite validation_loop.
Qed.

(** *** The source variants *)




Lemma authenticate_unfold (sn : option string) (force : bool)
    (callback : option (M unit)) (response : SheetResponse) (b b1 : Browser) :
  (login force ;; match callback with Some run => run | None => ret tt end)%js b
    = (inr tt, b1) →
  authenticate TOO_MANY_RINGS verifyContent verifyHeaders sn force callback response b
  = match response with
    | Fetched title values names =>
        match createBlipsForProtectedSheet TOO_MANY_RINGS verifyContent verifyHeaders
                sn title values names b1 with
        | (inl e, b') => handleSheetError e b'
        | r => r
        end
    | Failed error => handleSheetError error b1
    end.
Proof.
  unfold authenticate, bind, login, modify. simpl.
  destruct callback as [run|]; simpl.
  - destruct (run _) as [[e|[]] b1']; intros [= <-]. unfold processSheetResponse.
    destruct response; [|done]. unfold tryCatch.
    by destruct (createBlipsForProtectedSheet _ _ _ _ _ _ _ _) as [[e|[]] b'].
  - intros [= <-]. unfold processSheetResponse.
    destruct response; [|done]. unfold tryCatch.
    by destruct (createBlipsForProtectedSheet _ _ _ _ _ _ _ _) as [[e|[]] b'].
Qed.

Lemma CSVDocument_title (url title : string) (data : CsvData) (b : Browser) :
  verifyContent (columns data) = inr tt → verifyHeaders (columns data) = inr tt →
  FileName url = inr title →
  ringCount (InputSanitizer.sanitize <$> rows data) ≤ 4 →
  ownQuadrants (InputSanitizer.sanitize <$> rows data) = true →
  (CSVDocument_createBlips TOO_MANY_RINGS verifyContent verifyHeaders url data b).1 = inr tt
  ∧ documentTitle
      (CSVDocument_createBlips TOO_MANY_RINGS verifyContent verifyHeaders url data b).2
    = titleShown title.
Proof.
  intros Hvc Hvh Hfile Hn Hown.
  unfold CSVDocument_createBlips, CSVDocument_createBlips_try, tryCatch, bind, lift.
  rewrite Hvc, Hvh, Hfile. unfold Lodash.map.
  destruct (plotRadar_ok title (InputSanitizer.sanitize <$> rows data)
              (Some "CSV File") [] b Hn Hown) as (keys & _ & ->).
  done.
Qed.

(** With at most four rings, a quadrant cell that names a member of
    Object.prototype makes the assembly throw a TypeError: the read
    [quadrants[blip.quadrant]] finds the inherited member, so no quadrant
    is made, and the member has no [add]. *)
Lemma plotRadar_inherited (title : string) (blips : list Sanitized.t)
    (cur : option string) (alts : list string) (b : Browser) :
  ringCount blips ≤ maxRings → ownQuadrants blips = false →
  plotRadar TOO_MANY_RINGS title blips cur alts b = (inl TypeError, titled title b).
Proof.
  intros Hn Hown. rewrite plotRadar_unfold.
  rewrite eachFrom_addRing_ok by (rewrite length_ringsOf; lia).
  by rewrite eachFrom_addBlip_inherited.
Qed.

(** ** The claims *)

(** C1.  A row set with five or more distinct ring names makes the
    assembly fail with the MalformedDataError of the too-many-rings
    message, and nothing is handed to the renderer; with at most four
    distinct ring names the assembly raises no MalformedDataError. *)
Theorem too_many_rings_rejected (title : string) (blips : list Sanitized.t)
    (cur : option string) (alts : list string) (b : Browser) :
  (5 ≤ ringCount blips →
     (plotRadar TOO_MANY_RINGS title blips cur alts b).1
       = inl (MalformedDataError TOO_MANY_RINGS)
     ∧ plotted (plotRadar TOO_MANY_RINGS title blips cur alts b).2 = plotted b)
  ∧ (ringCount blips ≤ 4 →
     ∀ message,
       (plotRadar TOO_MANY_RINGS title blips cur alts b).1
         ≠ inl (MalformedDataError message)).
Proof.
  split.
  - intros Hn. rewrite plotRadar_too_many by (unfold maxRings; lia). done.
  - intros Hn message Hfail.
    destruct (plotRadar_few title blips cur alts b Hn) as [Hok|Hok];
      rewrite Hok in Hfail; done.
Qed.

(** C2, as amended.  With at most four distinct ring names, and no
    quadrant cell that names a member of Object.prototype, the assembly
    succeeds and hands one radar to the renderer; the ring of every
    entry carries as its order the number of distinct ring names on the
    rows before the first row of that ring, which is its index in the
    order of first appearance: a ring that first appears on an earlier
    row has the smaller order. *)
Theorem ring_order_first_appearance (title : string) (blips : list Sanitized.t)
    (cur : option string) (alts : list string) (b : Browser) :
  ringCount blips ≤ 4 → ownQuadrants blips = true →
  ∃ radar,
    (plotRadar TOO_MANY_RINGS title blips cur alts b).1 = inr tt
    ∧ plotted (plotRadar TOO_MANY_RINGS title blips cur alts b).2
      = plotted b ++ [(canvasSize b, radar)]
    ∧ length (entries radar) = length blips
    ∧ (∀ row, row ∈ blips →
         ∃ j entry, firstRow blips (Sanitized.ring row) = Some j
                    ∧ entry ∈ entries radar
                    ∧ Blip.name entry = Sanitized.name row
                    ∧ Blip.ring entry
                      = Found (Ring.new (Sanitized.ring row) (ringsBefore blips j)))
    ∧ (∀ entry, entry ∈ entries radar →
         ∃ r j, firstRow blips r = Some j
                ∧ Blip.ring entry = Found (Ring.new r (ringsBefore blips j)))
    ∧ ∀ r1 r2 j1 j2,
        firstRow blips r1 = Some j1 → firstRow blips r2 = Some j2 → j1 < j2 →
        ringsBefore blips j1 < ringsBefore blips j2.
Proof.
  intros Hn Hown.
  destruct (plotRadar_ok title blips cur alts b Hn Hown) as (keys & Hkeys & ->).
  eexists. split_and!; [done..| | | |apply ringsBefore_lt].
  2:{ intros row Hrow. destruct (firstRow_is_Some blips row Hrow) as [j Hj].
      exists j, (newBlip (ringMapOf blips) row). split_and!; [done| |done|].
      - by apply entry_of_row.
      - simpl. by apply get_ringMapOf. }
  all: unfold entries; simpl.
  - rewrite list_fmap_bind. unfold quadrantOf, compose. simpl.
    transitivity (length (keys ≫= rowsOf blips)).
    { clear. induction keys as [|k keys IH]; [done|].
      by rewrite !bind_cons, !length_app, length_fmap, IH. }
    rewrite rowsOf_permutation; [done|..].
    + rewrite Hkeys. apply NoDup_uniqBy.
    + intros row Hrow. rewrite Hkeys. apply elem_of_quadrantKeys.
      by apply list_elem_of_fmap_2.
  - intros entry (q & Hentry & (key & -> & _)%list_elem_of_fmap)%list_elem_of_bind.
    simpl in Hentry. apply list_elem_of_fmap in Hentry as (row & -> & Hrow).
    apply list_elem_of_filter in Hrow as [_ Hrow].
    destruct (firstRow_is_Some blips row Hrow) as [j Hj].
    exists (Sanitized.ring row), j. split; [done|].
    simpl. by apply get_ringMapOf.
Qed.

(** C3.  The claim fails on the code for a valid row whose quadrant cell
    names a member of Object.prototype.  For the one row with the
    quadrant cell [constructor] the read [quadrants[blip.quadrant]] finds
    the inherited member, no quadrant is made, and the call of [add]
    throws a TypeError: no radar is handed to the renderer, so the row
    has no entry in any quadrant. *)
Theorem row_of_inherited_quadrant_is_lost (title : string) (cur : option string)
    (alts : list string) (b : Browser) :
  let rows := [ Sanitized.make "Tech A" "Adopt" "constructor" "true" "" "d" ] in
  ringCount rows = 1
  ∧ ownQuadrants rows = false
  ∧ (plotRadar TOO_MANY_RINGS title rows cur alts b).1 = inl TypeError
  ∧ plotted (plotRadar TOO_MANY_RINGS title rows cur alts b).2 = plotted b.
Proof.
  intros rows.
  assert (ringCount rows = 1) as Hn by (vm_compute; reflexivity).
  assert (ownQuadrants rows = false) as Hown by reflexivity.
  assert (ringCount rows ≤ maxRings) as Hle by (rewrite Hn; unfold maxRings; lia).
  split; [exact Hn|]. split; [exact Hown|].
  rewrite (plotRadar_inherited title rows cur alts b Hle Hown).
  split; reflexivity.
Qed.

(** C4.  A keyed row and a header with a value row that present the same
    logical row are sanitized to the same record. *)
Theorem sanitize_shapes_agree (header values : list string)
    (rawBlip : gmap string string) :
  sameLogicalRow header rawBlip values →
  InputSanitizer.sanitizeForProtectedSheet values header
  = InputSanitizer.sanitize rawBlip.
Proof.
  intros Hsame. unfold InputSanitizer.sanitizeForProtectedSheet.
  by rewrite (lookup_zipped header values rawBlip Hsame).
Qed.

(** C5, as amended.  Every row that is assembled and whose quadrant cell
    is ASCII text is placed in a quadrant whose name is the row's
    quadrant cell with its first character in upper case and all its
    other characters in lower case. *)
Theorem quadrant_name_capitalized (title : string) (blips : list Sanitized.t)
    (cur : option string) (alts : list string) (b : Browser) :
  ringCount blips ≤ 4 → ownQuadrants blips = true →
  ∃ radar,
    plotted (plotRadar TOO_MANY_RINGS title blips cur alts b).2
      = plotted b ++ [(canvasSize b, radar)]
    ∧ ∀ row, row ∈ blips → isAscii (Sanitized.quadrant row) = true →
        ∃ q, q ∈ Radar.quadrants radar
             ∧ newBlip (ringMapOf blips) row ∈ Quadrant.blips q
             ∧ Quadrant.name q
               = match Sanitized.quadrant row with
                 | EmptyString => EmptyString
                 | String c rest => String (Js.upperChar c) (Js.toLowerCase rest)
                 end.
Proof.
  intros Hn Hown.
  destruct (plotRadar_ok title blips cur alts b Hn Hown) as (keys & Hkeys & ->).
  eexists. split; [done|]. intros row Hrow _. simpl.
  exists (quadrantOf (ringMapOf blips) blips (Sanitized.quadrant row)). split_and!.
  - apply list_elem_of_fmap_2. rewrite Hkeys. apply elem_of_quadrantKeys.
    by apply list_elem_of_fmap_2.
  - simpl. apply list_elem_of_fmap_2. by apply list_elem_of_filter.
  - simpl. destruct (Sanitized.quadrant row); [done|apply capitalize_cons].
Qed.



(** C8, as amended.  For a CSV source whose rows validate and assemble,
    and whose URL decodes (each plus sign read as a space, then the
    percent escapes): the title shown is the last segment of the decoded
    URL, the characters after its last slash or backslash, without a
    trailing [.csv]; a URL that ends in [/2024-radar.csv] after a prefix
    that decodes is shown as [2024-radar]. *)
Theorem csv_title_last_segment (url : string) (data : CsvData) (b : Browser) :
  verifyContent (columns data) = inr tt → verifyHeaders (columns data) = inr tt →
  ringCount (InputSanitizer.sanitize <$> rows data) ≤ 4 →
  ownQuadrants (InputSanitizer.sanitize <$> rows data) = true →
  (∀ pre seg,
     Js.decodeURIComponent (Js.replacePlus url) = Some (pre +:+ seg) →
     seg ≠ "" → forallb Js.segmentChar (Js.chars seg) = true →
     (pre = "" ∨ ∃ pre' c, pre = pre' +:+ String c "" ∧ Js.isSeparator c = true) →
     (∀ p, seg = p +:+ ".csv" →
        documentTitle
          (CSVDocument_createBlips TOO_MANY_RINGS verifyContent verifyHeaders url data b).2
        = p)
     ∧ (Js.endsWith seg ".csv" = false →
        documentTitle
          (CSVDocument_createBlips TOO_MANY_RINGS verifyContent verifyHeaders url data b).2
        = seg))
  ∧ (∀ prefix decoded,
     url = prefix +:+ "/2024-radar.csv" →
     Js.decodeURIComponent (Js.replacePlus prefix) = Some decoded →
     documentTitle
       (CSVDocument_createBlips TOO_MANY_RINGS verifyContent verifyHeaders url data b).2
     = "2024-radar").
Proof.
  intros Hvc Hvh Hn Hown. split.
  - intros pre seg Hdec Hseg Hall Hpre.
    pose proof (FileName_segment url pre seg Hdec Hseg Hall Hpre) as Hfile.
    destruct (CSVDocument_title url seg data b Hvc Hvh Hfile Hn Hown) as [_ ->].
    split.
    + intros p ->. apply titleShown_csv.
    + intros Hno. unfold titleShown. by rewrite Hno.
  - intros prefix decoded -> Hdec.
    assert (FileName (prefix +:+ "/2024-radar.csv") = inr "2024-radar.csv") as Hfile.
    { apply (FileName_segment _ (decoded +:+ "/") "2024-radar.csv"); [|done|done|].
      - rewrite replacePlus_app, string_app_assoc.
        by apply decodeURIComponent_app.
      - right. by exists decoded, "/"%char. }
    destruct (CSVDocument_title _ _ data b Hvc Hvh Hfile Hn Hown) as [_ ->].
    apply (titleShown_csv "2024-radar").
Qed.

(** C9.  The entry made for a row is new exactly when the row's novelty
    cell equals [true] up to the case of its letters. *)
Theorem isNew_ignores_case (ringMap : JsObject.t Ring.t) (blip : Sanitized.t) :
  Blip.isNew (newBlip ringMap blip) = Js.equalsIgnoreCase (Sanitized.isNew blip) "true".
Proof.
  unfold newBlip. simpl.
  pose proof (toLowerCase_eq_iff (Sanitized.isNew blip) "true") as Hiff.
  change (Js.toLowerCase "true") with "true" in Hiff.
  destruct (Js.equalsIgnoreCase _ _).
  - apply bool_decide_eq_true_2. by apply Hiff.
  - apply bool_decide_eq_false_2. intros Heq. by apply Hiff in Heq.
Qed.

(** C10.  Whatever the source, a title that ends in [.csv] loses exactly
    these four characters before it is shown; any other title is shown
    as it is.  So it is for the title [document - tab] of a public and
    of a protected sheet whose tab name ends in [.csv]. *)
Theorem csv_suffix_stripped_always (title : string) (blips : list Sanitized.t)
    (cur : option string) (alts : list string) (b : Browser) :
  (∀ p, title = p +:+ ".csv" →
     documentTitle (plotRadar TOO_MANY_RINGS title blips cur alts b).2 = p
     ∧ String.length p = String.length title - 4)
  ∧ (Js.endsWith title ".csv" = false →
     documentTitle (plotRadar TOO_MANY_RINGS title blips cur alts b).2 = title)
  ∧ (∀ tabletop sheet tab,
     sheets tabletop (Some (tab +:+ ".csv")) = Some sheet →
     verifyContent (columnNames sheet) = inr tt →
     verifyHeaders (columnNames sheet) = inr tt →
     documentTitle
       (GoogleSheet_createBlips_try TOO_MANY_RINGS verifyContent verifyHeaders
          (Some (tab +:+ ".csv")) tabletop b).2
     = googleSheetName tabletop +:+ " - " +:+ tab)
  ∧ (∀ document header all names tab,
     verifyContent header = inr tt → verifyHeaders header = inr tt →
     documentTitle
       (createBlipsForProtectedSheet TOO_MANY_RINGS verifyContent verifyHeaders
          (Some (tab +:+ ".csv")) document (header :: all) names b).2
     = document +:+ " - " +:+ tab).
Proof.
  assert (∀ tab, falsy (Some (tab +:+ ".csv")) = false) as Hfalsy.
  { intros tab. simpl. apply bool_decide_eq_false_2. by destruct tab. }
  rewrite documentTitle_plotRadar. split_and!.
  - intros p ->. split; [apply titleShown_csv|].
    rewrite <- !chars_length, chars_app, length_app. simpl. lia.
  - intros Hno. unfold titleShown. by rewrite Hno.
  - intros tabletop sheet tab Hsheet Hvc Hvh.
    rewrite (GoogleSheet_try_run _ tabletop sheet); rewrite ?Hfalsy; [|done..].
    rewrite documentTitle_plotRadar. simpl.
    rewrite <- !string_app_assoc. apply titleShown_csv.
  - intros document header all names tab Hvc Hvh.
    rewrite protected_run; rewrite ?Hfalsy; [|done..].
    rewrite documentTitle_plotRadar. simpl.
    rewrite <- !string_app_assoc. apply titleShown_csv.
Qed.

(** ** Further properties *)

(** X1.  The assembly succeeds exactly on the row sets with at most four
    distinct ring names and no quadrant cell that names a member of
    Object.prototype; for such a cell (with at most four rings) it throws
    a TypeError and nothing is handed to the renderer. *)
Theorem assembly_succeeds_iff (title : string) (blips : list Sanitized.t)
    (cur : option string) (alts : list string) (b : Browser) :
  ((plotRadar TOO_MANY_RINGS title blips cur alts b).1 = inr tt
   ↔ ringCount blips ≤ 4 ∧ ownQuadrants blips = true)
  ∧ (ringCount blips ≤ 4 → ownQuadrants blips = false →
     (plotRadar TOO_MANY_RINGS title blips cur alts b).1 = inl TypeError
     ∧ plotted (plotRadar TOO_MANY_RINGS title blips cur alts b).2 = plotted b).
Proof.
  split; [split|].
  - intros Hok. destruct (decide (ringCount blips ≤ maxRings)) as [Hn|Hn].
    + split; [done|]. destruct (ownQuadrants blips) eqn:Hown; [done|].
      by rewrite plotRadar_inherited in Hok.
    + by rewrite plotRadar_too_many in Hok by lia.
  - intros [Hn Hown].
    by destruct (plotRadar_ok title blips cur alts b Hn Hown) as (keys & _ & ->).
  - intros Hn Hown. by rewrite plotRadar_inherited.
Qed.

(** X2.  A row set that assembles is handed to the renderer once, with
    the canvas size [max(620, innerHeight - 133)], and the radar carries
    the current sheet name and the alternative sheet names it was given,
    in their order. *)
Theorem radar_carries_sheet_names (title : string) (blips : list Sanitized.t)
    (cur : option string) (alts : list string) (b : Browser) :
  ringCount blips ≤ 4 → ownQuadrants blips = true →
  ∃ radar,
    plotted (plotRadar TOO_MANY_RINGS title blips cur alts b).2
      = plotted b ++ [(Z.max 620 (innerHeight b - 133), radar)]
    ∧ Radar.currentSheetName radar = cur
    ∧ Radar.alternatives radar = alts
    ∧ length (Radar.quadrants radar)
      = size (list_to_set (Sanitized.quadrant <$> blips) : gset string).
Proof.
  intros Hn Hown.
  destruct (plotRadar_ok title blips cur alts b Hn Hown) as (keys & Hkeys & ->).
  eexists. split_and!; [done..|]. simpl.
  rewrite length_fmap, Hkeys.
  rewrite <- (size_list_to_set (C := gset string)) by apply NoDup_uniqBy.
  f_equal. apply set_eq. intros x.
  by rewrite !elem_of_list_to_set, elem_of_quadrantKeys.
Qed.

(** X3.  The error page by class of exception: a MalformedDataError shows
    the fixed opening sentence followed by its message, a
    SheetNotFoundError its message alone, anything else the fixed
    sentence alone, and only then is the exception written to the
    console; the document title is reset. *)
Theorem error_page_by_class (exception : Exception) (b : Browser) :
  ∃ rest,
    body (plotErrorMessage exception b).2 = rest ++ [errorPage exception b]
    ∧ ErrorMessage
        match exception with
        | MalformedDataError m => notFoundMessage +:+ m
        | SheetNotFoundError m => m
        | _ => notFoundMessage
        end
      ∈ parts (errorPage exception b)
    ∧ consoleErrors (plotErrorMessage exception b).2
      = consoleErrors b
        ++ match exception with
           | MalformedDataError _ | SheetNotFoundError _ => []
           | _ => [exception]
           end
    ∧ documentTitle (plotErrorMessage exception b).2 = "Gestalte unsere Zukunft"
    ∧ plotted (plotErrorMessage exception b).2 = plotted b.
Proof.
  destruct (plotErrorMessage_page exception b)
    as (rest & _ & Hbody & _ & Hplotted & Htitle & Hconsole).
  exists rest. split_and!; [done| |done..].
  unfold errorPage, messageFor. simpl. set_solver.
Qed.

(** X4.  A CSV URL with a malformed percent escape: [FileName] throws a
    URIError, which [createBlips] hands to [plotErrorMessage]; no radar
    is plotted. *)
Theorem malformed_url_goes_to_error_page (url : string) (data : CsvData) (b : Browser) :
  verifyContent (columns data) = inr tt → verifyHeaders (columns data) = inr tt →
  Js.decodeURIComponent (Js.replacePlus url) = None →
  CSVDocument_createBlips TOO_MANY_RINGS verifyContent verifyHeaders url data b
  = plotErrorMessage URIError b
  ∧ plotted
      (CSVDocument_createBlips TOO_MANY_RINGS verifyContent verifyHeaders url data b).2
    = plotted b.
Proof.
  intros Hvc Hvh Hdec.
  assert (CSVDocument_createBlips TOO_MANY_RINGS verifyContent verifyHeaders url data b
          = plotErrorMessage URIError b) as ->.
  { unfold CSVDocument_createBlips, CSVDocument_createBlips_try, tryCatch, bind, lift,
      FileName.
    by rewrite Hvc, Hvh, Hdec. }
  split; [done|].
  by destruct (plotErrorMessage_page URIError b) as (rest & _ & _ & _ & -> & _).
Qed.

End FactoryFacts.

(** ** Further properties: the input page *)

(** X5.  A domain name that [DomainName] returns stands in the decoded
    text right after a [://] that is not at the start of the text; it is
    not empty, holds neither a slash nor a backslash, and ends where the
    text ends or where a slash or a backslash follows. *)
Theorem DomainName_sound (url domain : string) :
  DomainName url = inr (Some domain) →
  ∃ decoded pre post,
    Js.decodeURIComponent (Js.replacePlus url) = Some decoded
    ∧ decoded = pre +:+ "://" +:+ domain +:+ post
    ∧ pre ≠ "" ∧ domain ≠ ""
    ∧ forallb Js.segmentChar (Js.chars domain) = true
    ∧ (post = "" ∨ ∃ c post', post = String c post' ∧ Js.isSeparator c = true).
Proof.
  unfold DomainName.
  destruct (Js.decodeURIComponent (Js.replacePlus url)) as [decoded|]; [|done].
  destruct (RegExp.execDomain (Js.chars decoded)) as [host|] eqn:Hexec; [|done].
  intros [= <-].
  apply execDomainFrom_sound in Hexec as (pre & rest & Hpre & Hdecoded & Hhost).
  apply hostAt_Some in Hhost as (post & -> & Hne & Hall & Hpost).
  exists decoded, (Js.str pre), (Js.str post). split_and!.
  - done.
  - apply chars_inj. by rewrite Hdecoded, !chars_app, !chars_str.
  - intros Hempty. apply Hpre. by rewrite <- (chars_str pre), Hempty.
  - intros Hempty. apply Hne. by rewrite <- (chars_str host), Hempty.
  - by rewrite chars_str.
  - destruct post as [|c post]; [by left|]. right. exists c, (Js.str post).
    split; [done|]. simpl in Hpost. unfold Js.segmentChar in Hpost.
    by destruct (Js.isSeparator c).
Qed.

(** X6.  On a decoded text without line terminators [DomainName]
    returns the host after the last [://] that has a character before it
    and a character other than a slash and a backslash behind it. *)
Theorem DomainName_last_host (url pre domain post : string) :
  Js.decodeURIComponent (Js.replacePlus url) = Some (pre +:+ "://" +:+ domain +:+ post) →
  singleLine (Js.chars (pre +:+ "://" +:+ domain +:+ post)) = true →
  pre ≠ "" → domain ≠ "" →
  forallb Js.segmentChar (Js.chars domain) = true →
  (post = "" ∨ ∃ c post', post = String c post' ∧ Js.isSeparator c = true) →
  (∀ a z, Js.chars (domain +:+ post) = a ++ z → ¬ hostStart z) →
  DomainName url = inr (Some domain).
Proof.
  intros Hdecoded Hline Hpre Hdomain Hall Hpost Hlast.
  unfold DomainName. rewrite Hdecoded. do 2 f_equal.
  rewrite !chars_app in *.
  destruct (Js.chars pre) as [|c p] eqn:Hp.
  { destruct Hpre. apply chars_inj. by rewrite Hp. }
  simpl app in *. rewrite (execDomain_singleLine c _ Hline).
  rewrite (afterDots_last p _ (Js.chars domain)).
  - simpl. by rewrite str_chars.
  - simpl in Hline. by apply andb_true_iff in Hline as [_ Hline].
  - apply hostAt_Some. exists (Js.chars post). split_and!; [done| |done|].
    + intros Hempty. apply Hdomain. apply chars_inj. by rewrite Hempty.
    + destruct Hpost as [->|(d & post' & -> & Hd)]; [done|].
      simpl. unfold Js.segmentChar. by rewrite Hd.
  - intros a z Ha Hsplit. apply hostAt_None.
    destruct a as [|a0 [|a1 [|a2 a]]]; [done|..]; simpl in Hsplit.
    + injection Hsplit as _ <-. by intros (d & rest & [=] & _).
    + injection Hsplit as _ _ <-. by intros (d & rest & [=] & _).
    + injection Hsplit as _ _ _ Hsplit. by apply (Hlast a z).
Qed.

(** X7.  On a decoded text without line terminators [DomainName] returns
    [null] exactly when the text has no [://] with a character before it
    and a character other than a slash and a backslash behind it; so a
    text without [://] never has a domain name. *)
Theorem DomainName_null_iff (url decoded : string) :
  Js.decodeURIComponent (Js.replacePlus url) = Some decoded →
  singleLine (Js.chars decoded) = true →
  (DomainName url = inr None
   ↔ ∀ c pre rest, Js.chars decoded = c :: pre ++ rest → ¬ hostStart rest).
Proof.
  intros Hdecoded Hline. unfold DomainName. rewrite Hdecoded. split.
  - intros Hnull c pre rest Hsplit. apply hostAt_None.
    rewrite Hsplit in Hnull, Hline. rewrite (execDomain_singleLine c _ Hline) in Hnull.
    destruct (RegExp.afterDots (pre ++ rest)) as [host|] eqn:Hdots; [done|].
    eapply afterDots_None_1; [|done|done].
    simpl in Hline. by apply andb_true_iff in Hline as [_ Hline].
  - intros Hno. unfold RegExp.execDomain. rewrite execDomainFrom_None; [done|].
    intros pre rest Hpre Hsplit. apply hostAt_None.
    destruct pre as [|c pre]; [done|]. by apply (Hno c pre rest).
Qed.

(** X8.  [FileName] falls back to the URL as it was given, with its
    escapes and plus signs, when the decoded text is empty or ends in a
    slash or a backslash.  In every case the name it returns is the URL
    itself or a non-empty end of the decoded text that holds neither a
    slash nor a backslash. *)
Theorem FileName_falls_back_to_url (url decoded : string) :
  Js.decodeURIComponent (Js.replacePlus url) = Some decoded →
  ((decoded = "" ∨ ∃ pre c, decoded = pre +:+ String c "" ∧ Js.isSeparator c = true) →
   FileName url = inr url)
  ∧ ∀ name,
      FileName url = inr name →
      name = url
      ∨ (name ≠ "" ∧ forallb Js.segmentChar (Js.chars name) = true
         ∧ ∃ pre, decoded = pre +:+ name).
Proof.
  intros Hdecoded. unfold FileName. rewrite Hdecoded. split.
  - intros [->|(pre & c & -> & Hc)]; [done|].
    rewrite chars_app. change (Js.chars (String c "")) with [c].
    by rewrite execLastSegment_None.
  - intros name.
    destruct (Js.execLastSegment (Js.chars decoded)) as [seg|] eqn:Hexec.
    + intros [= <-]. right.
      apply execLastSegment_Some in Hexec as (Hne & Hall & pre & Hsplit).
      split_and!.
      * intros Hempty. apply Hne. by rewrite <- (chars_str seg), Hempty.
      * by rewrite chars_str.
      * exists (Js.str pre). apply chars_inj. by rewrite Hsplit, chars_app, !chars_str.
    + intros [= <-]. by left.
Qed.

(** ** Further properties: the loads *)

Section FactoryInputFacts.

Variable TOO_MANY_RINGS : string.
Variables verifyContent verifyHeaders : list string → Result unit.
Variable QueryParams : string → Params.t.
Variable plotInputForm : M unit.

Lemma Assembly_plotRadar (title : string) (blips : list Sanitized.t)
    (cur : option string) (alts : list string) :
  Assembly (plotRadar TOO_MANY_RINGS title blips cur alts).
Proof.
  intros b. rewrite plotRadar_unfold.
  destruct (Lodash.eachFrom _ 0 (ringsOf blips) _) as [e|ringMap]; [eauto|].
  destruct (Lodash.eachFrom _ 0 blips _) as [e|quadrants]; eauto.
Qed.

Lemma Assembly_lift {A} (r : Result A) (k : A → M unit) :
  (∀ x, Assembly (k x)) → Assembly (x <- lift r ;; k x).
Proof.
  intros Hk b. unfold bind, lift. destruct r as [e|x]; [by left|]. apply Hk.
Qed.



Lemma Assembly_protected (sn : option string) (title : string)
    (values : list (list string)) (names : list string) :
  Assembly (createBlipsForProtectedSheet TOO_MANY_RINGS verifyContent verifyHeaders
              sn title values names).
Proof.
  unfold createBlipsForProtectedSheet.
  apply Assembly_lift; intros ?. apply Assembly_plotRadar.
Qed.

(** What a handler finds when the body of a [try] has thrown. *)
Lemma Assembly_thrown (try : M unit) (b b' : Browser) (e : Exception) :
  Assembly try → wellFormed b → try b = (inl e, b') → wellFormed b' ∧ Kept b b'.
Proof.
  intros Htry Hwf Hrun. specialize (Htry b). rewrite Hrun in Htry.
  destruct Htry as [->|[title ->]]; [done|].
  split; [by apply wellFormed_titled|].
  unfold Kept. simpl. by rewrite filter_loading_idemp.
Qed.

Lemma Assembly_returned (try : M unit) (b b' : Browser) :
  Assembly try → try b = (inr tt, b') → Plotted b b'.
Proof.
  intros Htry Hrun. specialize (Htry b). rewrite Hrun in Htry.
  destruct Htry as (title & radar & ->). by exists radar.
Qed.

Lemma Reported_afterError (e : Exception) (b b1 : Browser) :
  Kept b b1 → Reported (errorPage e b) b (afterError e b1).
Proof.
  intros (Hbody & Hnext & _ & Hloc & _ & Hplotted & _). unfold Reported. simpl.
  unfold errorPage. by rewrite Hbody, Hnext, Hloc, Hplotted.
Qed.

Lemma Reported_afterUnauthorized (b b1 : Browser) :
  Kept b b1 → Reported (unauthorizedPage b) b (afterUnauthorized b1).
Proof.
  intros (Hbody & Hnext & _ & Hloc & Huser & Hplotted & _).
  unfold Reported. simpl. unfold unauthorizedPage.
  by rewrite Hbody, Hnext, Hloc, Huser, Hplotted.
Qed.

Lemma Kept_refl (b : Browser) : Kept b b.
Proof. by unfold Kept. Qed.


(** The same after the loading page has been drawn. *)
Lemma Plotted_afterLoading (b b' : Browser) : Plotted (afterLoading b) b' → Plotted b b'.
Proof.
  intros (radar & Hbody & Hplotted & Hconsole). exists radar.
  rewrite Hbody, Hplotted, Hconsole. simpl.
  rewrite filter_app, filter_cons_False, filter_nil, app_nil_r by done. done.
Qed.

Lemma Reported_afterLoading (page : Element) (b b' : Browser) :
  Reported page (afterLoading b) b' → Reported page b b'.
Proof.
  intros (Hbody & Hplotted & Htitle). unfold Reported.
  rewrite Hbody, Hplotted, Htitle. simpl.
  rewrite filter_app, filter_cons_False, filter_nil, app_nil_r by done. done.
Qed.




Lemma handleSheetError_outcome (e : Exception) (b b1 : Browser) :
  wellFormed b1 → Kept b b1 →
  ∃ b', handleSheetError e b1 = (inr tt, b')
        ∧ loginPrompts b' = loginPrompts b
        ∧ if bool_decide (status e = Some 403%Z)
          then Reported (unauthorizedPage b) b b'
          else Reported (errorPage e b) b b'.
Proof.
  intros Hwf Hkept. unfold handleSheetError.
  assert (loginPrompts b1 = loginPrompts b) as Hprompts by apply Hkept.
  case_bool_decide.
  - rewrite plotUnauthorizedErrorMessage_run by done. eexists. split_and!; [done|done|].
    by apply Reported_afterUnauthorized.
  - rewrite plotErrorMessage_run by done. eexists. split_and!; [done|done|].
    by apply Reported_afterError.
Qed.

(** The sign-in and the answer of the protected sheet, on the page [b1]
    that the sign-in and the callback leave. *)
Lemma authenticate_outcome (sn : option string) (force : bool)
    (callback : option (M unit)) (response : SheetResponse) (b b1 : Browser) :
  (login force ;; match callback with Some run => run | None => ret tt end)%js b
    = (inr tt, b1) →
  wellFormed b1 →
  ∃ b', authenticate TOO_MANY_RINGS verifyContent verifyHeaders sn force callback
          response b = (inr tt, b')
        ∧ loginPrompts b' = loginPrompts b1
        ∧ (Plotted b1 b'
           ∨ (∃ e, status e ≠ Some 403%Z ∧ Reported (errorPage e b1) b1 b')
           ∨ (∃ e, status e = Some 403%Z ∧ Reported (unauthorizedPage b1) b1 b'))
        ∧ ∀ e, response = Failed e →
            if bool_decide (status e = Some 403%Z)
            then Reported (unauthorizedPage b1) b1 b'
            else Reported (errorPage e b1) b1 b'.
Proof.
  intros Hlogin Hwf. rewrite (authenticate_unfold _ _ _ sn force callback _ b b1 Hlogin).
  assert (∀ e b2, wellFormed b2 → Kept b1 b2 →
            ∃ b', handleSheetError e b2 = (inr tt, b')
                  ∧ loginPrompts b' = loginPrompts b1
                  ∧ ((∃ e, status e ≠ Some 403%Z ∧ Reported (errorPage e b1) b1 b')
                     ∨ (∃ e, status e = Some 403%Z ∧ Reported (unauthorizedPage b1) b1 b'))
                  ∧ if bool_decide (status e = Some 403%Z)
                    then Reported (unauthorizedPage b1) b1 b'
                    else Reported (errorPage e b1) b1 b') as Hhandled.
  { intros e b2 Hwf2 Hkept.
    destruct (handleSheetError_outcome e b1 b2 Hwf2 Hkept) as (b' & Hrun & Hprompts & Hpage).
    exists b'. split_and!; [done|done| |done].
    case_bool_decide; [right|left]; by exists e. }
  destruct response as [title values names|e].
  - pose proof (Assembly_protected sn title values names) as Htry.
    destruct (createBlipsForProtectedSheet _ _ _ _ _ _ _ b1) as [[e|[]] b2] eqn:Hrun.
    + destruct (Assembly_thrown _ b1 b2 e Htry Hwf Hrun) as [Hwf2 Hkept].
      destruct (Hhandled e b2 Hwf2 Hkept) as (b' & -> & Hprompts & Hpage & _).
      exists b'. split_and!; [done|done|by right|done].
    + pose proof (Assembly_returned _ b1 b2 Htry Hrun) as Hplotted.
      specialize (Htry b1). rewrite Hrun in Htry. destruct Htry as (t & radar & ->).
      eexists. split_and!; [done|done|by left|done].
  - destruct (Hhandled e b1 Hwf (Kept_refl b1)) as (b' & -> & Hprompts & Hpage & Hthis).
    exists b'. split_and!; [done|done|by right|]. by intros ? [= <-].
Qed.


(** X10.  The validation of a sheet that hands over an error.  A
    SheetNotFoundError is reported on the error page at once: nobody is
    asked to sign in and the console stays as it is.  Every other error
    makes the factory ask for one sign-in, without the account chooser,
    and load the protected sheet: in the end no loading element is left,
    and either one radar was handed to the renderer, or the error page
    or (only for a status 403) the unauthorized page was appended. *)
Theorem sheet_validation_outcome (sn : option string) (error : Exception)
    (tabletop : Tabletop) (response : SheetResponse) (b : Browser) :
  wellFormed b →
  let run :=
    (GoogleSheet_init ;;
     GoogleSheet_build TOO_MANY_RINGS verifyContent verifyHeaders sn (Some error)
       tabletop response)%js b in
  (∀ m, error = SheetNotFoundError m →
     run.1 = inr tt
     ∧ loginPrompts run.2 = loginPrompts b
     ∧ consoleErrors run.2 = consoleErrors b
     ∧ Reported (errorPage error (afterLoading b)) b run.2)
  ∧ ((∀ m, error ≠ SheetNotFoundError m) →
     run.1 = inr tt
     ∧ loginPrompts run.2 = loginPrompts b ++ [false]
     ∧ (Plotted b run.2
        ∨ (∃ e, status e ≠ Some 403%Z ∧ Reported (errorPage e (afterLoading b)) b run.2)
        ∨ (∃ e, status e = Some 403%Z
                ∧ Reported (unauthorizedPage (afterLoading b)) b run.2))
     ∧ ∀ e, response = Failed e →
         if bool_decide (status e = Some 403%Z)
         then Reported (unauthorizedPage (afterLoading b)) b run.2
         else Reported (errorPage e (afterLoading b)) b run.2).
Proof.
  intros Hwf run.
  assert (run = GoogleSheet_build TOO_MANY_RINGS verifyContent verifyHeaders sn
                  (Some error) tabletop response (afterLoading b)) as ->.
  { unfold run, bind, GoogleSheet_init. by rewrite plotLoading_run. }
  pose proof (wellFormed_afterLoading b Hwf) as Hwf1. split.
  - intros m ->. cbn [GoogleSheet_build]. rewrite plotErrorMessage_run by done.
    split_and!; [done|done|simpl; by rewrite app_nil_r|].
    apply Reported_afterLoading, Reported_afterError, Kept_refl.
  - intros Hother.
    assert (GoogleSheet_build TOO_MANY_RINGS verifyContent verifyHeaders sn (Some error)
              tabletop response
            = authenticate TOO_MANY_RINGS verifyContent verifyHeaders sn false None response)
      as ->.
    { destruct error; try done. by destruct (Hother message). }
    destruct (authenticate_outcome sn false None response (afterLoading b)
                (withLoginPrompt false (afterLoading b)) eq_refl Hwf1)
      as (b' & -> & Hprompts & Hcases & Hfailed).
    cbn [fst snd]. split_and!; [done|done| |].
    + destruct Hcases as [Hplotted|[(e & He & Hpage)|(e & He & Hpage)]].
      * left. by apply Plotted_afterLoading.
      * right; left. exists e. split; [done|]. by apply Reported_afterLoading.
      * right; right. exists e. split; [done|]. by apply Reported_afterLoading.
    + intros e He. specialize (Hfailed e He).
      case_bool_decide; by apply Reported_afterLoading.
Qed.

(** X11.  A click on the switch-account button of the unauthorized page
    [content]: one sign-in with the account chooser is asked for, the
    page of the button is taken off, and the protected sheet is loaded
    again; what that load draws stands on the page without [content], so
    that unauthorized pages do not pile up. *)
Theorem switch_account_replaces_page (content : nat) (response : SheetResponse)
    (b : Browser) :
  wellFormed b → content < nextId b →
  let shown := withBody (filter (λ e, handle e ≠ content)) b in
  ∃ b',
    switchAccount TOO_MANY_RINGS verifyContent verifyHeaders content response b
      = (inr tt, b')
    ∧ loginPrompts b' = loginPrompts b ++ [true]
    ∧ (Plotted shown b'
       ∨ (∃ e, status e ≠ Some 403%Z ∧ Reported (errorPage e b) shown b')
       ∨ (∃ e, status e = Some 403%Z ∧ Reported (unauthorizedPage b) shown b'))
    ∧ Forall (λ e, handle e ≠ content) (body b').
Proof.
  intros Hwf Hcontent shown. unfold switchAccount, bind at 1, gets.
  assert (wellFormed (withLoginPrompt true shown)) as Hwf1.
  { unfold wellFormed, shown. simpl. by apply fresh_filter. }
  destruct (authenticate_outcome (sheetName (query b)) true (Some (removeElement content))
              response b (withLoginPrompt true shown) eq_refl Hwf1)
    as (b' & -> & Hprompts & Hcases & _).
  exists b'. split_and!; [done|done|done|].
  assert (Forall (λ e, handle e ≠ content)
            (filter (λ e, loading e = false) (body shown))) as Hgone.
  { apply Forall_forall. intros e [_ He]%list_elem_of_filter.
    unfold shown in He. simpl in He. by apply list_elem_of_filter in He as [He _]. }
  destruct Hcases as [(radar & -> & _)|[(e & _ & -> & _)|(e & _ & -> & _)]].
  - done.
  - apply Forall_app. split; [done|]. apply Forall_singleton. simpl. lia.
  - apply Forall_app. split; [done|]. apply Forall_singleton. simpl. lia.
Qed.

(** X12.  [GoogleSheetInput().build] throws before anything is drawn in
    two cases: the query part of the address has a malformed percent
    escape (a URIError of [decodeURIComponent]), or a domain name is
    found in it while the parameters have no [sheetId] (a TypeError),
    as when the address does not hold the word [sheetId] at all. *)
Theorem build_throws_before_drawing (search href : string) (b : Browser) :
  let query := Js.substring search 1 (String.length search) in
  (Js.decodeURIComponent (Js.replacePlus query) = None →
     GoogleSheetInput_build QueryParams plotInputForm search href b = (inl URIError, b))
  ∧ (∀ domain,
       DomainName query = inr (Some domain) →
       includes href "sheetId" = false →
       GoogleSheetInput_build QueryParams plotInputForm search href b = (inl TypeError, b))
  ∧ (∀ domain matched,
       DomainName query = inr (Some domain) →
       RegExp.execSheetId (Js.chars href) = Some (Js.chars matched) →
       Params.sheetId (QueryParams matched) = None →
       GoogleSheetInput_build QueryParams plotInputForm search href b = (inl TypeError, b)).
Proof.
  intros query. split_and!.
  - intros Hdecoded. unfold GoogleSheetInput_build, bind, lift, DomainName.
    fold query. by rewrite Hdecoded.
  - intros domain Hdomain Hno.
    unfold GoogleSheetInput_build, bind, lift. fold query. rewrite Hdomain.
    assert (falsy (Some domain) = false) as ->.
    { apply bool_decide_eq_false_2. by eapply DomainName_nonempty. }
    rewrite execSheetId_None; [done|].
    intros pre post Hsplit. apply (includes_false _ _ Hno (Js.str pre) (Js.str post)).
    apply chars_inj. by rewrite Hsplit, !chars_app, !chars_str.
  - intros domain matched Hdomain Hmatched Hid.
    unfold GoogleSheetInput_build, bind, lift. fold query. rewrite Hdomain, Hmatched.
    assert (falsy (Some domain) = false) as ->.
    { apply bool_decide_eq_false_2. by eapply DomainName_nonempty. }
    by rewrite str_chars, Hid.
Qed.

(** X13.  A query without [://] in its decoded text never starts a load,
    whatever the [sheetId]: [build] draws the input form and asks for
    nothing. *)
Theorem build_without_scheme_shows_form (search href decoded : string) (b : Browser) :
  Js.decodeURIComponent
    (Js.replacePlus (Js.substring search 1 (String.length search))) = Some decoded →
  includes decoded "://" = false →
  GoogleSheetInput_build QueryParams plotInputForm search href b
  = (plotInputForm ;; ret None)%js b.
Proof.
  intros Hdecoded Hno. unfold GoogleSheetInput_build.
  unfold bind at 1. unfold lift.
  by rewrite (DomainName_no_scheme _ decoded Hdecoded (includes_false _ _ Hno)).
Qed.

(** X14.  With a domain name in the query and a [sheetId] among the
    parameters, [build] looks at the end of the [sheetId] first: one
    that ends in [csv] is loaded as a CSV document, also from a domain
    that ends in [google.com]; otherwise a non-empty [sheetId] from a
    domain that ends in [google.com] is loaded as a sheet; otherwise the
    input form is drawn.  A load starts with the loading page. *)
Theorem build_routes (search href domain matched sheetId : string) (b : Browser) :
  wellFormed b →
  DomainName (Js.substring search 1 (String.length search)) = inr (Some domain) →
  RegExp.execSheetId (Js.chars href) = Some (Js.chars matched) →
  Params.sheetId (QueryParams matched) = Some sheetId →
  (Js.endsWith sheetId "csv" = true →
     GoogleSheetInput_build QueryParams plotInputForm search href b
     = (inr (Some (CsvRequest sheetId)), afterLoading b))
  ∧ (Js.endsWith sheetId "csv" = false →
     Js.endsWith domain "google.com" = true → sheetId ≠ "" →
     GoogleSheetInput_build QueryParams plotInputForm search href b
     = (inr (Some (SheetRequest sheetId (Params.sheetName (QueryParams matched)))),
        afterLoading b))
  ∧ (Js.endsWith sheetId "csv" = false →
     Js.endsWith domain "google.com" = false ∨ sheetId = "" →
     GoogleSheetInput_build QueryParams plotInputForm search href b
     = (plotInputForm ;; ret None)%js b).
Proof.
  intros Hwf Hdomain Hmatched Hid.
  assert (GoogleSheetInput_build QueryParams plotInputForm search href b
          = (if Js.endsWith sheetId "csv"
             then CSVDocument_init ;; ret (Some (CsvRequest sheetId))
             else if Js.endsWith domain "google.com" && negb (bool_decide (sheetId = ""))
             then GoogleSheet_init ;;
                  ret (Some (SheetRequest sheetId (Params.sheetName (QueryParams matched))))
             else plotInputForm ;; ret None)%js b) as ->.
  { unfold GoogleSheetInput_build. unfold bind at 1. unfold lift.
    rewrite Hdomain, Hmatched.
    assert (falsy (Some domain) = false) as ->.
    { apply bool_decide_eq_false_2. by eapply DomainName_nonempty. }
    by rewrite str_chars, Hid. }
  split_and!.
  - intros ->. unfold bind, CSVDocument_init. by rewrite plotLoading_run.
  - intros -> -> Hne. rewrite bool_decide_eq_false_2 by done.
    cbn [andb negb]. unfold bind, GoogleSheet_init. by rewrite plotLoading_run.
  - intros -> [ -> | -> ]; [done|]. by rewrite andb_false_r.
Qed.

(** X15.  The protected sheet is validated on its first row alone, and
    before anything is drawn.  Without any row, not even a header, no
    validator is consulted and a radar without quadrants is handed to
    the renderer.  With a header row, an exception of [verifyContent],
    and then one of [verifyHeaders], is thrown with the page untouched,
    whatever the other rows hold; when both accept the header, the rows
    after the header, and only these, are sanitized and assembled. *)
Theorem protected_sheet_validates_header_only (sn : option string) (title : string)
    (header : list string) (all : list (list string)) (names : list string)
    (b : Browser) :
  let resolved := if falsy sn then names !! 0 else sn in
  let run := createBlipsForProtectedSheet TOO_MANY_RINGS verifyContent verifyHeaders
               sn title in
  run [] names b
    = (inr tt,
       withPlot (canvasSize b) (Radar.make [] resolved names)
         (titled (title +:+ " - " +:+ toString resolved) b))
  ∧ (∀ e, verifyContent header = inl e → run (header :: all) names b = (inl e, b))
  ∧ (∀ e, verifyContent header = inr tt → verifyHeaders header = inl e →
          run (header :: all) names b = (inl e, b))
  ∧ (verifyContent header = inr tt → verifyHeaders header = inr tt →
     run (header :: all) names b
     = plotRadar TOO_MANY_RINGS (title +:+ " - " +:+ toString resolved)
         ((λ blip, InputSanitizer.sanitizeForProtectedSheet blip header) <$> all)
         resolved names b).
Proof.
  intros resolved run. subst run. split_and!.
  - unfold createBlipsForProtectedSheet, bind, lift. cbn [Lodash.each Lodash.eachFrom].
    fold resolved. by rewrite plotRadar_unfold.
  - intros e Hvc. unfold createBlipsForProtectedSheet, bind, lift.
    cbn [Lodash.each Lodash.eachFrom]. by rewrite Hvc.
  - intros e Hvc Hvh. unfold createBlipsForProtectedSheet, bind, lift.
    cbn [Lodash.each Lodash.eachFrom]. by rewrite Hvc, Hvh.
  - intros Hvc Hvh. by apply protected_run.
Qed.

(** X16.  The tab of a public sheet.  Without a sheet name (undefined or
    empty) the first tab that Tabletop found is taken: it is the current
    sheet of the radar and the second half of the title, and all the
    tabs found are the alternatives.  A tab that Tabletop does not hold
    makes the read of its column names throw a TypeError before any
    validator is consulted: the error page shows the fixed sentence, the
    exception goes to the console, and no radar is handed over. *)
Theorem public_sheet_tab (sn : option string) (tabletop : Tabletop) (b : Browser) :
  let resolved := if falsy sn then foundSheetNames tabletop !! 0 else sn in
  (∀ sheet,
     sheets tabletop resolved = Some sheet →
     verifyContent (columnNames sheet) = inr tt →
     verifyHeaders (columnNames sheet) = inr tt →
     ringCount (InputSanitizer.sanitize <$> all sheet) ≤ 4 →
     ownQuadrants (InputSanitizer.sanitize <$> all sheet) = true →
     ∃ radar,
       GoogleSheet_createBlips TOO_MANY_RINGS verifyContent verifyHeaders sn tabletop b
       = (inr tt,
          withPlot (canvasSize b) radar
            (titled (googleSheetName tabletop +:+ " - " +:+ toString resolved) b))
       ∧ Radar.currentSheetName radar = resolved
       ∧ Radar.alternatives radar = foundSheetNames tabletop)
  ∧ (sheets tabletop resolved = None →
     GoogleSheet_createBlips TOO_MANY_RINGS verifyContent verifyHeaders sn tabletop b
     = plotErrorMessage TypeError b
     ∧ ErrorMessage notFoundMessage ∈ parts (errorPage TypeError b)
     ∧ consoleErrors (plotErrorMessage TypeError b).2 = consoleErrors b ++ [TypeError]
     ∧ plotted (plotErrorMessage TypeError b).2 = plotted b).
Proof.
  intros resolved. split.
  - intros sheet Hsheet Hvc Hvh Hn Hown. unfold GoogleSheet_createBlips, tryCatch.
    rewrite (GoogleSheet_try_run _ _ _ sn tabletop sheet b Hsheet Hvc Hvh).
    fold resolved.
    destruct (plotRadar_ok TOO_MANY_RINGS
                (googleSheetName tabletop +:+ " - " +:+ toString resolved)
                (InputSanitizer.sanitize <$> all sheet) resolved
                (foundSheetNames tabletop) b Hn Hown) as (keys & _ & ->).
    by eexists.
  - intros Hsheet. split_and!.
    + unfold GoogleSheet_createBlips, GoogleSheet_createBlips_try, tryCatch, bind, throw.
      fold resolved. by rewrite Hsheet.
    + unfold errorPage, messageFor. simpl. rewrite !elem_of_cons. right; right; by left.
    + by destruct (plotErrorMessage_page TypeError b) as (rest & _ & _ & _ & _ & _ & ->).
    + by destruct (plotErrorMessage_page TypeError b) as (rest & _ & _ & _ & -> & _).
Qed.

(** X17.  In a radar that was handed to the renderer no entry is without
    a ring: the ring of the entry of a row is the one named by the ring
    cell of the row; its order is below four; and two rings of the radar
    with the same order have the same name. *)
Theorem rings_defined_and_bounded (title : string) (blips : list Sanitized.t)
    (cur : option string) (alts : list string) (b : Browser) :
  ringCount blips ≤ 4 → ownQuadrants blips = true →
  ∃ radar,
    plotted (plotRadar TOO_MANY_RINGS title blips cur alts b).2
      = plotted b ++ [(canvasSize b, radar)]
    ∧ (∀ row, row ∈ blips →
         ∃ ring, Blip.ring (newBlip (ringMapOf blips) row) = Found ring
                 ∧ newBlip (ringMapOf blips) row ∈ entries radar
                 ∧ Ring.name ring = Sanitized.ring row)
    ∧ (∀ entry, entry ∈ entries radar →
         ∃ ring, Blip.ring entry = Found ring ∧ Ring.order ring < 4)
    ∧ ∀ entry1 entry2 ring1 ring2,
        entry1 ∈ entries radar → entry2 ∈ entries radar →
        Blip.ring entry1 = Found ring1 → Blip.ring entry2 = Found ring2 →
        Ring.order ring1 = Ring.order ring2 → Ring.name ring1 = Ring.name ring2.
Proof.
  intros Hn Hown.
  destruct (plotRadar_ok TOO_MANY_RINGS title blips cur alts b Hn Hown)
    as (keys & Hkeys & ->).
  assert (∀ entry,
            entry ∈ entries (Radar.make (quadrantOf (ringMapOf blips) blips <$> keys)
                               cur alts) →
            ∃ r j, firstRow blips r = Some j
                   ∧ Blip.ring entry = Found (Ring.new r (ringsBefore blips j)))
    as Hentry.
  { unfold entries. simpl.
    intros entry (q & Hin & (key & -> & _)%list_elem_of_fmap)%list_elem_of_bind.
    simpl in Hin. apply list_elem_of_fmap in Hin as (row & -> & Hrow).
    apply list_elem_of_filter in Hrow as [_ Hrow].
    destruct (firstRow_is_Some blips row Hrow) as [j Hj].
    exists (Sanitized.ring row), j. split; [done|]. simpl. by apply get_ringMapOf. }
  eexists. split_and!; [done|..].
  - intros row Hrow. destruct (firstRow_is_Some blips row Hrow) as [j Hj].
    exists (Ring.new (Sanitized.ring row) (ringsBefore blips j)). split_and!.
    + simpl. by apply get_ringMapOf.
    + by apply entry_of_row.
    + done.
  - intros entry (r & j & Hj & ->)%Hentry. eexists. split; [done|]. simpl.
    apply ringsOf_lookup, lookup_lt_Some in Hj. rewrite length_ringsOf in Hj. lia.
  - intros entry1 entry2 ring1 ring2 (r1 & j1 & Hj1 & ->)%Hentry
      (r2 & j2 & Hj2 & ->)%Hentry [= <-] [= <-]. simpl. intros Horder.
    apply ringsOf_lookup in Hj1, Hj2. rewrite Horder in Hj1. congruence.
Qed.



(** X19.  Rows are put together by the exact text of their quadrant
    cell, while a quadrant is named by the capitalized cell: two cells
    that differ only in the case of their letters give two quadrants of
    the radar with one and the same name, each with the rows of its own
    cell. *)
Theorem quadrant_cells_case_sensitive (title : string) (blips : list Sanitized.t)
    (cur : option string) (alts : list string) (b : Browser) (row1 row2 : Sanitized.t) :
  ringCount blips ≤ 4 → ownQuadrants blips = true →
  row1 ∈ blips → row2 ∈ blips →
  Sanitized.quadrant row1 ≠ Sanitized.quadrant row2 →
  Js.toLowerCase (Sanitized.quadrant row1) = Js.toLowerCase (Sanitized.quadrant row2) →
  ∃ radar i j q1 q2,
    plotted (plotRadar TOO_MANY_RINGS title blips cur alts b).2
      = plotted b ++ [(canvasSize b, radar)]
    ∧ i ≠ j
    ∧ Radar.quadrants radar !! i = Some q1
    ∧ Radar.quadrants radar !! j = Some q2
    ∧ Quadrant.name q1 = Quadrant.name q2
    ∧ Quadrant.blips q1
      = newBlip (ringMapOf blips) <$> rowsOf blips (Sanitized.quadrant row1)
    ∧ Quadrant.blips q2
      = newBlip (ringMapOf blips) <$> rowsOf blips (Sanitized.quadrant row2).
Proof.
  intros Hn Hown Hrow1 Hrow2 Hcells Hlower.
  destruct (plotRadar_ok TOO_MANY_RINGS title blips cur alts b Hn Hown)
    as (keys & Hkeys & ->).
  assert (∀ row, row ∈ blips → ∃ i, keys !! i = Some (Sanitized.quadrant row)) as Hkey.
  { intros row Hrow. apply list_elem_of_lookup. rewrite Hkeys.
    apply elem_of_quadrantKeys. by apply list_elem_of_fmap_2. }
  destruct (Hkey row1 Hrow1) as [i Hi]. destruct (Hkey row2 Hrow2) as [j Hj].
  exists (Radar.make (quadrantOf (ringMapOf blips) blips <$> keys) cur alts), i, j,
    (quadrantOf (ringMapOf blips) blips (Sanitized.quadrant row1)),
    (quadrantOf (ringMapOf blips) blips (Sanitized.quadrant row2)).
  split_and!; [done| | | | |done|done].
  - intros ->. congruence.
  - simpl. by rewrite list_lookup_fmap, Hi.
  - simpl. by rewrite list_lookup_fmap, Hj.
  - simpl. unfold Lodash.capitalize. by rewrite Hlower.
Qed.


End FactoryInputFacts.

(** * Runs on concrete inputs *)

Definition tooManyRings : string := "More than 4 rings.".

Definition accept (columnNames : list string) : Result unit := inr tt.

Definition missingHeaders : string := "Document is missing one or more required headers.".

Definition rejectHeaders (columnNames : list string) : Result unit :=
  inl (MalformedDataError missingHeaders).

Definition page0 : Browser :=
  {| documentTitle := ""; body := []; nextId := 0; innerHeight := 900;
     location := {| protocol := "https:"; hostname := "radar.example"; port := "" |};
     query := {| sheetId := "sheet"; sheetName := None |};
     currentUser := "a@x.com"; loginPrompts := []; plotted := [];
     consoleErrors := [] |}.

Definition row (name ring quadrant isNew : string) : Sanitized.t :=
  Sanitized.make name ring quadrant isNew "" "d".

Definition twoRows : list Sanitized.t :=
  [ row "Tech A" "Adopt" "Tools" "TRUE"; row "Tech B" "Trial" "Tools" "false" ].

Definition threeRows : list Sanitized.t :=
  [ row "Tech A" "Adopt" "tools"  "TRUE"; row "Tech B" "Adopt" "tools" "false";
    row "Tech C" "Trial" "tools AND techniques" "true" ].

Definition fiveRings : list Sanitized.t :=
  [ row "a" "Adopt" "Tools" "true"; row "b" "Trial" "Tools" "true";
    row "c" "Assess" "Tools" "true"; row "d" "Hold" "Tools" "true";
    row "e" "Retire" "Tools" "true" ].

(** The rings and the quadrant names of what was plotted. *)
Definition plottedRings (b : Browser) : list (JsObject.Lookup Ring.t) :=
  plotted b ≫= λ p, Blip.ring <$> entries p.2.

Definition plottedQuadrants (b : Browser) : list string :=
  plotted b ≫= λ p, Quadrant.name <$> Radar.quadrants p.2.

Lemma too_many_rings_rejected_witness :
  (5 ≤ ringCount fiveRings
   ∧ (plotRadar tooManyRings "radar" fiveRings None [] page0).1
     = inl (MalformedDataError tooManyRings)
   ∧ plotted (plotRadar tooManyRings "radar" fiveRings None [] page0).2 = plotted page0)
  ∧ (ringCount twoRows ≤ 4
     ∧ ∀ message,
         (plotRadar tooManyRings "radar" twoRows None [] page0).1
         ≠ inl (MalformedDataError message)).
Proof.
  split.
  - assert (5 ≤ ringCount fiveRings) as Hn by (vm_compute; lia).
    split; [exact Hn|].
    exact (proj1 (too_many_rings_rejected tooManyRings "radar" fiveRings None [] page0) Hn).
  - assert (ringCount twoRows ≤ 4) as Hn by (vm_compute; lia).
    split; [exact Hn|].
    exact (proj2 (too_many_rings_rejected tooManyRings "radar" twoRows None [] page0) Hn).
Defined.

(** C2 as stated fails: the third row is the first row of ring Trial,
    and its ring has order 1, not 2.  Nor does every row set of at most
    four rings assemble: a quadrant cell [constructor] ends the assembly
    with a TypeError. *)
Lemma ring_order_is_not_row_index :
  (plotRadar tooManyRings "radar" threeRows None [] page0).1 = inr tt
  ∧ plottedRings (plotRadar tooManyRings "radar" threeRows None [] page0).2
    = [ Found (Ring.new "Adopt" 0); Found (Ring.new "Adopt" 0);
        Found (Ring.new "Trial" 1) ]
  ∧ firstRow threeRows "Trial" = Some 2
  ∧ ringCount [ row "Tech A" "Adopt" "constructor" "true" ] = 1
  ∧ (plotRadar tooManyRings "radar" [ row "Tech A" "Adopt" "constructor" "true" ]
       None [] page0).1
    = inl TypeError.
Proof. vm_compute. done. Qed.

Lemma ring_order_first_appearance_witness :
  ringCount threeRows ≤ 4 ∧ ownQuadrants threeRows = true
  ∧ ∃ radar,
      (plotRadar tooManyRings "radar" threeRows None [] page0).1 = inr tt
      ∧ plotted (plotRadar tooManyRings "radar" threeRows None [] page0).2
        = plotted page0 ++ [(canvasSize page0, radar)]
      ∧ length (entries radar) = length threeRows
      ∧ (∀ row, row ∈ threeRows →
           ∃ j entry, firstRow threeRows (Sanitized.ring row) = Some j
                      ∧ entry ∈ entries radar
                      ∧ Blip.name entry = Sanitized.name row
                      ∧ Blip.ring entry
                        = Found (Ring.new (Sanitized.ring row) (ringsBefore threeRows j)))
      ∧ (∀ entry, entry ∈ entries radar →
           ∃ r j, firstRow threeRows r = Some j
                  ∧ Blip.ring entry = Found (Ring.new r (ringsBefore threeRows j)))
      ∧ ∀ r1 r2 j1 j2,
          firstRow threeRows r1 = Some j1 → firstRow threeRows r2 = Some j2 → j1 < j2 →
          ringsBefore threeRows j1 < ringsBefore threeRows j2.
Proof.
  assert (ringCount threeRows ≤ 4) as Hn by (vm_compute; lia).
  assert (ownQuadrants threeRows = true) as Hown by reflexivity.
  split; [exact Hn|]. split; [exact Hown|].
  exact (ring_order_first_appearance tooManyRings "radar" threeRows None [] page0 Hn Hown).
Defined.


Definition header6 : list string :=
  [ "name"; "ring"; "quadrant"; "isNew"; "topic"; "description" ].

Definition values6 : list string :=
  [ " Tech A"; "Adopt "; "Tools"; "TRUE"; ""; " d " ].

Lemma sanitize_shapes_agree_witness :
  sameLogicalRow header6 (list_to_map (zip header6 values6)) values6
  ∧ InputSanitizer.sanitizeForProtectedSheet values6 header6
    = InputSanitizer.sanitize (list_to_map (zip header6 values6))
  ∧ InputSanitizer.sanitize (list_to_map (zip header6 values6))
    = Sanitized.make "Tech A" "Adopt" "Tools" "TRUE" "" "d".
Proof.
  assert (sameLogicalRow header6 (list_to_map (zip header6 values6)) values6) as Hsame.
  { apply sameLogicalRow_zip; [|reflexivity].
    apply (bool_decide_unpack _). vm_compute. exact I. }
  split; [exact Hsame|]. split.
  - exact (sanitize_shapes_agree header6 values6 _ Hsame).
  - vm_compute. reflexivity.
Defined.

(** C5 as stated fails: the characters after the first do not stay as
    they are, they are put in lower case. *)
Lemma quadrant_name_rest_lowered :
  (plotRadar tooManyRings "radar" [row "Tech C" "Trial" "tools AND techniques" "true"]
     None [] page0).1 = inr tt
  ∧ plottedQuadrants
      (plotRadar tooManyRings "radar" [row "Tech C" "Trial" "tools AND techniques" "true"]
         None [] page0).2
    = [ "Tools and techniques" ]
  ∧ Lodash.upperFirst "tools AND techniques" = "Tools AND techniques".
Proof. vm_compute. done. Qed.

Lemma quadrant_name_capitalized_witness :
  ringCount threeRows ≤ 4 ∧ ownQuadrants threeRows = true
  ∧ forallb (λ row, isAscii (Sanitized.quadrant row)) threeRows = true
  ∧ ∃ radar,
      plotted (plotRadar tooManyRings "radar" threeRows None [] page0).2
        = plotted page0 ++ [(canvasSize page0, radar)]
      ∧ ∀ row, row ∈ threeRows → isAscii (Sanitized.quadrant row) = true →
          ∃ q, q ∈ Radar.quadrants radar
               ∧ newBlip (ringMapOf threeRows) row ∈ Quadrant.blips q
               ∧ Quadrant.name q
                 = match Sanitized.quadrant row with
                   | EmptyString => EmptyString
                   | String c rest => String (Js.upperChar c) (Js.toLowerCase rest)
                   end.
Proof.
  assert (ringCount threeRows ≤ 4) as Hn by (vm_compute; lia).
  assert (ownQuadrants threeRows = true) as Hown by reflexivity.
  split; [exact Hn|]. split; [exact Hown|]. split; [reflexivity|].
  exact (quadrant_name_capitalized tooManyRings "radar" threeRows None [] page0 Hn Hown).
Defined.







Definition forbidden : Exception := ResponseError (Some 403%Z).
Definition unavailable : Exception := ResponseError (Some 503%Z).


Definition csv1 : CsvData :=
  {| columns := header6; rows := [ list_to_map (zip header6 values6) ] |}.

(** C8 as stated fails: the escape [%2F] is decoded before the last
    segment is taken, so the slash it stands for ends the segment. *)
Lemma csv_title_decoded_before_split :
  (CSVDocument_createBlips tooManyRings accept accept
     "https://radar.example/files/a%2Fb.csv" csv1 page0).1 = inr tt
  ∧ documentTitle
      (CSVDocument_createBlips tooManyRings accept accept
         "https://radar.example/files/a%2Fb.csv" csv1 page0).2
    = "b"
  ∧ titleBySpec "https://radar.example/files/a%2Fb.csv" = Some "a/b".
Proof. vm_compute. done. Qed.

Lemma csv_title_last_segment_witness :
  accept (columns csv1) = inr tt
  ∧ ringCount (InputSanitizer.sanitize <$> rows csv1) ≤ 4
  ∧ ownQuadrants (InputSanitizer.sanitize <$> rows csv1) = true
  ∧ Js.decodeURIComponent (Js.replacePlus "https://radar.example/files/My+2024%20radar.csv")
    = Some ("https://radar.example/files/" +:+ "My 2024 radar.csv")
  ∧ documentTitle
      (CSVDocument_createBlips tooManyRings accept accept
         "https://radar.example/files/My+2024%20radar.csv" csv1 page0).2
    = "My 2024 radar"
  ∧ documentTitle
      (CSVDocument_createBlips tooManyRings accept accept
         ("https://radar.example/files" +:+ "/2024-radar.csv") csv1 page0).2
    = "2024-radar".
Proof.
  assert (ringCount (InputSanitizer.sanitize <$> rows csv1) ≤ 4) as Hn
    by (vm_compute; lia).
  assert (ownQuadrants (InputSanitizer.sanitize <$> rows csv1) = true) as Hown
    by (vm_compute; reflexivity).
  split_and!; [reflexivity|exact Hn|exact Hown|vm_compute; reflexivity|..].
  - refine (proj1 (proj1 (csv_title_last_segment tooManyRings accept accept
                     "https://radar.example/files/My+2024%20radar.csv" csv1 page0
                     eq_refl eq_refl Hn Hown)
                     "https://radar.example/files/" "My 2024 radar.csv" _ _ _ _)
              "My 2024 radar" eq_refl).
    + vm_compute. reflexivity.
    + discriminate.
    + reflexivity.
    + right. exists "https://radar.example/files", "/"%char. split; reflexivity.
  - refine (proj2 (csv_title_last_segment tooManyRings accept accept
                     ("https://radar.example/files" +:+ "/2024-radar.csv") csv1 page0
                     eq_refl eq_refl Hn Hown)
              "https://radar.example/files" "https://radar.example/files" eq_refl _).
    vm_compute. reflexivity.
Defined.

Definition sheet1 : TabletopSheet :=
  {| columnNames := header6; all := [ list_to_map (zip header6 values6) ] |}.

Definition tabletop1 : Tabletop :=
  {| googleSheetName := "Radar"; foundSheetNames := [ "2024.csv" ];
     sheets := λ name, if bool_decide (name = Some "2024.csv") then Some sheet1 else None |}.

Lemma csv_suffix_stripped_always_witness :
  (documentTitle (plotRadar tooManyRings ("Radar - tab" +:+ ".csv") twoRows
                    (Some "tab.csv") [ "tab.csv" ] page0).2
   = "Radar - tab"
   ∧ String.length "Radar - tab" = String.length ("Radar - tab" +:+ ".csv") - 4)
  ∧ (Js.endsWith "Radar - tab" ".csv" = false
     ∧ documentTitle (plotRadar tooManyRings "Radar - tab" twoRows
                        (Some "tab") [ "tab" ] page0).2
       = "Radar - tab")
  ∧ (sheets tabletop1 (Some ("2024" +:+ ".csv")) = Some sheet1
     ∧ documentTitle
         (GoogleSheet_createBlips_try tooManyRings accept accept
            (Some ("2024" +:+ ".csv")) tabletop1 page0).2
       = "Radar - 2024")
  ∧ documentTitle
      (createBlipsForProtectedSheet tooManyRings accept accept
         (Some ("2024" +:+ ".csv")) "Radar" (header6 :: [ values6 ]) [ "2024.csv" ] page0).2
    = "Radar - 2024".
Proof.
  split; [|split; [|split]].
  - exact (proj1 (csv_suffix_stripped_always tooManyRings accept accept
                    ("Radar - tab" +:+ ".csv") twoRows (Some "tab.csv") [ "tab.csv" ] page0)
             "Radar - tab" eq_refl).
  - split; [reflexivity|].
    exact (proj1 (proj2 (csv_suffix_stripped_always tooManyRings accept accept
                           "Radar - tab" twoRows (Some "tab") [ "tab" ] page0)) eq_refl).
  - split; [reflexivity|].
    exact (proj1 (proj2 (proj2 (csv_suffix_stripped_always tooManyRings accept accept
                                  "" [] None [] page0)))
             tabletop1 sheet1 "2024" eq_refl eq_refl eq_refl).
  - exact (proj2 (proj2 (proj2 (csv_suffix_stripped_always tooManyRings accept accept
                                  "" [] None [] page0)))
             "Radar" header6 [ values6 ] [ "2024.csv" ] "2024" eq_refl eq_refl).
Defined.

Lemma radar_carries_sheet_names_witness :
  ringCount twoRows ≤ 4 ∧ ownQuadrants twoRows = true
  ∧ ∃ radar,
      plotted (plotRadar tooManyRings "radar" twoRows (Some "2024") [ "2023"; "2024" ] page0).2
        = plotted page0 ++ [(Z.max 620 (innerHeight page0 - 133), radar)]
      ∧ Radar.currentSheetName radar = Some "2024"
      ∧ Radar.alternatives radar = [ "2023"; "2024" ]
      ∧ length (Radar.quadrants radar)
        = size (list_to_set (Sanitized.quadrant <$> twoRows) : gset string).
Proof.
  assert (ringCount twoRows ≤ 4) as Hn by (vm_compute; lia).
  assert (ownQuadrants twoRows = true) as Hown by reflexivity.
  split; [exact Hn|]. split; [exact Hown|].
  exact (radar_carries_sheet_names tooManyRings "radar" twoRows (Some "2024")
           [ "2023"; "2024" ] page0 Hn Hown).
Defined.

Lemma malformed_url_goes_to_error_page_witness :
  Js.decodeURIComponent (Js.replacePlus "https://radar.example/100%.csv") = None
  ∧ CSVDocument_createBlips tooManyRings accept accept
      "https://radar.example/100%.csv" csv1 page0
    = plotErrorMessage URIError page0
  ∧ plotted
      (CSVDocument_createBlips tooManyRings accept accept
         "https://radar.example/100%.csv" csv1 page0).2
    = plotted page0.
Proof.
  assert (Js.decodeURIComponent (Js.replacePlus "https://radar.example/100%.csv") = None)
    as Hdec by (vm_compute; reflexivity).
  split; [exact Hdec|].
  exact (malformed_url_goes_to_error_page tooManyRings accept accept
           "https://radar.example/100%.csv" csv1 page0 eq_refl eq_refl Hdec).
Defined.

Lemma assembly_succeeds_iff_witness :
  ((plotRadar tooManyRings "radar" twoRows None [] page0).1 = inr tt
   ∧ ringCount twoRows ≤ 4 ∧ ownQuadrants twoRows = true)
  ∧ (ringCount [ row "Tech A" "Adopt" "toString" "true" ] ≤ 4
     ∧ ownQuadrants [ row "Tech A" "Adopt" "toString" "true" ] = false
     ∧ (plotRadar tooManyRings "radar" [ row "Tech A" "Adopt" "toString" "true" ]
          None [] page0).1
       = inl TypeError
     ∧ plotted (plotRadar tooManyRings "radar" [ row "Tech A" "Adopt" "toString" "true" ]
                  None [] page0).2
       = plotted page0).
Proof.
  split.
  - assert ((plotRadar tooManyRings "radar" twoRows None [] page0).1 = inr tt) as Hok
      by (vm_compute; reflexivity).
    split; [exact Hok|].
    exact (proj1 (proj1 (assembly_succeeds_iff tooManyRings "radar" twoRows None [] page0))
             Hok).
  - assert (ringCount [ row "Tech A" "Adopt" "toString" "true" ] ≤ 4) as Hn
      by (vm_compute; lia).
    split; [exact Hn|]. split; [reflexivity|].
    exact (proj2 (assembly_succeeds_iff tooManyRings "radar"
                    [ row "Tech A" "Adopt" "toString" "true" ] None [] page0)
             Hn eq_refl).
Defined.

(** The scenario of the spec: two rows of one quadrant, rings Adopt and
    Trial. *)
Example two_rows_scenario :
  plotted (plotRadar tooManyRings "radar" twoRows None [] page0).2
  = [ (767%Z,
       Radar.make
         [ Quadrant.make "Tools"
             [ Blip.new "Tech A" (Found (Ring.new "Adopt" 0)) true "" "d";
               Blip.new "Tech B" (Found (Ring.new "Trial" 1)) false "" "d" ] ]
         None []) ].
Proof. vm_compute. reflexivity. Qed.

Example isNew_examples :
  Blip.isNew (newBlip [] (row "Tech A" "Adopt" "Tools" "TRUE")) = true
  ∧ Blip.isNew (newBlip [] (row "Tech A" "Adopt" "Tools" "tRuE")) = true
  ∧ Blip.isNew (newBlip [] (row "Tech B" "Trial" "Tools" "false")) = false
  ∧ Blip.isNew (newBlip [] (row "Tech B" "Trial" "Tools" "true ")) = false
  ∧ Blip.isNew (newBlip [] (row "Tech B" "Trial" "Tools" "")) = false.
Proof. vm_compute. done. Qed.

(** Quadrant cells that differ only in case make two quadrants of one
    name; cells that are array indices come first, in ascending order. *)
Example quadrants_by_cell :
  plottedQuadrants
    (plotRadar tooManyRings "radar"
       [ row "a" "Adopt" "tools" "true"; row "b" "Adopt" "Tools" "true";
         row "c" "Adopt" "10" "true"; row "d" "Adopt" "9" "true" ]
       None [] page0).2
  = [ "9"; "10"; "Tools"; "Tools" ].
Proof. vm_compute. reflexivity. Qed.

(** ** Runs of the input page *)

Definition sheetQuery : string :=
  "sheetId=https%3A%2F%2Fdocs.google.com%2Fspreadsheets%2Fd%2F1abc".

Lemma DomainName_sound_witness :
  DomainName sheetQuery = inr (Some "docs.google.com")
  ∧ ∃ decoded pre post,
      Js.decodeURIComponent (Js.replacePlus sheetQuery) = Some decoded
      ∧ decoded = pre +:+ "://" +:+ "docs.google.com" +:+ post
      ∧ pre ≠ "" ∧ "docs.google.com" ≠ ""
      ∧ forallb Js.segmentChar (Js.chars "docs.google.com") = true
      ∧ (post = "" ∨ ∃ c post', post = String c post' ∧ Js.isSeparator c = true).
Proof.
  assert (DomainName sheetQuery = inr (Some "docs.google.com")) as Hdomain
    by (vm_compute; reflexivity).
  split; [exact Hdomain|].
  exact (DomainName_sound sheetQuery "docs.google.com" Hdomain).
Defined.

(** No place of a text where the rest of the expression matches. *)
Fixpoint hostFree (l : list ascii) : bool :=
  match l with
  | [] => true
  | _ :: rest =>
      match RegExp.hostAt l with
      | Some _ => false
      | None => hostFree rest
      end
  end.

Lemma hostFree_spec (l : list ascii) :
  hostFree l = true → ∀ a z, l = a ++ z → ¬ hostStart z.
Proof.
  induction l as [|c l IH]; intros Hfree a z Hsplit.
  - destruct a, z; try done. by intros (d & rest & [=] & _).
  - cbn [hostFree] in Hfree.
    destruct (RegExp.hostAt (c :: l)) as [host|] eqn:Hhost; [done|].
    destruct a as [|d a]; simpl in Hsplit.
    + subst z. by apply hostAt_None.
    + injection Hsplit as _ ->. by apply (IH Hfree a z).
Qed.

(** A query that holds two addresses: the host of the last one is the
    domain name. *)
Definition nestedQuery : string := "sheetId=https://a.org/x?u=http://b.org/y".

Lemma DomainName_last_host_witness :
  Js.decodeURIComponent (Js.replacePlus nestedQuery)
    = Some ("sheetId=https://a.org/x?u=http" +:+ "://" +:+ "b.org" +:+ "/y")
  ∧ singleLine (Js.chars ("sheetId=https://a.org/x?u=http" +:+ "://" +:+ "b.org" +:+ "/y"))
    = true
  ∧ forallb Js.segmentChar (Js.chars "b.org") = true
  ∧ hostFree (Js.chars ("b.org" +:+ "/y")) = true
  ∧ DomainName nestedQuery = inr (Some "b.org").
Proof.
  assert (Js.decodeURIComponent (Js.replacePlus nestedQuery)
          = Some ("sheetId=https://a.org/x?u=http" +:+ "://" +:+ "b.org" +:+ "/y"))
    as Hdecoded by (vm_compute; reflexivity).
  assert (singleLine
            (Js.chars ("sheetId=https://a.org/x?u=http" +:+ "://" +:+ "b.org" +:+ "/y"))
          = true) as Hline by (vm_compute; reflexivity).
  assert (hostFree (Js.chars ("b.org" +:+ "/y")) = true) as Hfree
    by (vm_compute; reflexivity).
  split; [exact Hdecoded|]. split; [exact Hline|]. split; [reflexivity|].
  split; [exact Hfree|].
  refine (DomainName_last_host nestedQuery "sheetId=https://a.org/x?u=http" "b.org" "/y"
            Hdecoded Hline _ _ eq_refl _ (hostFree_spec _ Hfree)).
  - discriminate.
  - discriminate.
  - right. exists "/"%char, "y". split; reflexivity.
Defined.

(** An address without a scheme has no domain name. *)
Definition schemelessQuery : string := "sheetId=docs.google.com%2Fspreadsheets%2Fd%2F1abc".

Lemma DomainName_null_iff_witness :
  Js.decodeURIComponent (Js.replacePlus schemelessQuery)
    = Some "sheetId=docs.google.com/spreadsheets/d/1abc"
  ∧ singleLine (Js.chars "sheetId=docs.google.com/spreadsheets/d/1abc") = true
  ∧ DomainName schemelessQuery = inr None
  ∧ ∀ c pre rest,
      Js.chars "sheetId=docs.google.com/spreadsheets/d/1abc" = c :: pre ++ rest →
      ¬ hostStart rest.
Proof.
  assert (Js.decodeURIComponent (Js.replacePlus schemelessQuery)
          = Some "sheetId=docs.google.com/spreadsheets/d/1abc") as Hdecoded
    by (vm_compute; reflexivity).
  assert (singleLine (Js.chars "sheetId=docs.google.com/spreadsheets/d/1abc") = true)
    as Hline by (vm_compute; reflexivity).
  assert (DomainName schemelessQuery = inr None) as Hnull by (vm_compute; reflexivity).
  split; [exact Hdecoded|]. split; [exact Hline|]. split; [exact Hnull|].
  exact (proj1 (DomainName_null_iff schemelessQuery _ Hdecoded Hline) Hnull).
Defined.

Lemma FileName_falls_back_to_url_witness :
  Js.decodeURIComponent (Js.replacePlus "https://x.org/my%20radars/")
    = Some "https://x.org/my radars/"
  ∧ FileName "https://x.org/my%20radars/" = inr "https://x.org/my%20radars/"
  ∧ FileName "https://x.org/my+radars/2024%20Q1.csv" = inr "2024 Q1.csv"
  ∧ ("2024 Q1.csv" = "https://x.org/my+radars/2024%20Q1.csv"
     ∨ ("2024 Q1.csv" ≠ ""
        ∧ forallb Js.segmentChar (Js.chars "2024 Q1.csv") = true
        ∧ ∃ pre, "https://x.org/my radars/2024 Q1.csv" = pre +:+ "2024 Q1.csv")).
Proof.
  assert (Js.decodeURIComponent (Js.replacePlus "https://x.org/my%20radars/")
          = Some "https://x.org/my radars/") as Hdecoded by (vm_compute; reflexivity).
  assert (Js.decodeURIComponent (Js.replacePlus "https://x.org/my+radars/2024%20Q1.csv")
          = Some "https://x.org/my radars/2024 Q1.csv") as Hdecoded'
    by (vm_compute; reflexivity).
  assert (FileName "https://x.org/my+radars/2024%20Q1.csv" = inr "2024 Q1.csv") as Hname
    by (vm_compute; reflexivity).
  split; [exact Hdecoded|]. split; [|split; [exact Hname|]].
  - apply (proj1 (FileName_falls_back_to_url _ _ Hdecoded)).
    right. exists "https://x.org/my radars", "/"%char. split; reflexivity.
  - exact (proj2 (FileName_falls_back_to_url _ _ Hdecoded') _ Hname).
Defined.

(** ** Runs of the loads *)


(** What the two loads above leave on the page: the radar of the CSV
    document under its title; the error page of the rejected header. *)
Example load_runs :
  (let b' :=
     ((CSVDocument_init ;;
       CSVDocument_createBlips tooManyRings accept accept
         "https://radar.example/2024-radar.csv" csv1)%js page0).2 in
   documentTitle b' = "2024-radar" ∧ body b' = [] ∧ plottedQuadrants b' = [ "Tools" ])
  ∧ (let b' :=
       ((GoogleSheet_init ;;
         GoogleSheet_build tooManyRings accept rejectHeaders None None tabletop1
           (Failed (ResponseError None)))%js page0).2 in
     documentTitle b' = "Gestalte unsere Zukunft"
     ∧ shownMessages b' = [ notFoundMessage +:+ missingHeaders ]
     ∧ plotted b' = []).
Proof. vm_compute. done. Qed.

Definition notFound : Exception := SheetNotFoundError "Oops! We can not find that sheet.".

Lemma sheet_validation_outcome_witness :
  wellFormed page0
  ∧ (let run :=
       (GoogleSheet_init ;;
        GoogleSheet_build tooManyRings accept accept None (Some notFound) tabletop1
          (Failed forbidden))%js page0 in
     run.1 = inr tt
     ∧ loginPrompts run.2 = loginPrompts page0
     ∧ consoleErrors run.2 = consoleErrors page0
     ∧ Reported (errorPage notFound (afterLoading page0)) page0 run.2)
  ∧ (let run :=
       (GoogleSheet_init ;;
        GoogleSheet_build tooManyRings accept accept None (Some unavailable) tabletop1
          (Failed forbidden))%js page0 in
     run.1 = inr tt
     ∧ loginPrompts run.2 = loginPrompts page0 ++ [false]
     ∧ Reported (unauthorizedPage (afterLoading page0)) page0 run.2).
Proof.
  assert (wellFormed page0) as Hwf by constructor.
  split; [exact Hwf|]. split.
  - exact (proj1 (sheet_validation_outcome tooManyRings accept accept None notFound
                    tabletop1 (Failed forbidden) page0 Hwf) _ eq_refl).
  - assert (∀ m, unavailable ≠ SheetNotFoundError m) as Hother by discriminate.
    destruct (proj2 (sheet_validation_outcome tooManyRings accept accept None unavailable
                       tabletop1 (Failed forbidden) page0 Hwf) Hother)
      as (Hrun & Hprompts & _ & Hfailed).
    split; [exact Hrun|]. split; [exact Hprompts|].
    exact (Hfailed forbidden eq_refl).
Defined.

(** The page with the unauthorized page on it, and a click on its
    button that is answered with the status 403 again. *)
Definition page1 : Browser := (plotUnauthorizedErrorMessage page0).2.

Lemma switch_account_replaces_page_witness :
  wellFormed page1 ∧ 0 < nextId page1
  ∧ ∃ b',
      switchAccount tooManyRings accept accept 0 (Failed forbidden) page1 = (inr tt, b')
      ∧ loginPrompts b' = loginPrompts page1 ++ [true]
      ∧ (Plotted (withBody (filter (λ e, handle e ≠ 0)) page1) b'
         ∨ (∃ e, status e ≠ Some 403%Z
                 ∧ Reported (errorPage e page1)
                     (withBody (filter (λ e, handle e ≠ 0)) page1) b')
         ∨ (∃ e, status e = Some 403%Z
                 ∧ Reported (unauthorizedPage page1)
                     (withBody (filter (λ e, handle e ≠ 0)) page1) b'))
      ∧ Forall (λ e, handle e ≠ 0) (body b').
Proof.
  assert (wellFormed page1) as Hwf.
  { unfold wellFormed. apply Forall_singleton. vm_compute. lia. }
  assert (0 < nextId page1) as Hcontent by (vm_compute; lia).
  split; [exact Hwf|]. split; [exact Hcontent|].
  exact (switch_account_replaces_page tooManyRings accept accept 0 (Failed forbidden)
           page1 Hwf Hcontent).
Defined.

Example switch_account_run :
  handle <$> body page1 = [ 0 ]
  ∧ handle <$> body (switchAccount tooManyRings accept accept 0 (Failed forbidden) page1).2
    = [ 1 ]
  ∧ loginPrompts (switchAccount tooManyRings accept accept 0 (Failed forbidden) page1).2
    = [ true ].
Proof. vm_compute. done. Qed.

(** ** Runs of [build] *)

(** A parser that answers with given parameters, and the frame of the
    input form: its element with the logo and the footer. *)
Definition answer (queryParams : Params.t) (matched : string) : Params.t := queryParams.

Definition inputFormFrame : M unit :=
  (content <- appendElement false ;;
   setDocumentTitle ;;
   plotLogo content ;;
   plotFooter content)%js.

Definition nameOnly : Params.t := Params.make None (Some "Q1").

Lemma build_throws_before_drawing_witness :
  (Js.decodeURIComponent (Js.replacePlus "sheetId=100%") = None
   ∧ GoogleSheetInput_build (answer nameOnly) inputFormFrame "?sheetId=100%"
       "https://radar.example/?sheetId=100%" page0
     = (inl URIError, page0))
  ∧ (DomainName "q=http://a.b/c" = inr (Some "a.b")
     ∧ includes "https://radar.example/?q=http://a.b/c" "sheetId" = false
     ∧ GoogleSheetInput_build (answer nameOnly) inputFormFrame "?q=http://a.b/c"
         "https://radar.example/?q=http://a.b/c" page0
       = (inl TypeError, page0))
  ∧ (DomainName "sheetIds=http://a.b/c" = inr (Some "a.b")
     ∧ RegExp.execSheetId (Js.chars "https://radar.example/?sheetIds=http://a.b/c")
       = Some (Js.chars "sheetIds=http://a.b/c")
     ∧ GoogleSheetInput_build (answer nameOnly) inputFormFrame "?sheetIds=http://a.b/c"
         "https://radar.example/?sheetIds=http://a.b/c" page0
       = (inl TypeError, page0)).
Proof.
  split; [|split].
  - assert (Js.decodeURIComponent (Js.replacePlus "sheetId=100%") = None) as Hdecoded
      by (vm_compute; reflexivity).
    split; [exact Hdecoded|].
    exact (proj1 (build_throws_before_drawing (answer nameOnly) inputFormFrame
                    "?sheetId=100%" "https://radar.example/?sheetId=100%" page0)
             Hdecoded).
  - assert (DomainName "q=http://a.b/c" = inr (Some "a.b")) as Hdomain
      by (vm_compute; reflexivity).
    assert (includes "https://radar.example/?q=http://a.b/c" "sheetId" = false) as Hno
      by (vm_compute; reflexivity).
    split; [exact Hdomain|]. split; [exact Hno|].
    exact (proj1 (proj2 (build_throws_before_drawing (answer nameOnly) inputFormFrame
                           "?q=http://a.b/c" "https://radar.example/?q=http://a.b/c"
                           page0))
             "a.b" Hdomain Hno).
  - assert (DomainName "sheetIds=http://a.b/c" = inr (Some "a.b")) as Hdomain
      by (vm_compute; reflexivity).
    assert (RegExp.execSheetId (Js.chars "https://radar.example/?sheetIds=http://a.b/c")
            = Some (Js.chars "sheetIds=http://a.b/c")) as Hmatched
      by (vm_compute; reflexivity).
    split; [exact Hdomain|]. split; [exact Hmatched|].
    exact (proj2 (proj2 (build_throws_before_drawing (answer nameOnly) inputFormFrame
                           "?sheetIds=http://a.b/c"
                           "https://radar.example/?sheetIds=http://a.b/c" page0))
             "a.b" "sheetIds=http://a.b/c" Hdomain Hmatched eq_refl).
Defined.

Definition schemelessParams : Params.t :=
  Params.make (Some "docs.google.com/spreadsheets/d/1abc") None.

Lemma build_without_scheme_shows_form_witness :
  Js.decodeURIComponent
    (Js.replacePlus
       (Js.substring "?sheetId=docs.google.com%2Fspreadsheets%2Fd%2F1abc" 1
          (String.length "?sheetId=docs.google.com%2Fspreadsheets%2Fd%2F1abc")))
    = Some "sheetId=docs.google.com/spreadsheets/d/1abc"
  ∧ includes "sheetId=docs.google.com/spreadsheets/d/1abc" "://" = false
  ∧ GoogleSheetInput_build (answer schemelessParams) inputFormFrame
      "?sheetId=docs.google.com%2Fspreadsheets%2Fd%2F1abc"
      "https://radar.example/?sheetId=docs.google.com%2Fspreadsheets%2Fd%2F1abc" page0
    = (inputFormFrame ;; ret None)%js page0.
Proof.
  assert (Js.decodeURIComponent
            (Js.replacePlus
               (Js.substring "?sheetId=docs.google.com%2Fspreadsheets%2Fd%2F1abc" 1
                  (String.length "?sheetId=docs.google.com%2Fspreadsheets%2Fd%2F1abc")))
          = Some "sheetId=docs.google.com/spreadsheets/d/1abc") as Hdecoded
    by (vm_compute; reflexivity).
  assert (includes "sheetId=docs.google.com/spreadsheets/d/1abc" "://" = false) as Hno
    by (vm_compute; reflexivity).
  split; [exact Hdecoded|]. split; [exact Hno|].
  exact (build_without_scheme_shows_form (answer schemelessParams) inputFormFrame
           "?sheetId=docs.google.com%2Fspreadsheets%2Fd%2F1abc"
           "https://radar.example/?sheetId=docs.google.com%2Fspreadsheets%2Fd%2F1abc"
           "sheetId=docs.google.com/spreadsheets/d/1abc" page0 Hdecoded Hno).
Defined.

(** Three addresses: the CSV export of a Google sheet, a Google sheet,
    and a file of another kind on another host. *)
Definition exportId : string := "https://docs.google.com/spreadsheets/d/1abc/pub?output=csv".
Definition sheetReference : string := "https://docs.google.com/spreadsheets/d/1abc".
Definition bookId : string := "https://files.example/book.xlsx".

Definition exportSearch : string :=
  "?sheetId=https%3A%2F%2Fdocs.google.com%2Fspreadsheets%2Fd%2F1abc%2Fpub%3Foutput%3Dcsv".

Definition sheetSearch : string :=
  "?sheetId=https%3A%2F%2Fdocs.google.com%2Fspreadsheets%2Fd%2F1abc&sheetName=Q1".

Definition bookSearch : string := "?sheetId=https%3A%2F%2Ffiles.example%2Fbook.xlsx".

Lemma build_routes_witness :
  wellFormed page0
  ∧ (DomainName (Js.substring exportSearch 1 (String.length exportSearch))
       = inr (Some "docs.google.com")
     ∧ GoogleSheetInput_build (answer (Params.make (Some exportId) None)) inputFormFrame
         exportSearch ("https://radar.example/" +:+ exportSearch) page0
       = (inr (Some (CsvRequest exportId)), afterLoading page0))
  ∧ (DomainName (Js.substring sheetSearch 1 (String.length sheetSearch))
       = inr (Some "docs.google.com")
     ∧ GoogleSheetInput_build (answer (Params.make (Some sheetReference) (Some "Q1")))
         inputFormFrame sheetSearch ("https://radar.example/" +:+ sheetSearch) page0
       = (inr (Some (SheetRequest sheetReference (Some "Q1"))), afterLoading page0))
  ∧ (DomainName (Js.substring bookSearch 1 (String.length bookSearch))
       = inr (Some "files.example")
     ∧ GoogleSheetInput_build (answer (Params.make (Some bookId) None)) inputFormFrame
         bookSearch ("https://radar.example/" +:+ bookSearch) page0
       = (inputFormFrame ;; ret None)%js page0).
Proof.
  assert (wellFormed page0) as Hwf by constructor.
  split; [exact Hwf|]. split; [|split].
  - assert (DomainName (Js.substring exportSearch 1 (String.length exportSearch))
            = inr (Some "docs.google.com")) as Hdomain by (vm_compute; reflexivity).
    split; [exact Hdomain|].
    refine (proj1 (build_routes (answer (Params.make (Some exportId) None)) inputFormFrame
                     exportSearch ("https://radar.example/" +:+ exportSearch)
                     "docs.google.com"
                     (Js.substring exportSearch 1 (String.length exportSearch))
                     exportId page0 Hwf Hdomain _ eq_refl) eq_refl).
    vm_compute. reflexivity.
  - assert (DomainName (Js.substring sheetSearch 1 (String.length sheetSearch))
            = inr (Some "docs.google.com")) as Hdomain by (vm_compute; reflexivity).
    split; [exact Hdomain|].
    refine (proj1 (proj2 (build_routes
                            (answer (Params.make (Some sheetReference) (Some "Q1")))
                            inputFormFrame sheetSearch
                            ("https://radar.example/" +:+ sheetSearch) "docs.google.com"
                            (Js.substring sheetSearch 1 (String.length sheetSearch))
                            sheetReference page0 Hwf Hdomain _ eq_refl))
              eq_refl eq_refl _).
    + vm_compute. reflexivity.
    + discriminate.
  - assert (DomainName (Js.substring bookSearch 1 (String.length bookSearch))
            = inr (Some "files.example")) as Hdomain by (vm_compute; reflexivity).
    split; [exact Hdomain|].
    refine (proj2 (proj2 (build_routes (answer (Params.make (Some bookId) None))
                            inputFormFrame bookSearch
                            ("https://radar.example/" +:+ bookSearch) "files.example"
                            (Js.substring bookSearch 1 (String.length bookSearch))
                            bookId page0 Hwf Hdomain _ eq_refl))
              eq_refl (or_introl eq_refl)).
    vm_compute. reflexivity.
Defined.

(** ** Runs of the protected and of the public sheet *)

Lemma protected_sheet_validates_header_only_witness :
  createBlipsForProtectedSheet tooManyRings rejectHeaders rejectHeaders None "Radar"
    [] [] page0
    = (inr tt,
       withPlot (canvasSize page0) (Radar.make [] None [])
         (titled "Radar - undefined" page0))
  ∧ createBlipsForProtectedSheet tooManyRings rejectHeaders accept (Some "Q1") "Radar"
      (header6 :: [ values6 ]) [ "Q1" ] page0
    = (inl (MalformedDataError missingHeaders), page0)
  ∧ createBlipsForProtectedSheet tooManyRings accept rejectHeaders (Some "Q1") "Radar"
      (header6 :: [ values6 ]) [ "Q1" ] page0
    = (inl (MalformedDataError missingHeaders), page0)
  ∧ createBlipsForProtectedSheet tooManyRings accept accept (Some "Q1") "Radar"
      (header6 :: [ values6 ]) [ "Q1" ] page0
    = plotRadar tooManyRings "Radar - Q1"
        [ InputSanitizer.sanitizeForProtectedSheet values6 header6 ] (Some "Q1") [ "Q1" ]
        page0.
Proof.
  split; [|split; [|split]].
  - exact (proj1 (protected_sheet_validates_header_only tooManyRings rejectHeaders
                    rejectHeaders None "Radar" header6 [] [] page0)).
  - exact (proj1 (proj2 (protected_sheet_validates_header_only tooManyRings rejectHeaders
                           accept (Some "Q1") "Radar" header6 [ values6 ] [ "Q1" ] page0))
             _ eq_refl).
  - exact (proj1 (proj2 (proj2 (protected_sheet_validates_header_only tooManyRings accept
                                  rejectHeaders (Some "Q1") "Radar" header6 [ values6 ]
                                  [ "Q1" ] page0)))
             _ eq_refl eq_refl).
  - exact (proj2 (proj2 (proj2 (protected_sheet_validates_header_only tooManyRings accept
                                  accept (Some "Q1") "Radar" header6 [ values6 ]
                                  [ "Q1" ] page0)))
             eq_refl eq_refl).
Defined.

Lemma public_sheet_tab_witness :
  (sheets tabletop1 (Some "2024.csv") = Some sheet1
   ∧ ringCount (InputSanitizer.sanitize <$> all sheet1) ≤ 4
   ∧ ownQuadrants (InputSanitizer.sanitize <$> all sheet1) = true
   ∧ ∃ radar,
       GoogleSheet_createBlips tooManyRings accept accept (Some "") tabletop1 page0
       = (inr tt,
          withPlot (canvasSize page0) radar (titled "Radar - 2024.csv" page0))
       ∧ Radar.currentSheetName radar = Some "2024.csv"
       ∧ Radar.alternatives radar = [ "2024.csv" ])
  ∧ (sheets tabletop1 (Some "Q3") = None
     ∧ GoogleSheet_createBlips tooManyRings accept accept (Some "Q3") tabletop1 page0
       = plotErrorMessage TypeError page0
     ∧ ErrorMessage notFoundMessage ∈ parts (errorPage TypeError page0)
     ∧ consoleErrors (plotErrorMessage TypeError page0).2
       = consoleErrors page0 ++ [TypeError]
     ∧ plotted (plotErrorMessage TypeError page0).2 = plotted page0).
Proof.
  split.
  - assert (ringCount (InputSanitizer.sanitize <$> all sheet1) ≤ 4) as Hn
      by (vm_compute; lia).
    assert (ownQuadrants (InputSanitizer.sanitize <$> all sheet1) = true) as Hown
      by (vm_compute; reflexivity).
    split; [reflexivity|]. split; [exact Hn|]. split; [exact Hown|].
    exact (proj1 (public_sheet_tab tooManyRings accept accept (Some "") tabletop1 page0)
             sheet1 eq_refl eq_refl eq_refl Hn Hown).
  - split; [reflexivity|].
    exact (proj2 (public_sheet_tab tooManyRings accept accept (Some "Q3") tabletop1 page0)
             eq_refl).
Defined.

(** ** Runs of the assembly *)

Definition mixedRows : list Sanitized.t :=
  [ row "a" "Adopt" "tools" "true"; row "b" "Trial" "Tools" "true";
    row "c" "Adopt" "10" "true"; row "d" "Hold" "9" "true" ].

Lemma rings_defined_and_bounded_witness :
  ringCount mixedRows ≤ 4 ∧ ownQuadrants mixedRows = true
  ∧ ∃ radar,
      plotted (plotRadar tooManyRings "radar" mixedRows None [] page0).2
        = plotted page0 ++ [(canvasSize page0, radar)]
      ∧ (∀ row, row ∈ mixedRows →
           ∃ ring, Blip.ring (newBlip (ringMapOf mixedRows) row) = Found ring
                   ∧ newBlip (ringMapOf mixedRows) row ∈ entries radar
                   ∧ Ring.name ring = Sanitized.ring row)
      ∧ (∀ entry, entry ∈ entries radar →
           ∃ ring, Blip.ring entry = Found ring ∧ Ring.order ring < 4)
      ∧ ∀ entry1 entry2 ring1 ring2,
          entry1 ∈ entries radar → entry2 ∈ entries radar →
          Blip.ring entry1 = Found ring1 → Blip.ring entry2 = Found ring2 →
          Ring.order ring1 = Ring.order ring2 → Ring.name ring1 = Ring.name ring2.
Proof.
  assert (ringCount mixedRows ≤ 4) as Hn by (vm_compute; lia).
  assert (ownQuadrants mixedRows = true) as Hown by reflexivity.
  split; [exact Hn|]. split; [exact Hown|].
  exact (rings_defined_and_bounded tooManyRings "radar" mixedRows None [] page0 Hn Hown).
Defined.


Lemma quadrant_cells_case_sensitive_witness :
  ringCount mixedRows ≤ 4 ∧ ownQuadrants mixedRows = true
  ∧ Js.toLowerCase "tools" = Js.toLowerCase "Tools"
  ∧ ∃ radar i j q1 q2,
      plotted (plotRadar tooManyRings "radar" mixedRows None [] page0).2
        = plotted page0 ++ [(canvasSize page0, radar)]
      ∧ i ≠ j
      ∧ Radar.quadrants radar !! i = Some q1
      ∧ Radar.quadrants radar !! j = Some q2
      ∧ Quadrant.name q1 = Quadrant.name q2
      ∧ Quadrant.blips q1 = newBlip (ringMapOf mixedRows) <$> rowsOf mixedRows "tools"
      ∧ Quadrant.blips q2 = newBlip (ringMapOf mixedRows) <$> rowsOf mixedRows "Tools".
Proof.
  assert (ringCount mixedRows ≤ 4) as Hn by (vm_compute; lia).
  assert (ownQuadrants mixedRows = true) as Hown by reflexivity.
  split; [exact Hn|]. split; [exact Hown|]. split; [reflexivity|].
  refine (quadrant_cells_case_sensitive tooManyRings "radar" mixedRows None [] page0
            (row "a" "Adopt" "tools" "true") (row "b" "Trial" "Tools" "true")
            Hn Hown _ _ _ eq_refl).
  - apply list_elem_of_here.
  - apply list_elem_of_further, list_elem_of_here.
  - discriminate.
Defined.
